(** * PhishTank MCP server: the cached, rate-limited data-access layer

    A shallow embedding of [src/index.ts] (class [PhishTankServer]) and of
    the parts of the JavaScript runtime and of [node-cache] it relies on,
    followed by the properties of the specification that were checked
    against it.

    Conventions of the embedding.
    - A JavaScript number is a [Z]; where the source can produce [NaN]
      ([parseInt], an invalid [Date]) the value is an [option Z] and [None]
      stands for [NaN].  Fractional numbers are not represented.
    - A JavaScript string is a [string] of bytes.  White space and letter case
      are those of ASCII; bytes above 127 are carried along unchanged.
    - An optional property of an argument object is an [option]; [None] is
      [undefined].
    - The body of a response is any JSON value.  An object is read through
      the type the source casts it to, and so are the elements of an array:
      an array with an element that is no entry object, or an entry with a
      field of another type than declared, is outside the embedding.
    - The handlers are [async] methods of one object.  They are embedded in a
      state-and-exception monad over the fields of that object and the world
      it observes (clock, timers, network). *)

From Stdlib Require Import ZArith String Ascii List Lia Bool Sorted Permutation.
From stdpp Require Import base option list strings gmap pretty.

Local Open Scope Z_scope.

(* ================================================================== *)
(** * The JavaScript runtime *)
(* ================================================================== *)

Module Js.

(** ** Strings *)

(** [WhiteSpace] and [LineTerminator] code points below 128. *)
Definition is_whitespace (c : ascii) : bool :=
  let n := nat_of_ascii c in
  ((n =? 9) || (n =? 10) || (n =? 11) || (n =? 12) || (n =? 13) || (n =? 32))%nat.

Fixpoint trimStart (s : string) : string :=
  match s with
  | EmptyString => EmptyString
  | String c r => if is_whitespace c then trimStart r else s
  end.

Definition trimEnd (s : string) : string :=
  String.rev (trimStart (String.rev s)).

(** [String.prototype.trim] *)
Definition trim (s : string) : string := trimEnd (trimStart s).

Definition lower_ascii (c : ascii) : ascii :=
  let n := nat_of_ascii c in
  if ((65 <=? n) && (n <=? 90))%nat then ascii_of_nat (n + 32) else c.

(** [String.prototype.toLowerCase] *)
Fixpoint toLowerCase (s : string) : string :=
  match s with
  | EmptyString => EmptyString
  | String c r => String (lower_ascii c) (toLowerCase r)
  end.

(** Every character of [s] is below 128.  On such a string [trim],
    [toLowerCase] and [includes] are those of the runtime; on others the
    runtime also strips the white space of Unicode and lowers its letters,
    which this module leaves as they are. *)
Fixpoint is_ascii (s : string) : bool :=
  match s with
  | EmptyString => true
  | String c r => (nat_of_ascii c <? 128)%nat && is_ascii r
  end.

(** [String.prototype.includes]: [needle] occurs in [hay]. *)
Fixpoint includes (hay needle : string) : bool :=
  if String.prefix needle hay then true
  else match hay with
       | EmptyString => false
       | String _ r => includes r needle
       end.

(** The string made of one double quote. *)
Definition quote : string := String (ascii_of_nat 34) EmptyString.

(** Truthiness of a string: only the empty string is falsy. *)
Definition truthy_string (s : string) : bool :=
  match s with EmptyString => false | _ => true end.

(** [a || d] for an optional string property. *)
Definition or_string (a : option string) (d : string) : string :=
  match a with
  | Some s => if truthy_string s then s else d
  | None => d
  end.

(** [a || d] for an optional numeric property: [undefined] and [0] are
    falsy. *)
Definition or_number (a : option Z) (d : Z) : Z :=
  match a with
  | Some n => if n =? 0 then d else n
  | None => d
  end.

(** ** Numbers from strings *)

Definition digit_of (c : ascii) : option Z :=
  let n := nat_of_ascii c in
  if ((48 <=? n) && (n <=? 57))%nat then Some (Z.of_nat n - 48) else None.

Definition hexdigit_of (c : ascii) : option Z :=
  let n := nat_of_ascii c in
  if ((48 <=? n) && (n <=? 57))%nat then Some (Z.of_nat n - 48)
  else if ((97 <=? n) && (n <=? 102))%nat then Some (Z.of_nat n - 87)
  else if ((65 <=? n) && (n <=? 70))%nat then Some (Z.of_nat n - 55)
  else None.

(** The longest prefix of digits in the given radix, as a number; [None]
    when the prefix is empty. *)
Fixpoint digits_prefix (radix : Z) (dig : ascii -> option Z)
         (acc : option Z) (s : string) : option Z :=
  match s with
  | EmptyString => acc
  | String c r =>
      match dig c with
      | Some d => digits_prefix radix dig (Some (radix * default 0 acc + d)) r
      | None => acc
      end
  end.

Definition unsigned_of (s : string) : option Z :=
  match s with
  | String "0" (String "x" r) | String "0" (String "X" r) =>
      digits_prefix 16 hexdigit_of None r
  | _ => digits_prefix 10 digit_of None s
  end.

(** [parseInt(s)] without a radix argument.  The integer is exact; the
    runtime rounds it to a double, which makes a difference from 2^53 on. *)
Definition parseInt (s : string) : option Z :=
  match trimStart s with
  | String "-" r => Z.opp <$> unsigned_of r
  | String "+" r => unsigned_of r
  | r => unsigned_of r
  end.

(** Arithmetic on numbers that may be [NaN]. *)
Definition sub (a b : option Z) : option Z :=
  match a, b with
  | Some x, Some y => Some (x - y)
  | _, _ => None
  end.

(** [a >= b] and [a <= b] and [a > b]: any comparison with [NaN] is false. *)
Definition ge (a b : option Z) : bool :=
  match a, b with Some x, Some y => y <=? x | _, _ => false end.
Definition le (a b : option Z) : bool :=
  match a, b with Some x, Some y => x <=? y | _, _ => false end.
Definition gt (a b : option Z) : bool :=
  match a, b with Some x, Some y => y <? x | _, _ => false end.

(** ** Arrays *)

(** [arr.slice(0, end)] *)
Definition slice0 {A} (l : list A) (e : Z) : list A :=
  let len := Z.of_nat (length l) in
  let final := if e <? 0 then Z.max (len + e) 0 else Z.min e len in
  take (Z.to_nat final) l.

(** [Array.prototype.sort] with a comparator.  The runtime's sort is
    stable; a comparator result of [NaN] counts as [0].  For a comparator
    that is a total preorder every stable sort returns the same array, and
    this insertion sort is one.  A comparator that returns [NaN] for some
    pairs and not for others is no order; the language then leaves the
    arrangement to the implementation, and the one of this sort need not be
    that of the runtime: only that the result has the same elements is
    common to both. *)
Fixpoint sort_insert {A} (cmp : A -> A -> option Z) (x : A) (l : list A) : list A :=
  match l with
  | [] => [x]
  | y :: t => if default 0 (cmp x y) <=? 0 then x :: y :: t
              else y :: sort_insert cmp x t
  end.

Fixpoint sort {A} (cmp : A -> A -> option Z) (l : list A) : list A :=
  match l with
  | [] => []
  | x :: r => sort_insert cmp x (sort cmp r)
  end.

(** ** Timers *)

(** The delay Node's [setTimeout] arms for a requested delay: outside
    [1 .. 2^31-1] the delay is set to 1. *)
Definition TIMEOUT_MAX : Z := 2147483647.

Definition timer_delay (after : Z) : Z :=
  if (1 <=? after) && (after <=? TIMEOUT_MAX) then after else 1.

(** ** Dates

    A [Date] is its time value: milliseconds since the epoch, UTC, or
    [None] for an invalid date.  The local time zone is a fixed offset
    [tza] (milliseconds east of UTC), the runtime's [LocalTZA].  A zone
    whose offset changes in the course of the year (daylight saving time)
    is not modelled: what is proved of [setHours] and [minusDays] is proved
    of zones of one offset, whatever it is. *)

Definition msPerDay : Z := 86400000.

(** Day number (days since 1970-01-01) of a date of the proleptic
    Gregorian calendar, and back. *)
Definition days_from_civil (y m d : Z) : Z :=
  let y' := if m <=? 2 then y - 1 else y in
  let era := y' / 400 in
  let yoe := y' - era * 400 in
  let mp := if 2 <? m then m - 3 else m + 9 in
  let doy := (153 * mp + 2) / 5 + d - 1 in
  let doe := yoe * 365 + yoe / 4 - yoe / 100 + doy in
  era * 146097 + doe - 719468.

Definition civil_from_days (z : Z) : Z * Z * Z :=
  let z := z + 719468 in
  let era := z / 146097 in
  let doe := z - era * 146097 in
  let yoe := (doe - doe / 1460 + doe / 36524 - doe / 146096) / 365 in
  let doy := doe - (365 * yoe + yoe / 4 - yoe / 100) in
  let mp := (5 * doy + 2) / 153 in
  let d := doy - (153 * mp + 2) / 5 + 1 in
  let m := if mp <? 10 then mp + 3 else mp - 9 in
  let y := yoe + era * 400 in
  (if m <=? 2 then y + 1 else y, m, d).

(** Exactly [n] decimal digits at the head of [s]. *)
Fixpoint read_digits (n : nat) (acc : Z) (s : string) : option (Z * string) :=
  match n with
  | O => Some (acc, s)
  | S n' =>
      match s with
      | String c r =>
          match digit_of c with
          | Some d => read_digits n' (10 * acc + d) r
          | None => None
          end
      | EmptyString => None
      end
  end.

Definition expect (c : ascii) (s : string) : option string :=
  match s with
  | String c' r => if Ascii.eqb c c' then Some r else None
  | EmptyString => None
  end.

(** The offset part of a date-time string: nothing (local time), [Z], or
    [+HH:mm] / [-HH:mm].  The result is what has to be subtracted from the
    written time to obtain UTC. *)
Definition read_offset (tza : Z) (s : string) : option Z :=
  match s with
  | EmptyString => Some tza
  | String "Z" EmptyString => Some 0
  | String sg r =>
      sign ← (if Ascii.eqb sg "+" then Some 1
              else if Ascii.eqb sg "-" then Some (-1) else None);
      '(h, r1) ← read_digits 2 0 r;
      r2 ← expect ":" r1;
      '(m, r3) ← read_digits 2 0 r2;
      match r3 with
      | EmptyString =>
          if (h <=? 23) && (m <=? 59) then Some (sign * (h * 3600000 + m * 60000))
          else None
      | _ => None
      end
  end.

(** The time part after [T]: [HH:mm], [HH:mm:ss] or [HH:mm:ss.sss], then
    the offset.  Returns the time within the day, UTC. *)
Definition read_time (tza : Z) (s : string) : option Z :=
  '(h, r1) ← read_digits 2 0 s;
  r2 ← expect ":" r1;
  '(m, r3) ← read_digits 2 0 r2;
  '(sec, r5) ← match expect ":" r3 with
               | Some r4 => read_digits 2 0 r4
               | None => Some (0, r3)
               end;
  '(ms, r7) ← match expect "." r5 with
              | Some r6 => read_digits 3 0 r6
              | None => Some (0, r5)
              end;
  off ← read_offset tza r7;
  if ((h <=? 23) && (m <=? 59) && (sec <=? 59))
     || ((h =? 24) && (m =? 0) && (sec =? 0) && (ms =? 0))
  then Some (h * 3600000 + m * 60000 + sec * 1000 + ms - off)
  else None.

(** [new Date(s).getTime()] for the date-time string format of the
    language ([YYYY-MM-DD], optionally followed by [T] and a time), as V8
    reads it.  A date-only string is UTC midnight.  The month is 01 to 12
    and the day 01 to 31, whatever the month: a day beyond the end of the
    month counts on into the next one ([MakeDay]), so that [2024-02-30] is
    the first of March.

    A string that is not of this format, or whose month or day is out of
    these ranges, goes to the parser for other formats that the language
    leaves to the implementation.  That parser is not modelled: such a
    string is invalid here.  V8 reads some of them, among them those of the
    form [YYYY-MM-DD] whose year is 0001 to 0031, which it can take for a
    day of the month; a property that rests on a string being invalid is
    stated for strings out of its reach (see [year_above_31]). *)
Definition Date_parse (tza : Z) (s : string) : option Z :=
  '(y, s1) ← read_digits 4 0 s;
  s2 ← expect "-" s1;
  '(m, s3) ← read_digits 2 0 s2;
  s4 ← expect "-" s3;
  '(d, s5) ← read_digits 2 0 s4;
  if (1 <=? m) && (m <=? 12) && (1 <=? d) && (d <=? 31) then
    let day := days_from_civil y m d * msPerDay in
    match s5 with
    | EmptyString => Some day
    | String "T" r => Z.add day <$> read_time tza r
    | _ => None
    end
  else None.

(** [date.setHours(h, m, s, ms)]: the time within the local day is
    replaced. *)
Definition setHours (tza : Z) (t : option Z) (h m s ms : Z) : option Z :=
  t' ← t;
  let day := (t' + tza) / msPerDay in
  Some (day * msPerDay + h * 3600000 + m * 60000 + s * 1000 + ms - tza).

(** [date.setDate(date.getDate() - n)]: [n] local days earlier, same local
    time of day; with one offset all year, [n] times 24 hours earlier. *)
Definition minusDays (t : Z) (n : Z) : Z := t - n * msPerDay.

Definition pad (width : nat) (n : Z) : string :=
  let s := pretty n in
  String.app (string_of_list_ascii (replicate (width - String.length s) "0"%char)) s.

(** [date.toISOString().split('T')[0]] *)
Definition toISODate (t : Z) : string :=
  let '(y, m, d) := civil_from_days (t / msPerDay) in
  let ys := if (0 <=? y) && (y <=? 9999) then pad 4 y
            else if y <? 0 then String.app "-" (pad 6 (- y))
            else String.app "+" (pad 6 y) in
  String.app ys (String.app "-" (String.app (pad 2 m) (String.app "-" (pad 2 d)))).

(** [/^\d{4}-\d{2}-\d{2}$/.test(s)] *)
Definition is_digit (c : ascii) : bool := bool_decide (is_Some (digit_of c)).

Definition dateRegex_test (s : string) : bool :=
  match list_ascii_of_string s with
  | [y1; y2; y3; y4; h1; m1; m2; h2; d1; d2] =>
      is_digit y1 && is_digit y2 && is_digit y3 && is_digit y4
      && Ascii.eqb h1 "-" && is_digit m1 && is_digit m2
      && Ascii.eqb h2 "-" && is_digit d1 && is_digit d2
  | _ => false
  end.

End Js.

(* ================================================================== *)
(** * Data model ([src/types/phishtank-types.ts]) *)
(* ================================================================== *)

Record UrlCheckMeta := {
  m_timestamp : string;
  m_format : string
}.

Record UrlCheckResults := {
  r_url : string;
  r_in_database : bool;
  r_phish_id : option Z;
  r_phish_detail_page : option string;
  r_verified : option bool;
  r_verified_at : option string;
  r_valid : option bool;
  r_submitted_at : option string
}.

Record PhishTankUrlCheckResponse := {
  meta : option UrlCheckMeta;
  results : option UrlCheckResults
}.

Record PhishTankDetail := {
  ip_address : string;
  cidr_block : string;
  announcing_network : string;
  rir : string;
  detail_time : string
}.

Record PhishTankEntry := {
  phish_id : Z;
  url : string;
  phish_detail_url : string;
  submission_time : string;
  verified : string;
  verification_time : string;
  online : string;
  target : option string;
  details : option (list PhishTankDetail)
}.

Record DatabaseMeta := { total_entries : Z }.

Record PhishTankDatabase := {
  db_meta : option DatabaseMeta;
  db_entries : option (list PhishTankEntry)
}.

Record RateLimitInfo := {
  interval : string;
  limit : option Z;
  count : option Z;
  remaining : option Z
}.

Record PhishTankConfig := {
  apiKey : option string;
  userAgent : string;
  rateLimitWindow : Z;
  rateLimitMax : Z;
  cacheTimeout : Z;
  maxDatabaseAge : Z
}.

(** The data the server moves around without checking its shape: bodies of
    upstream responses (cast, not validated, by the source) and the values
    held by the cache.  A body is an object, a string, an array, [null], a
    boolean or a number; what the handlers do depends on which, and on no
    more than that and the fields they read. *)
Inductive Value :=
| VObject (r : PhishTankUrlCheckResponse)   (* a JSON object, read as a URL-check response *)
| VText (s : string)                        (* a JSON string, or a body that is not JSON *)
| VArray (l : list PhishTankEntry)          (* a JSON array *)
| VNull                                     (* the JSON body [null] *)
| VBool (b : bool)                          (* the JSON body [true] or [false] *)
| VNumber (n : Z)                           (* a JSON number; a fraction acts as any non-zero one *)
| VDatabase (d : PhishTankDatabase).        (* the snapshot object built by the server *)

Definition truthy (v : Value) : bool :=
  match v with
  | VText s => Js.truthy_string s
  | VNull => false
  | VBool b => b
  | VNumber n => negb (n =? 0)
  | VObject _ | VArray _ | VDatabase _ => true
  end.

(* ================================================================== *)
(** * Arguments and results of the tools

    The argument object of a tool is [any] in the source; it is read here
    through the types its input schema declares.  A result is the object the
    handler passes to [JSON.stringify]; a property that is [undefined] there,
    and so left out of the text, is [None] here. *)
(* ================================================================== *)

Record CheckUrlArgs := { cu_url : option string; cu_format : option string }.

Record CheckMultipleUrlsArgs := { cm_urls : option (list string); cm_delay : option Z }.

Record GetRecentPhishArgs := { rp_limit : option Z; rp_include_offline : option bool }.

Record SearchPhishByTargetArgs := {
  st_target : option string;
  st_limit : option Z;
  st_verified_only : option bool
}.

Record GetPhishDetailsArgs := { pd_phish_id : option Z }.

Record GetPhishStatsArgs := { ps_days : option Z; ps_top_targets_limit : option Z }.

Record SearchPhishByDateArgs := {
  sd_start_date : option string;
  sd_end_date : option string;
  sd_limit : option Z
}.

Record UrlCheckEnvelope := {
  uc_cached : option bool;
  uc_result : Value;
  uc_rate_limit_info : option RateLimitInfo;
  uc_summary : string
}.

Record BatchItem := {
  b_url : string;
  b_success : bool;
  b_data : option UrlCheckEnvelope;
  b_error : option string
}.

Record BatchEnvelope := {
  batch_results : list BatchItem;
  b_total : Z;
  b_successful : Z;
  b_failed : Z;
  b_delay_used : Z
}.

Record RecentEnvelope := {
  rp_total_entries : Z;
  rp_filtered_entries : Z;
  rp_include_offline_used : bool;
  rp_entries : list PhishTankEntry;
  rp_summary : string
}.

Record TargetEnvelope := {
  st_search_target : string;
  st_verified_only_used : bool;
  st_matches_found : Z;
  st_entries : list PhishTankEntry;
  st_summary : string
}.

Record DetailsEnvelope := {
  pd_id : Z;
  pd_found : bool;
  pd_details : option PhishTankEntry;
  pd_summary : string
}.

Record TopTarget := { tt_target : string; tt_count : Z }.

Record PhishTankStats := {
  total_phish : Z;
  total_verified : Z;
  total_online : Z;
  top_targets : list TopTarget;
  recent_submissions : Z;
  date_range_from : string;
  date_range_to : string
}.

Record StatsEnvelope := {
  ps_statistics : PhishTankStats;
  ps_analysis_period_days : Z;
  ps_summary : string
}.

Record DateEnvelope := {
  sd_range_start : string;
  sd_range_end : string;
  sd_matches_found : Z;
  sd_entries : list PhishTankEntry;
  sd_summary : string
}.

Inductive ToolCall :=
| check_url (a : CheckUrlArgs)
| check_multiple_urls (a : CheckMultipleUrlsArgs)
| get_recent_phish (a : GetRecentPhishArgs)
| search_phish_by_target (a : SearchPhishByTargetArgs)
| get_phish_details (a : GetPhishDetailsArgs)
| get_phish_stats (a : GetPhishStatsArgs)
| search_phish_by_date (a : SearchPhishByDateArgs)
| unknown_tool (name : string).

Inductive ToolPayload :=
| OfCheckUrl (r : UrlCheckEnvelope)
| OfCheckMultipleUrls (r : BatchEnvelope)
| OfGetRecentPhish (r : RecentEnvelope)
| OfSearchPhishByTarget (r : TargetEnvelope)
| OfGetPhishDetails (r : DetailsEnvelope)
| OfGetPhishStats (r : StatsEnvelope)
| OfSearchPhishByDate (r : DateEnvelope).

(** What the request handler returns: the content of a tool result, or a
    tool result flagged [isError] with a text. *)
Inductive ToolResponse :=
| Content (p : ToolPayload)
| IsError (text : string).

(* ================================================================== *)
(** * The world outside the server object *)
(* ================================================================== *)

Inductive Method := GET | POST.

Record HttpRequest := {
  rq_method : Method;
  rq_url : string;
  rq_form : list (string * string);
  rq_headers : list (string * string)
}.

Record HttpResponse := {
  data : Value;
  headers : gmap string string
}.

(** What axios does with a request: it resolves with a response, or rejects
    (status outside 2xx, transport failure, timeout). *)
Inductive HttpResult :=
| Responded (r : HttpResponse)
| Rejected (status : option Z) (body : option string) (message : string).

Inductive ErrorCode := InvalidParams | MethodNotFound.

(** What the handlers throw: the errors they make themselves, the
    rejection of a request by axios, and the [TypeError] of the runtime for
    a property read from [null]. *)
Inductive Error :=
| McpError (code : ErrorCode) (message : string)
| AxiosError (status : option Z) (body : option string) (message : string)
| TypeError (message : string).

(** Everything the process does not decide itself. *)
Record Env := {
  (** [process.env] *)
  PHISHTANK_API_KEY : option string;
  PHISHTANK_USER_AGENT : option string;
  (** offset of local time from UTC, in milliseconds *)
  LocalTZA : Z;
  (** whether [new URL(s)] returns rather than throws *)
  URL_parses : string -> bool;
  (** the answer to the [n]-th outbound request *)
  upstream : nat -> HttpRequest -> HttpResult;
  (** the time that passes, beyond what was asked for, at the [n]-th point
      where the process reads the clock, waits for a timer or waits for the
      network *)
  lag : nat -> N
}.

(** The two places where the source waits for a timer: the throttle
    ([enforceRateLimit]) and the pacing of a batch ([checkMultipleUrls]). *)
Inductive Wait := ThrottleWait | PacingWait.

(** The entry of [node-cache]: expiry time [t] (0: never) and value [v]. *)
Record CacheRec := { t : Z; v : Value }.

Record State := {
  (** fields of [PhishTankServer] *)
  cache : gmap string CacheRec;
  lastRequestTime : Z;
  (** the world *)
  clock : Z;                      (* what [Date.now()] would return *)
  ticks : nat;                    (* index into [lag] *)
  requests : list HttpRequest;    (* outbound requests so far, latest first *)
  timers : list (Wait * Z);       (* [setTimeout] waits so far, latest first *)
  (** history of the assignments to [lastRequestTime], latest first *)
  permits : list Z
}.

Definition set_cache (f : gmap string CacheRec -> gmap string CacheRec) (s : State) : State :=
  {| cache := f (cache s); lastRequestTime := lastRequestTime s; clock := clock s;
     ticks := ticks s; requests := requests s; timers := timers s; permits := permits s |}.

Definition set_lastRequestTime (x : Z) (s : State) : State :=
  {| cache := cache s; lastRequestTime := x; clock := clock s;
     ticks := ticks s; requests := requests s; timers := timers s;
     permits := x :: permits s |}.

Definition advance (d : Z) (s : State) : State :=
  {| cache := cache s; lastRequestTime := lastRequestTime s; clock := clock s + d;
     ticks := ticks s; requests := requests s; timers := timers s; permits := permits s |}.

Definition next_tick (s : State) : State :=
  {| cache := cache s; lastRequestTime := lastRequestTime s; clock := clock s;
     ticks := S (ticks s); requests := requests s; timers := timers s; permits := permits s |}.

Definition log_request (r : HttpRequest) (s : State) : State :=
  {| cache := cache s; lastRequestTime := lastRequestTime s; clock := clock s;
     ticks := ticks s; requests := r :: requests s; timers := timers s; permits := permits s |}.

Definition log_timer (w : Wait) (d : Z) (s : State) : State :=
  {| cache := cache s; lastRequestTime := lastRequestTime s; clock := clock s;
     ticks := ticks s; requests := requests s; timers := (w, d) :: timers s;
     permits := permits s |}.

(** The state of a freshly constructed server started at time [t0]. *)
Definition initial (t0 : Z) : State :=
  {| cache := ∅; lastRequestTime := 0; clock := t0;
     ticks := 0; requests := []; timers := []; permits := [] |}.

(** ** The monad of the handlers: state, and exceptions that keep the state *)

Inductive Outcome (A : Type) :=
| Return (a : A)
| Throw (e : Error).
Arguments Return {A} a.
Arguments Throw {A} e.

Definition M (A : Type) : Type := State -> Outcome A * State.

Definition ret {A} (a : A) : M A := fun s => (Return a, s).

Definition throw {A} (e : Error) : M A := fun s => (Throw e, s).

Definition bind {A B} (m : M A) (k : A -> M B) : M B :=
  fun s => match m s with
           | (Return a, s') => k a s'
           | (Throw e, s') => (Throw e, s')
           end.

Definition try_catch {A} (m : M A) (h : Error -> M A) : M A :=
  fun s => match m s with
           | (Return a, s') => (Return a, s')
           | (Throw e, s') => h e s'
           end.

Definition gets {A} (f : State -> A) : M A := fun s => (Return (f s), s).

(** The call of a function that touches nothing, and returns or throws. *)
Definition eval {A} (o : Outcome A) : M A := fun s => (o, s).

Definition modify (f : State -> State) : M unit := fun s => (Return tt, f s).

Notation "'let!' x ':=' m 'in' k" := (bind m (fun x => k))
  (at level 10, x pattern, m at level 100, k at level 200).
Notation "m ';;' k" := (bind m (fun _ => k))
  (at level 100, k at level 200, right associativity).

Section Server.

Context (env : Env).

(** ** Primitives *)

(** Time passes at every point where the process looks at the world. *)
Definition elapse : M unit :=
  modify (fun s => next_tick (advance (Z.of_N (lag env (ticks s))) s)).

(** [Date.now()] *)
Definition Date_now : M Z := elapse ;; gets clock.

(** [await new Promise(resolve => setTimeout(resolve, d))]: the timer
    fires no earlier than the armed delay. *)
Definition sleep (w : Wait) (d : Z) : M unit :=
  modify (fun s => advance (Js.timer_delay d) (log_timer w d s)) ;; elapse.

(** [await axios.request(rq)] *)
Definition http (rq : HttpRequest) : M HttpResponse :=
  let! n := gets (fun s => length (requests s)) in
  modify (log_request rq) ;;
  elapse ;;
  match upstream env n rq with
  | Responded r => ret r
  | Rejected st b msg => throw (AxiosError st b msg)
  end.

(** ** The server ([src/index.ts]) *)

(** The [config] object built by the constructor. *)
Definition config : PhishTankConfig :=
  {| apiKey := PHISHTANK_API_KEY env;
     userAgent := Js.or_string (PHISHTANK_USER_AGENT env) "phishtank-mcp-server/1.0.0";
     rateLimitWindow := 60000;
     rateLimitMax := if Js.truthy_string (default "" (PHISHTANK_API_KEY env))
                     then 100 else 10;
     cacheTimeout := 300000;
     maxDatabaseAge := 3600000 |}.

(** ** [node-cache], as the constructor sets it up

    [get] treats an entry whose expiry time lies before now as absent and
    deletes it; [set] stamps the entry with now plus the time to live, in
    seconds ([stdTTL] when none is given, no expiry when it is 0).  Values
    are held by reference ([useClones: false]).  The periodic sweep
    ([checkperiod]) deletes entries that [get] would no longer return, and
    is left out. *)

Definition stdTTL : Z := cacheTimeout config / 1000.

Definition cache_get (key : string) : M (option Value) :=
  let! found := gets (fun s => cache s !! key) in
  match found with
  | None => ret None
  | Some rec =>
      if t rec =? 0 then ret (Some (v rec))
      else
        let! now := Date_now in
        if t rec <? now then modify (set_cache (delete key)) ;; ret None
        else ret (Some (v rec))
  end.

Definition cache_set (key : string) (val : Value) (ttl : option Z) : M unit :=
  let! now := Date_now in
  let ttl := default stdTTL ttl in
  let livetime := if ttl =? 0 then 0 else now + ttl * 1000 in
  modify (set_cache (insert key {| t := livetime; v := val |})).

(** ** The handlers *)

(** [if (this.config.apiKey)] *)
Definition has_apiKey : bool := Js.truthy_string (default "" (apiKey config)).

(** The headers of the axios instance. *)
Definition default_headers : list (string * string) :=
  [("User-Agent", userAgent config)].

Definition enforceRateLimit : M unit :=
  let! now := Date_now in
  let! last := gets lastRequestTime in
  let timeSinceLastRequest := now - last in
  let minInterval := 60000 / rateLimitMax config in
  (if timeSinceLastRequest <? minInterval then
     let waitTime := minInterval - timeSinceLastRequest in
     sleep ThrottleWait waitTime
   else ret tt) ;;
  let! now' := Date_now in
  modify (set_lastRequestTime now').

Definition isValidUrl (u : string) : bool := URL_parses env u.

Definition extractRateLimitInfo (hs : gmap string string) : option RateLimitInfo :=
  let interval := hs !! "x-request-limit-interval" in
  let limit := hs !! "x-request-limit" in
  let count := hs !! "x-request-count" in
  match interval, limit, count with
  | Some i, Some l, Some c =>
      if Js.truthy_string i && Js.truthy_string l && Js.truthy_string c then
        Some {| interval := i;
                limit := Js.parseInt l;
                count := Js.parseInt c;
                remaining := Js.sub (Js.parseInt l) (Js.parseInt c) |}
      else None
  | _, _, _ => None
  end.

(** [`${phish_id}`] *)
Definition show_id (i : option Z) : string :=
  match i with Some n => pretty n | None => "undefined" end.

(** [response.results] is read first: of [null] it cannot be read, and the
    runtime throws (the message is that of V8); of a string, a number, a
    boolean or an array it is [undefined]. *)
Definition getUrlCheckSummary (response : Value) : Outcome string :=
  match response with
  | VNull => Throw (TypeError "Cannot read properties of null (reading 'results')")
  | VObject {| results := Some r |} =>
      Return
        (if negb (r_in_database r) then
           "URL not found in PhishTank database (likely safe)"
         else if default false (r_verified r) && default false (r_valid r) then
           "⚠️ PHISHING DETECTED - Verified phishing URL (ID: "
           +:+ show_id (r_phish_id r) +:+ ")"
         else
           "URL found in database but not yet verified (ID: "
           +:+ show_id (r_phish_id r) +:+ ")")
  | _ => Return "Invalid response from PhishTank"
  end.

Definition downloadDatabase : M PhishTankDatabase :=
  let baseUrl := "http://data.phishtank.com/data" in
  let format := "online-valid.json" in
  let url := if has_apiKey
             then baseUrl +:+ "/" +:+ default "" (apiKey config) +:+ "/" +:+ format
             else baseUrl +:+ "/" +:+ format in
  let! response := http {| rq_method := GET; rq_url := url; rq_form := [];
                           rq_headers := default_headers |} in
  let entries := match data response with VArray l => l | _ => [] end in
  ret {| db_meta := Some {| total_entries := Z.of_nat (length entries) |};
         db_entries := Some entries |}.

(** *** The miss path of check_url: throttle, request, store. *)
Definition checkUrl_miss (url format cacheKey : string) : M UrlCheckEnvelope :=
  (* Rate limiting *)
  enforceRateLimit ;;
  (* Make API request *)
  let formData :=
    [("url", url); ("format", format)]
    ++ (if has_apiKey then [("app_key", default "" (apiKey config))] else []) in
  let! response :=
    http {| rq_method := POST;
            rq_url := "http://checkurl.phishtank.com/checkurl/";
            rq_form := formData;
            rq_headers := default_headers
                          ++ [("Content-Type", "application/x-www-form-urlencoded")] |} in
  let result := data response in
  (* Cache the result *)
  cache_set cacheKey result None ;;
  let! summary := eval (getUrlCheckSummary result) in
  ret {| uc_cached := None;
         uc_result := result;
         uc_rate_limit_info := extractRateLimitInfo (headers response);
         uc_summary := summary |}.

(** *** check_url *)

Definition checkUrl (args : CheckUrlArgs) : M UrlCheckEnvelope :=
  let url := Js.trim (Js.or_string (cu_url args) "") in
  let format := Js.or_string (cu_format args) "json" in
  if negb (Js.truthy_string url) then
    throw (McpError InvalidParams "URL parameter is required")
  else if negb (isValidUrl url) then
    throw (McpError InvalidParams "Invalid URL format")
  else
    (* Check cache first *)
    let cacheKey := "url_check:" +:+ url in
    let! cached := cache_get cacheKey in
    match cached with
    | Some hit =>
        if truthy hit then
          let! summary := eval (getUrlCheckSummary hit) in
          ret {| uc_cached := Some true;
                 uc_result := hit;
                 uc_rate_limit_info := None;
                 uc_summary := summary |}
        else checkUrl_miss url format cacheKey
    | None => checkUrl_miss url format cacheKey
    end.

(** *** check_multiple_urls *)

(** [error instanceof Error ? error.message : 'Unknown error'] *)
Definition error_message (e : Error) : string :=
  match e with
  | McpError InvalidParams m => "MCP error -32602: " +:+ m
  | McpError MethodNotFound m => "MCP error -32601: " +:+ m
  | AxiosError _ _ m => m
  | TypeError m => m
  end.

(** The body of the [for (const url of urls)] loop, for the urls still to
    process; [delay] is waited after every url but the last. *)
Fixpoint checkEach (delay : Z) (urls : list string) : M (list BatchItem) :=
  match urls with
  | [] => ret []
  | url :: rest =>
      let! item :=
        try_catch
          (let! result := checkUrl {| cu_url := Some url; cu_format := None |} in
           ret {| b_url := url; b_success := true;
                  b_data := Some result; b_error := None |})
          (fun error =>
             ret {| b_url := url; b_success := false;
                    b_data := None; b_error := Some (error_message error) |}) in
      (match rest with
       | [] => ret tt
       | _ => sleep PacingWait delay
       end) ;;
      let! items := checkEach delay rest in
      ret (item :: items)
  end.

Definition checkMultipleUrls (args : CheckMultipleUrlsArgs) : M BatchEnvelope :=
  let urls := default [] (cm_urls args) in
  let delay := Z.max (Js.or_number (cm_delay args) 1000) 500 in
  if bool_decide (urls = []) then
    throw (McpError InvalidParams "URLs array is required")
  else if (50 <? Z.of_nat (length urls)) then
    throw (McpError InvalidParams "Maximum 50 URLs allowed per batch")
  else
    let! results := checkEach delay urls in
    let successCount := Z.of_nat (length (List.filter b_success results)) in
    let failureCount := Z.of_nat (length results) - successCount in
    ret {| batch_results := results;
           b_total := Z.of_nat (length urls);
           b_successful := successCount;
           b_failed := failureCount;
           b_delay_used := delay |}.

(** *** The database-backed tools *)

(** The block each of the five handlers starts with:
    [let database = this.cache.get(cacheKey);
     if (!database) { database = await this.downloadDatabase();
                      this.cache.set(cacheKey, database, maxDatabaseAge / 1000); }] *)
Definition cachedDatabase : M Value :=
  let cacheKey := "phishtank_database" in
  let! database := cache_get cacheKey in
  match database with
  | Some db => if truthy db then ret db else
      let! fresh := downloadDatabase in
      cache_set cacheKey (VDatabase fresh) (Some (maxDatabaseAge config / 1000)) ;;
      ret (VDatabase fresh)
  | None =>
      let! fresh := downloadDatabase in
      cache_set cacheKey (VDatabase fresh) (Some (maxDatabaseAge config / 1000)) ;;
      ret (VDatabase fresh)
  end.

(** [database.entries || []].  Only snapshot objects are ever stored under
    the database key (lemma [database_key_holds_snapshot] below). *)
Definition entries_of (database : Value) : list PhishTankEntry :=
  match database with
  | VDatabase d => default [] (db_entries d)
  | _ => []
  end.

(** [database.meta?.total_entries || 0] *)
Definition total_of (database : Value) : Z :=
  match database with
  | VDatabase d => Js.or_number (total_entries <$> db_meta d) 0
  | _ => 0
  end.

(** [new Date(entry.submission_time).getTime()] *)
Definition submitted (e : PhishTankEntry) : option Z :=
  Js.Date_parse (LocalTZA env) (submission_time e).

(** The comparator [(a, b) => submitted(b) - submitted(a)]. *)
Definition newest_first (a b : PhishTankEntry) : option Z :=
  Js.sub (submitted b) (submitted a).

(** What an in-place sort of [database.entries] leaves in the snapshot
    object, which the cache holds by reference. *)
Definition with_entries (l : list PhishTankEntry) (rec : CacheRec) : CacheRec :=
  match v rec with
  | VDatabase {| db_meta := m; db_entries := Some _ |} =>
      {| t := t rec; v := VDatabase {| db_meta := m; db_entries := Some l |} |}
  | _ => rec
  end.

Definition getRecentPhish (args : GetRecentPhishArgs) : M RecentEnvelope :=
  let limit := Z.min (Js.or_number (rp_limit args) 100) 1000 in
  let includeOffline := default false (rp_include_offline args) in
  let! database := cachedDatabase in
  let entries := entries_of database in
  (* Filter out offline entries if requested *)
  let entries := if negb includeOffline
                 then List.filter (fun entry => bool_decide (online entry = "yes")) entries
                 else entries in
  (* Sort by submission time (most recent first) and limit *)
  let sorted := Js.sort newest_first entries in
  (if includeOffline
   then modify (set_cache (alter (with_entries sorted) "phishtank_database"))
   else ret tt) ;;
  let entries := Js.slice0 sorted limit in
  ret {| rp_total_entries := total_of database;
         rp_filtered_entries := Z.of_nat (length entries);
         rp_include_offline_used := includeOffline;
         rp_entries := entries;
         rp_summary := "Retrieved " +:+ pretty (Z.of_nat (length entries))
                       +:+ " recent phishing URLs"
                       +:+ (if includeOffline then " (including offline)"
                            else " (online only)") |}.

Definition searchPhishByTarget (args : SearchPhishByTargetArgs) : M TargetEnvelope :=
  let target' := Js.toLowerCase (Js.trim (Js.or_string (st_target args) "")) in
  let limit := Z.min (Js.or_number (st_limit args) 50) 500 in
  let verifiedOnly := negb (bool_decide (st_verified_only args = Some false)) in
  if negb (Js.truthy_string target') then
    throw (McpError InvalidParams "Target parameter is required")
  else
    let! database := cachedDatabase in
    let entries := entries_of database in
    (* Filter by target and verification status *)
    let entries :=
      List.filter
        (fun entry =>
           let matchesTarget :=
             match Js.toLowerCase <$> target entry with
             | Some lowered => Js.includes lowered target'
             | None => false
             end in
           let matchesVerified :=
             negb verifiedOnly || bool_decide (verified entry = "yes") in
           matchesTarget && matchesVerified)
        entries in
    (* Sort by submission time and limit *)
    let entries := Js.slice0 (Js.sort newest_first entries) limit in
    ret {| st_search_target := target';
           st_verified_only_used := verifiedOnly;
           st_matches_found := Z.of_nat (length entries);
           st_entries := entries;
           st_summary := "Found " +:+ pretty (Z.of_nat (length entries))
                         +:+ " phishing URLs targeting " +:+ Js.quote +:+ target'
                         +:+ Js.quote
                         +:+ (if verifiedOnly then " (verified only)" else "") |}.

Definition getPhishDetails (args : GetPhishDetailsArgs) : M DetailsEnvelope :=
  match pd_phish_id args with
  | None => throw (McpError InvalidParams "Valid phish_id is required")
  | Some phishId =>
      if (phishId =? 0) || (phishId <=? 0) then
        throw (McpError InvalidParams "Valid phish_id is required")
      else
        let! database := cachedDatabase in
        let entry := List.find (fun e => phish_id e =? phishId) (entries_of database) in
        match entry with
        | None =>
            ret {| pd_id := phishId; pd_found := false; pd_details := None;
                   pd_summary := "Phish ID " +:+ pretty phishId
                                 +:+ " not found in database" |}
        | Some e =>
            ret {| pd_id := phishId; pd_found := true; pd_details := Some e;
                   pd_summary := "Details for phish ID " +:+ pretty phishId +:+ ": "
                                 +:+ url e +:+ " (Target: "
                                 +:+ Js.or_string (target e) "Unknown" +:+ ")" |}
        end
  end.

(** [targetCounts.set(target, (targetCounts.get(target) || 0) + 1)] on a
    [Map], which keeps its keys in the order of their first insertion. *)
Fixpoint count_target (key : string) (m : list (string * Z)) : list (string * Z) :=
  match m with
  | [] => [(key, 0 + 1)]
  | (k, n) :: r => if bool_decide (k = key) then (k, Js.or_number (Some n) 0 + 1) :: r
                   else (k, n) :: count_target key r
  end.

Definition getPhishStats (args : GetPhishStatsArgs) : M StatsEnvelope :=
  let days := Z.min (Z.max (Js.or_number (ps_days args) 7) 1) 30 in
  let topTargetsLimit := Z.min (Js.or_number (ps_top_targets_limit args) 10) 50 in
  let! database := cachedDatabase in
  let entries := entries_of database in
  let! now := Date_now in
  let cutoffDate := Js.minusDays now days in
  (* Filter entries by date range *)
  let recentEntries :=
    List.filter (fun entry => Js.ge (submitted entry) (Some cutoffDate)) entries in
  (* Calculate statistics *)
  let totalPhish := Z.of_nat (length recentEntries) in
  let totalVerified :=
    Z.of_nat (length (List.filter (fun e => bool_decide (verified e = "yes")) recentEntries)) in
  let totalOnline :=
    Z.of_nat (length (List.filter (fun e => bool_decide (online e = "yes")) recentEntries)) in
  (* Count targets *)
  let targetCounts :=
    fold_left (fun m entry =>
                 if Js.truthy_string (default "" (target entry))
                 then count_target (default "" (target entry)) m
                 else m)
              recentEntries [] in
  let topTargets :=
    List.map (fun '(tg, n) => {| tt_target := tg; tt_count := n |})
      (Js.slice0 (Js.sort (fun a b => Some (snd b - snd a)) targetCounts)
                 topTargetsLimit) in
  let! today := Date_now in
  let stats :=
    {| total_phish := totalPhish;
       total_verified := totalVerified;
       total_online := totalOnline;
       top_targets := topTargets;
       recent_submissions := totalPhish;
       date_range_from := Js.toISODate cutoffDate;
       date_range_to := Js.toISODate today |} in
  ret {| ps_statistics := stats;
         ps_analysis_period_days := days;
         ps_summary := "Analyzed " +:+ pretty totalPhish
                       +:+ " phishing submissions over " +:+ pretty days +:+ " days. "
                       +:+ pretty totalVerified +:+ " verified, "
                       +:+ pretty totalOnline +:+ " currently online." |}.

Definition searchPhishByDate (args : SearchPhishByDateArgs) : M DateEnvelope :=
  let startDate := default "" (sd_start_date args) in
  let endDate := default "" (sd_end_date args) in
  let limit := Z.min (Js.or_number (sd_limit args) 100) 500 in
  if negb (Js.truthy_string startDate) || negb (Js.truthy_string endDate) then
    throw (McpError InvalidParams "Both start_date and end_date are required")
  else
    (* Validate date format *)
    if negb (Js.dateRegex_test startDate) || negb (Js.dateRegex_test endDate) then
      throw (McpError InvalidParams "Dates must be in YYYY-MM-DD format")
    else
      let start := Js.Date_parse (LocalTZA env) startDate in
      let end' := Js.Date_parse (LocalTZA env) endDate in
      let end' := Js.setHours (LocalTZA env) end' 23 59 59 999 in (* Include full end date *)
      if Js.gt start end' then
        throw (McpError InvalidParams "Start date must be before end date")
      else
        let! database := cachedDatabase in
        (* Filter by date range *)
        let entries :=
          Js.slice0
            (Js.sort newest_first
               (List.filter
                  (fun entry =>
                     let submissionDate := submitted entry in
                     Js.ge submissionDate start && Js.le submissionDate end')
                  (entries_of database)))
            limit in
        ret {| sd_range_start := startDate;
               sd_range_end := endDate;
               sd_matches_found := Z.of_nat (length entries);
               sd_entries := entries;
               sd_summary := "Found " +:+ pretty (Z.of_nat (length entries))
                             +:+ " phishing URLs submitted between " +:+ startDate
                             +:+ " and " +:+ endDate |}.

(** *** The request handler *)

(** [`${statusCode}`] *)
Definition show_status (st : option Z) : string :=
  match st with Some n => pretty n | None => "undefined" end.

Definition dispatch (call : ToolCall) : M ToolResponse :=
  match call with
  | check_url a => let! r := checkUrl a in ret (Content (OfCheckUrl r))
  | check_multiple_urls a => let! r := checkMultipleUrls a in ret (Content (OfCheckMultipleUrls r))
  | get_recent_phish a => let! r := getRecentPhish a in ret (Content (OfGetRecentPhish r))
  | search_phish_by_target a =>
      let! r := searchPhishByTarget a in ret (Content (OfSearchPhishByTarget r))
  | get_phish_details a => let! r := getPhishDetails a in ret (Content (OfGetPhishDetails r))
  | get_phish_stats a => let! r := getPhishStats a in ret (Content (OfGetPhishStats r))
  | search_phish_by_date a =>
      let! r := searchPhishByDate a in ret (Content (OfSearchPhishByDate r))
  | unknown_tool name => throw (McpError MethodNotFound ("Unknown tool: " +:+ name))
  end.

Definition callTool (call : ToolCall) : M ToolResponse :=
  try_catch (dispatch call)
    (fun error =>
       match error with
       | AxiosError statusCode body message =>
           if bool_decide (statusCode = Some 509) then
             ret (IsError "Rate limit exceeded. Please try again later. Consider using an API key for higher limits.")
           else
             ret (IsError ("PhishTank API error (" +:+ show_status statusCode +:+ "): "
                           +:+ Js.or_string body message))
       | _ => throw error
       end).

(** The server handles the requests it receives one at a time, in order;
    an exception that leaves the handler is answered as a protocol error
    and the server goes on. *)
Fixpoint serve (calls : list ToolCall) : M (list (Outcome ToolResponse)) :=
  match calls with
  | [] => ret []
  | call :: rest =>
      let! answer := try_catch (let! r := callTool call in ret (Return r))
                               (fun error => ret (Throw error)) in
      let! answers := serve rest in
      ret (answer :: answers)
  end.

End Server.

(* ================================================================== *)
(** * Concrete worlds, for the examples below *)
(* ================================================================== *)

Module Demo.

(** 2024-01-01T00:00:00Z *)
Definition t0 : Z := 1704067200000.

Definition entry (id : Z) (submitted_at : string) (brand : option string) : PhishTankEntry :=
  {| phish_id := id;
     url := "http://phish.example/" +:+ pretty id;
     phish_detail_url := "http://www.phishtank.com/phish_detail.php?phish_id=" +:+ pretty id;
     submission_time := submitted_at;
     verified := "yes";
     verification_time := submitted_at;
     online := "yes";
     target := brand;
     details := None |}.

Definition clean (u : string) : Value :=
  VObject {| meta := None;
             results := Some {| r_url := u; r_in_database := false;
                                r_phish_id := None; r_phish_detail_page := None;
                                r_verified := None; r_verified_at := None;
                                r_valid := None; r_submitted_at := None |} |}.

(** A world without API key, in the time zone [tza], where nothing takes
    longer than asked, every string that starts with [http://] or
    [https://] is a URL, a URL check is answered with [body] and
    [hs], and the download with [dump]. *)
Definition world (tza : Z) (body : Value) (hs : gmap string string) (dump : Value) : Env :=
  {| PHISHTANK_API_KEY := None;
     PHISHTANK_USER_AGENT := None;
     LocalTZA := tza;
     URL_parses := fun u => String.prefix "http://" u || String.prefix "https://" u;
     upstream := fun _ rq =>
                   match rq_method rq with
                   | POST => Responded {| data := body; headers := hs |}
                   | GET => Responded {| data := dump; headers := ∅ |}
                   end;
     lag := fun _ => 0%N |}.

Definition telemetry : gmap string string :=
  {[ "x-request-limit-interval" := "300 Seconds";
     "x-request-limit" := "50";
     "x-request-count" := "3" ]}.

Definition e1 : PhishTankEntry := entry 1 "2024-01-01T08:00:00+00:00" (Some "PayPal").
Definition e2 : PhishTankEntry := entry 2 "2024-01-01T12:00:00+00:00" (Some "Apple").
Definition e3 : PhishTankEntry := entry 3 "2024-01-02T09:30:00+00:00" None.

(** The snapshot made of a download of [e1], [e2], [e3]. *)
Definition snapshot : Value :=
  VDatabase {| db_meta := Some {| total_entries := 3 |}; db_entries := Some [e1; e2; e3] |}.

(** A world in UTC whose download returns [e1], [e2], [e3]. *)
Definition plain : Env := world 0 (clean "https://a.com") ∅ (VArray [e1; e2; e3]).

(** A world in UTC whose URL checks come with the three rate-limit
    headers. *)
Definition metered : Env := world 0 (clean "https://a.com") telemetry (VArray []).

(** A world in UTC whose URL checks come back with an empty body. *)
Definition mute : Env := world 0 (VText "") ∅ (VArray []).

(** [a_com] with a space after the url. *)
Definition a_com_padded : CheckUrlArgs :=
  {| cu_url := Some "https://a.com "; cu_format := None |}.

(** [plain], five hours west of UTC. *)
Definition new_york : Env :=
  world (-18000000) (clean "https://a.com") ∅ (VArray [e1; e2; e3]).

Definition a_com : CheckUrlArgs := {| cu_url := Some "https://a.com"; cu_format := None |}.
Definition b_com : CheckUrlArgs := {| cu_url := Some "https://b.com"; cu_format := None |}.

(** Two more entries for PayPal: one whose time of submission is the empty
    string, which is no date, and one of the second of January. *)
Definition undated : PhishTankEntry := entry 4 "" (Some "PayPal").
Definition later : PhishTankEntry := entry 5 "2024-01-02T09:30:00+00:00" (Some "PayPal").

(** A world in UTC whose download returns [e1], [undated], [later]. *)
Definition jumbled : Env := world 0 (clean "https://a.com") ∅ (VArray [e1; undated; later]).

End Demo.

(* ================================================================== *)
(** * Properties: vocabulary *)
(* ================================================================== *)

(** The delay a batch uses between two urls, as the specification has it:
    the argument clamped to [500, 10000], 1000 when there is none. *)
Definition clamped_delay (delay : option Z) : Z :=
  match delay with
  | None => 1000
  | Some d => Z.max 500 (Z.min d 10000)
  end.

(** ... and as the handler has it: 1000 when there is none or it is 0, and
    otherwise the argument raised to 500 if it is less. *)
Definition raised_delay (delay : option Z) : Z :=
  match delay with
  | None => 1000
  | Some d => if d =? 0 then 1000 else Z.max d 500
  end.

(** The request [checkUrl] sends for the url [u] and the format [f]. *)
Definition check_request (env : Env) (u f : string) : HttpRequest :=
  {| rq_method := POST;
     rq_url := "http://checkurl.phishtank.com/checkurl/";
     rq_form := [("url", u); ("format", f)]
                ++ (if has_apiKey env then [("app_key", default "" (apiKey (config env)))]
                    else []);
     rq_headers := default_headers env
                   ++ [("Content-Type", "application/x-www-form-urlencoded")] |}.

(** The header [name] is there and is not the empty string. *)
Definition header_given (hs : gmap string string) (name : string) : Prop :=
  exists value, hs !! name = Some value /\ value <> "".

(** The text of the header [name], empty when there is none. *)
Definition header (hs : gmap string string) (name : string) : string :=
  default "" (hs !! name).

(** Two answers of [checkUrl] that are equal but for the [cached]
    marker. *)
Definition same_but_cached (e1 e2 : UrlCheckEnvelope) : Prop :=
  uc_result e1 = uc_result e2
  /\ uc_rate_limit_info e1 = uc_rate_limit_info e2
  /\ uc_summary e1 = uc_summary e2.

(** Two calls of [checkUrl] in a row with the same argument, as the
    specification has them: both answer, one request goes out, the second
    answer is marked as cached and passes the throttle by, and the two
    answers are equal but for the marker. *)
Definition second_call_is_hit (env : Env) (args : CheckUrlArgs) (s : State) : Prop :=
  exists e1 s1 e2 s2,
    checkUrl env args s = (Return e1, s1)
    /\ checkUrl env args s1 = (Return e2, s2)
    /\ length (requests s2) = S (length (requests s))
    /\ uc_cached e2 = Some true
    /\ permits s2 = permits s1
    /\ same_but_cached e1 e2.

(** [needle] occurs in [hay], letter case aside. *)
Definition contains_ci (hay needle : string) : bool :=
  Js.includes (Js.toLowerCase hay) (Js.toLowerCase needle).

(** The entries a search for [query] is after: those with a target that
    contains the query, letter case aside, and verified unless
    [verified_only] is given as false. *)
Definition wanted (query : string) (verified_only : option bool)
           (entry : PhishTankEntry) : bool :=
  match target entry with
  | Some brand => contains_ci brand query
  | None => false
  end
  && (bool_decide (verified_only = Some false) || bool_decide (verified entry = "yes")).

(** What a handler answered, if it answered. *)
Definition answer {A} (r : Outcome A * State) : option A :=
  match r.1 with Return a => Some a | Throw _ => None end.

(** The interval the throttle enforces. *)
Definition minInterval (env : Env) : Z := 60000 / rateLimitMax (config env).

(** The entries [getRecentPhish] keeps before sorting. *)
Definition recent_candidates (include_offline : option bool)
           (l : list PhishTankEntry) : list PhishTankEntry :=
  if default false include_offline then l
  else List.filter (fun entry => bool_decide (online entry = "yes")) l.

(** The test [searchPhishByDate] applies to an entry, for the bounds it
    computed. *)
Definition in_range (env : Env) (start end' : option Z) (entry : PhishTankEntry) : bool :=
  Js.ge (submitted env entry) start && Js.le (submitted env entry) end'.

(** The test [searchPhishByTarget] applies to an entry, for the query and
    the flag it computed. *)
Definition target_matches (query : string) (verifiedOnly : bool)
           (entry : PhishTankEntry) : bool :=
  match target entry with
  | Some brand => Js.includes (Js.toLowerCase brand) query
  | None => false
  end
  && (negb verifiedOnly || bool_decide (verified entry = "yes")).

(** [key] is what the comparator [cmp] compares by, greatest first, on the
    elements of [l]. *)
Definition compares_by {A} (cmp : A -> A -> option Z) (key : A -> Z) (l : list A) : Prop :=
  forall a b, a ∈ l -> b ∈ l -> cmp a b = Some (key b - key a).

(** The targets of the entries submitted at or after [cutoff], with the
    number of these entries for each, the most frequent first: what
    [getPhishStats] cuts its list of top targets from. *)
Definition ranked_targets (env : Env) (cutoff : Z) (entries : list PhishTankEntry)
  : list (string * Z) :=
  Js.sort (fun a b => Some (snd b - snd a))
    (fold_left (fun m entry =>
                  if Js.truthy_string (default "" (target entry))
                  then count_target (default "" (target entry)) m
                  else m)
       (List.filter (fun entry => Js.ge (submitted env entry) (Some cutoff)) entries)
       []).

(** The request [downloadDatabase] sends. *)
Definition database_request (env : Env) : HttpRequest :=
  {| rq_method := GET;
     rq_url := match PHISHTANK_API_KEY env with
               | Some (String c k) =>
                   "http://data.phishtank.com/data/" +:+ String c k +:+ "/online-valid.json"
               | _ => "http://data.phishtank.com/data/online-valid.json"
               end;
     rq_form := [];
     rq_headers := default_headers env |}.

(** The entries of a response body: the body when it is a list, no entries
    otherwise. *)
Definition entries_of_body (body : Value) : list PhishTankEntry :=
  match body with
  | VArray l => l
  | VObject _ | VText _ | VNull | VBool _ | VNumber _ | VDatabase _ => []
  end.

(** The cache key [checkUrl] derives from its argument. *)
Definition url_check_key (args : CheckUrlArgs) : string :=
  "url_check:" +:+ Js.trim (Js.or_string (cu_url args) "").

(** [spaced d l]: in a history [l] of time stamps, latest first, each stamp
    lies at least [d] after the one before it. *)
Fixpoint spaced (d : Z) (l : list Z) : Prop :=
  match l with
  | b :: (a :: _) as r => d <= b - a /\ spaced d r
  | _ => True
  end.

(** The state of the throttle is in order: the last assignment to
    [lastRequestTime] is its current value and does not lie in the future,
    and the assignments so far are spaced. *)
Definition throttle_ok (d : Z) (s : State) : Prop :=
  match permits s with
  | [] => True
  | p :: _ => p = lastRequestTime s /\ p <= clock s
  end /\ spaced d (permits s).

(** [keeps R m]: whether [m] returns or throws, the state it leaves is
    related by [R] to the state it was started in. *)
Definition keeps {A} (R : relation State) (m : M A) : Prop :=
  forall s, R s (m s).2.

(** Relations between the state before and after that the passing of time
    and the sending of requests do not break. *)
Class WorldFrame (R : relation State) := {
  wf_preorder :: PreOrder R;
  wf_advance s d : 0 <= d -> R s (advance d s);
  wf_tick s : R s (next_tick s);
  wf_request s rq : R s (log_request rq s)
}.

(** ... that changes to the cache entry of [key] do not break. *)
Class CacheFrame (R : relation State) (key : string) := {
  cf_delete s : R s (set_cache (delete key) s);
  cf_insert s rec : R s (set_cache (insert key rec) s);
  cf_alter s f : R s (set_cache (alter f key) s)
}.

(** ... that the changes the handlers make to the entry of the database
    key do not break: expiry, a fresh snapshot, a snapshot sorted in
    place. *)
Class DatabaseFrame (R : relation State) := {
  df_delete s : R s (set_cache (delete "phishtank_database") s);
  df_insert s t d :
    R s (set_cache (insert "phishtank_database" {| t := t; v := VDatabase d |}) s);
  df_sorted s l : R s (set_cache (alter (with_entries l) "phishtank_database") s)
}.

(** ... that assignments to [lastRequestTime] do not break. *)
Class ThrottleFrame (R : relation State) :=
  tf_assign s x : R s (set_lastRequestTime x s).

(** ... that waits of kind [w] do not break. *)
Class TimerFrame (R : relation State) (w : Wait) :=
  tf_timer s d : R s (log_timer w d s).

(** The throttle is left alone: no assignment to [lastRequestTime], no wait
    for a timer. *)
Definition throttle_untouched : relation State :=
  fun s s' => lastRequestTime s' = lastRequestTime s
              /\ permits s' = permits s
              /\ timers s' = timers s.

(** The invariant of the throttle is passed on. *)
Definition throttle_kept (d : Z) : relation State :=
  fun s s' => throttle_ok d s -> throttle_ok d s'.

Definition is_pacing (w : Wait * Z) : bool :=
  match w.1 with PacingWait => true | ThrottleWait => false end.

(** No pacing wait is added. *)
Definition pacing_untouched : relation State :=
  fun s s' => List.filter is_pacing (timers s') = List.filter is_pacing (timers s).

(** The cache entries other than that of [key] are left alone. *)
Definition others_untouched (key : string) : relation State :=
  fun s s' => forall k, k <> key -> cache s' !! k = cache s !! k.

(** Under the database key the cache holds snapshot objects only. *)
Definition database_key_ok (s : State) : Prop :=
  forall rec, cache s !! "phishtank_database" = Some rec -> exists d, v rec = VDatabase d.

Definition database_key_kept : relation State :=
  fun s s' => database_key_ok s -> database_key_ok s'.

(* ================================================================== *)
(** * Further properties: vocabulary *)
(* ================================================================== *)

(** [raises P m]: when [m] throws, the error and the state it leaves
    satisfy [P]. *)
Definition raises {A} (P : Error -> State -> Prop) (m : M A) : Prop :=
  forall s e s', m s = (Throw e, s') -> P e s'.

(** The error is the rejection, by upstream, of the request sent last. *)
Definition rejected_upstream (env : Env) (e : Error) (s' : State) : Prop :=
  match e with
  | AxiosError st b msg =>
      exists rq rest,
        requests s' = rq :: rest
        /\ upstream env (length rest) rq = Rejected st b msg
  | McpError _ _ | TypeError _ => False
  end.

(** The error is the [TypeError] of a check whose request, the one sent
    last, upstream answered with the body [null]. *)
Definition null_answered (env : Env) (e : Error) (s' : State) : Prop :=
  match e with
  | TypeError _ =>
      exists rq rest r,
        requests s' = rq :: rest
        /\ upstream env (length rest) rq = Responded r
        /\ data r = VNull
  | McpError _ _ | AxiosError _ _ _ => False
  end.

(** The text of the tool result the request handler makes of a rejection. *)
Definition rejection_text (st : option Z) (b : option string) (msg : string) : string :=
  if decide (st = Some 509) then
    "Rate limit exceeded. Please try again later. Consider using an API key for higher limits."
  else "PhishTank API error (" +:+ show_status st +:+ "): " +:+ Js.or_string b msg.

(** The five tools that read the database. *)
Definition reads_database (call : ToolCall) : Prop :=
  match call with
  | get_recent_phish _ | search_phish_by_target _ | get_phish_details _
  | get_phish_stats _ | search_phish_by_date _ => True
  | _ => False
  end.

(** The cache holds a snapshot that the next look into the cache finds. *)
Definition snapshot_live (env : Env) (s : State) : Prop :=
  exists rec d,
    cache s !! "phishtank_database" = Some rec
    /\ v rec = VDatabase d
    /\ (t rec = 0 \/ clock s + Z.of_N (lag env (ticks s)) <= t rec).

(** The clock does not run backwards. *)
Definition clock_forward : relation State :=
  fun s s' => clock s <= clock s'.

(** The waits of the throttle so far are between 1 and [d], and
    [lastRequestTime] does not lie in the future. *)
Definition throttle_waits_ok (d : Z) (s : State) : Prop :=
  lastRequestTime s <= clock s
  /\ Forall (fun w => w.1 = ThrottleWait -> 1 <= w.2 <= d) (timers s).

Definition throttle_waits_kept (d : Z) : relation State :=
  fun s s' => throttle_waits_ok d s -> throttle_waits_ok d s'.

(** The sum of the counts of a tally. *)
Definition tally_total (m : list (string * Z)) : Z :=
  fold_right (fun kn acc => kn.2 + acc) 0 m.

(** The number of entries with a target that is not empty. *)
Definition with_target (l : list PhishTankEntry) : Z :=
  Z.of_nat (length (List.filter (fun entry => Js.truthy_string (default "" (target entry))) l)).

(** The tally [getPhishStats] makes of the targets of [l]. *)
Definition tally (l : list PhishTankEntry) : list (string * Z) :=
  fold_left (fun m entry =>
               if Js.truthy_string (default "" (target entry))
               then count_target (default "" (target entry)) m
               else m)
    l [].

(** A tally names each target once, names no empty target, and counts at
    least one entry for each. *)
Definition tally_ok (m : list (string * Z)) : Prop :=
  NoDup (m.*1) /\ Forall (fun kn => kn.1 <> "" /\ 1 <= kn.2) m.

(** The number of entries of [l] that name the target [k]. *)
Definition named (k : string) (l : list PhishTankEntry) : Z :=
  Z.of_nat (length (List.filter (fun entry => bool_decide (target entry = Some k)) l)).

(** The year a date string begins with is above 31.  The parser of V8 for
    other formats, to which a string of the form [YYYY-MM-DD] falls when its
    month or day is out of range, reads three numbers as month, day and year
    when the first can be a day of a month; a year above 31 cannot. *)
Definition year_above_31 (s : string) : Prop :=
  exists y rest, Js.read_digits 4 0 s = Some (y, rest) /\ 31 < y.

(** The entries of a snapshot submitted at or after the cutoff of
    [getPhishStats]: [days] times 24 hours before [now].  There is no upper
    bound: an entry dated after [now] is one of them. *)
Definition submitted_since (env : Env) (now days : Z) (db : Value) : list PhishTankEntry :=
  List.filter (fun entry => Js.ge (submitted env entry) (Some (Js.minusDays now days)))
    (entries_of db).

(** The tally [m] counts the entries of [l] by target. *)
Definition counts_of (l : list PhishTankEntry) (m : list (string * Z)) : Prop :=
  tally_ok m
  /\ (forall k n, (k, n) ∈ m -> n = named k l)
  /\ (forall k, k <> "" -> k ∉ m.*1 -> named k l = 0).

(** The sum of the counts of the targets reported. *)
Definition top_total (l : list TopTarget) : Z :=
  fold_right (fun tt acc => tt_count tt + acc) 0 l.

(** [sent P s s']: from [s] to [s'] requests were sent, or none, and each
    of them satisfies [P]. *)
Definition sent (P : HttpRequest -> Prop) : relation State :=
  fun s s' => exists new, requests s' = new ++ requests s /\ Forall P new.

(** The two requests of the server: the download of the database, and the
    check of a URL that is trimmed, not empty and well formed. *)
Definition to_phishtank (env : Env) (rq : HttpRequest) : Prop :=
  rq = database_request env
  \/ exists raw format,
       rq = check_request env (Js.trim raw) format
       /\ Js.trim raw <> ""
       /\ isValidUrl env (Js.trim raw) = true.

(** The API key is in the form of a request only when one is configured,
    and is that one. *)
Definition key_as_configured (env : Env) (rq : HttpRequest) : Prop :=
  forall key, ("app_key", key) ∈ rq_form rq -> PHISHTANK_API_KEY env = Some key /\ key <> "".

(** What is known of an error thrown by a handler that makes no summary:
    an invalid argument is found before anything is done, and a failure of a
    request is the rejection of the request sent last. *)
Definition thrown_well (env : Env) (s : State) (e : Error) (s' : State) : Prop :=
  match e with
  | McpError _ _ => s' = s
  | AxiosError _ _ _ => rejected_upstream env e s'
  | TypeError _ => False
  end.

(** An item of a batch is a success with its answer or a failure with its
    message. *)
Definition item_well_formed (item : BatchItem) : Prop :=
  (b_success item = true /\ is_Some (b_data item) /\ b_error item = None)
  \/ (b_success item = false /\ b_data item = None /\ is_Some (b_error item)).

(** ** Worlds in which upstream fails or time runs fast *)

Module Outage.

(** A world in which upstream answers every request with status 509. *)
Definition limited : Env :=
  {| PHISHTANK_API_KEY := None;
     PHISHTANK_USER_AGENT := None;
     LocalTZA := 0;
     URL_parses := fun u => String.prefix "http://" u || String.prefix "https://" u;
     upstream := fun _ _ => Rejected (Some 509) None "Request failed with status code 509";
     lag := fun _ => 0%N |}.

(** A world where every clock reading comes an hour and a second after the
    one before. *)
Definition slow : Env :=
  {| PHISHTANK_API_KEY := None;
     PHISHTANK_USER_AGENT := None;
     LocalTZA := 0;
     URL_parses := fun u => String.prefix "http://" u || String.prefix "https://" u;
     upstream := upstream Demo.plain;
     lag := fun _ => 3601000%N |}.

(** A world in which upstream answers every check with the body [null]. *)
Definition null_body : Env := Demo.world 0 VNull ∅ (VArray []).

End Outage.

(* ================================================================== *)
(** * Properties: the monad and the primitives *)
(* ================================================================== *)

Section Keeps.

Context (R : relation State) `{!PreOrder R}.

Lemma keeps_ret {A} (a : A) : keeps R (ret a).
Proof. intros s. reflexivity. Qed.

Lemma keeps_throw {A} e : keeps R (@throw A e).
Proof. intros s. reflexivity. Qed.

Lemma keeps_gets {A} (f : State -> A) : keeps R (gets f).
Proof. intros s. reflexivity. Qed.

Lemma keeps_eval {A} (o : Outcome A) : keeps R (eval o).
Proof. intros s. reflexivity. Qed.

Lemma keeps_modify f : (forall s, R s (f s)) -> keeps R (modify f).
Proof. intros H s. apply H. Qed.

Lemma keeps_bind {A B} (m : M A) (k : A -> M B) :
  keeps R m -> (forall a, keeps R (k a)) -> keeps R (bind m k).
Proof.
  intros Hm Hk s. unfold bind. specialize (Hm s).
  destruct (m s) as [[a|e] s1]; simpl in *.
  - etransitivity; [exact Hm | apply Hk].
  - exact Hm.
Qed.

Lemma keeps_try_catch {A} (m : M A) (h : Error -> M A) :
  keeps R m -> (forall e, keeps R (h e)) -> keeps R (try_catch m h).
Proof.
  intros Hm Hh s. unfold try_catch. specialize (Hm s).
  destruct (m s) as [[a|e] s1]; simpl in *.
  - exact Hm.
  - etransitivity; [exact Hm | apply Hh].
Qed.

End Keeps.

(** Splits a [keeps] goal along the structure of the handler, down to the
    primitives. *)
Ltac keeps_side :=
  lazymatch goal with
  | |- PreOrder _ => apply _
  | _ => idtac
  end.

Ltac keeps_step :=
  lazymatch goal with
  | |- keeps _ (ret _) => apply keeps_ret; keeps_side
  | |- keeps _ (throw _) => apply keeps_throw; keeps_side
  | |- keeps _ (gets _) => apply keeps_gets; keeps_side
  | |- keeps _ (eval _) => apply keeps_eval; keeps_side
  | |- keeps _ (bind _ _) => apply keeps_bind; keeps_side; [ | intros ? ]
  | |- keeps _ (try_catch _ _) => apply keeps_try_catch; keeps_side; [ | intros ? ]
  | |- keeps _ (if ?b then _ else _) => destruct b
  | |- keeps _ (match ?x with _ => _ end) => destruct x
  end.

Ltac keeps_tac := repeat keeps_step.

Section Primitives.

Context (env : Env) (R : relation State) `{!WorldFrame R}.

Lemma keeps_elapse : keeps R (elapse env).
Proof.
  apply keeps_modify; keeps_side. intros s.
  etransitivity; [apply (wf_advance s (Z.of_N (lag env (ticks s)))); lia | apply wf_tick].
Qed.

Lemma keeps_Date_now : keeps R (Date_now env).
Proof. unfold Date_now. keeps_tac. apply keeps_elapse. Qed.

Lemma timer_delay_pos d : 0 < Js.timer_delay d.
Proof.
  unfold Js.timer_delay.
  destruct (1 <=? d) eqn:E1; simpl; [|lia].
  destruct (d <=? Js.TIMEOUT_MAX); lia.
Qed.

Lemma keeps_sleep w d `{!TimerFrame R w} : keeps R (sleep env w d).
Proof.
  unfold sleep. keeps_tac; [|apply keeps_elapse].
  apply keeps_modify; keeps_side. intros s.
  etransitivity; [apply (tf_timer s d)|].
  apply wf_advance. pose proof (timer_delay_pos d). lia.
Qed.

Lemma keeps_http rq : keeps R (http env rq).
Proof.
  unfold http. keeps_tac.
  - apply keeps_modify; keeps_side. intros s. apply wf_request.
  - apply keeps_elapse.
Qed.

Lemma keeps_cache_get key `{!CacheFrame R key} : keeps R (cache_get env key).
Proof.
  unfold cache_get. keeps_tac; try apply keeps_Date_now.
  apply keeps_modify; keeps_side. intros s. apply cf_delete.
Qed.

Lemma keeps_cache_set key val ttl `{!CacheFrame R key} :
  keeps R (cache_set env key val ttl).
Proof.
  unfold cache_set. keeps_tac; try apply keeps_Date_now.
  apply keeps_modify; keeps_side. intros s. apply cf_insert.
Qed.

Lemma keeps_downloadDatabase : keeps R (downloadDatabase env).
Proof. unfold downloadDatabase. keeps_tac. apply keeps_http. Qed.

End Primitives.

(** Closes the goals [keeps_tac] stops at: the primitives, and the frame
    conditions they need. *)
Ltac keeps_prim :=
  lazymatch goal with
  | |- keeps _ (elapse _) => apply keeps_elapse
  | |- keeps _ (Date_now _) => apply keeps_Date_now
  | |- keeps _ (sleep _ _ _) => apply keeps_sleep
  | |- keeps _ (http _ _) => apply keeps_http
  | |- keeps _ (cache_get _ _) => apply keeps_cache_get
  | |- keeps _ (cache_set _ _ _ _) => apply keeps_cache_set
  | |- keeps _ (downloadDatabase _) => apply keeps_downloadDatabase
  | _ => idtac
  end;
  try (solve [apply _ | assumption]).

Ltac keeps_auto := keeps_tac; keeps_prim.


(* ================================================================== *)
(** * Properties: the handlers, relation by relation *)
(* ================================================================== *)

Section Handlers.

Context (env : Env) (R : relation State) `{!WorldFrame R}.

Lemma keeps_enforceRateLimit `{!TimerFrame R ThrottleWait} `{!ThrottleFrame R} :
  keeps R (enforceRateLimit env).
Proof.
  unfold enforceRateLimit. keeps_auto.
  apply keeps_modify; keeps_side. intros s. apply tf_assign.
Qed.

Lemma keeps_cachedDatabase `{!DatabaseFrame R} : keeps R (cachedDatabase env).
Proof.
  unfold cachedDatabase, cache_get, cache_set.
  keeps_auto; apply keeps_modify; keeps_side; intros s;
    first [apply df_delete | apply df_insert].
Qed.

Section CheckUrl.

Context (Hthrottle : keeps R (enforceRateLimit env)).

Lemma keeps_checkUrl_miss u f key `{!CacheFrame R key} :
  keeps R (checkUrl_miss env u f key).
Proof. unfold checkUrl_miss. keeps_auto. Qed.

Lemma keeps_checkUrl args `{!CacheFrame R (url_check_key args)} :
  keeps R (checkUrl env args).
Proof.
  unfold checkUrl. fold (url_check_key args).
  keeps_auto; apply keeps_checkUrl_miss; apply _.
Qed.

Context (Hcache : forall u, CacheFrame R ("url_check:" +:+ u))
        `{!TimerFrame R PacingWait}.

Lemma keeps_checkEach delay urls : keeps R (checkEach env delay urls).
Proof.
  induction urls as [|u rest IH]; simpl; keeps_auto.
  apply keeps_checkUrl. apply Hcache.
Qed.

Lemma keeps_checkMultipleUrls args : keeps R (checkMultipleUrls env args).
Proof. unfold checkMultipleUrls. keeps_auto. apply keeps_checkEach. Qed.

End CheckUrl.

Section Database.

Context `{!DatabaseFrame R}.

Lemma keeps_getRecentPhish args : keeps R (getRecentPhish env args).
Proof.
  unfold getRecentPhish. keeps_auto; try apply keeps_cachedDatabase.
  apply keeps_modify; keeps_side. intros s. apply df_sorted.
Qed.

Lemma keeps_searchPhishByTarget args : keeps R (searchPhishByTarget env args).
Proof. unfold searchPhishByTarget. keeps_auto. apply keeps_cachedDatabase. Qed.

Lemma keeps_getPhishDetails args : keeps R (getPhishDetails env args).
Proof. unfold getPhishDetails. keeps_auto. apply keeps_cachedDatabase. Qed.

Lemma keeps_getPhishStats args : keeps R (getPhishStats env args).
Proof. unfold getPhishStats. keeps_auto. apply keeps_cachedDatabase. Qed.

Lemma keeps_searchPhishByDate args : keeps R (searchPhishByDate env args).
Proof. unfold searchPhishByDate. keeps_auto. apply keeps_cachedDatabase. Qed.

End Database.

Section Serve.

Context (Hthrottle : keeps R (enforceRateLimit env))
        (Hcache : forall u, CacheFrame R ("url_check:" +:+ u))
        `{!TimerFrame R PacingWait} `{!DatabaseFrame R}.

Lemma keeps_dispatch call : keeps R (dispatch env call).
Proof.
  destruct call; simpl; keeps_auto;
    first [ apply keeps_checkUrl | apply keeps_checkMultipleUrls
          | apply keeps_getRecentPhish | apply keeps_searchPhishByTarget
          | apply keeps_getPhishDetails | apply keeps_getPhishStats
          | apply keeps_searchPhishByDate ];
    try assumption; try apply _; apply Hcache.
Qed.

Lemma keeps_callTool call : keeps R (callTool env call).
Proof. unfold callTool. keeps_auto. apply keeps_dispatch. Qed.

Lemma keeps_serve calls : keeps R (serve env calls).
Proof.
  induction calls as [|c rest IH]; simpl; keeps_auto.
  apply keeps_callTool.
Qed.

End Serve.

End Handlers.

(* ================================================================== *)
(** * Properties: the throttle *)
(* ================================================================== *)

Section Throttle.

Context (env : Env).

Global Instance throttle_untouched_preorder : PreOrder throttle_untouched.
Proof.
  split.
  - intros s. repeat split.
  - intros s1 s2 s3 (H1 & H2 & H3) (H4 & H5 & H6). repeat split; congruence.
Qed.

Global Instance throttle_untouched_world : WorldFrame throttle_untouched.
Proof. split; [apply _ | intros; repeat split ..]. Qed.

Global Instance throttle_untouched_database : DatabaseFrame throttle_untouched.
Proof. split; intros; repeat split. Qed.

Global Instance throttle_kept_preorder d : PreOrder (throttle_kept d).
Proof. split; unfold throttle_kept; [intros s | intros s1 s2 s3]; tauto. Qed.

Global Instance throttle_kept_world d : WorldFrame (throttle_kept d).
Proof.
  split; [apply _ | intros s x Hx | intros s | intros s rq];
    unfold throttle_kept, throttle_ok; simpl; try tauto.
  intros [H1 H2]. split; [|exact H2].
  destruct (permits s); [exact I|]. destruct H1. split; [assumption | lia].
Qed.

Global Instance throttle_kept_cache d key : CacheFrame (throttle_kept d) key.
Proof. split; intros; unfold throttle_kept, throttle_ok; simpl; tauto. Qed.

Global Instance throttle_kept_database d : DatabaseFrame (throttle_kept d).
Proof. split; intros; unfold throttle_kept, throttle_ok; simpl; tauto. Qed.

Global Instance throttle_kept_timer d w : TimerFrame (throttle_kept d) w.
Proof. intros s x. unfold throttle_kept, throttle_ok; simpl; tauto. Qed.

Lemma minInterval_tiers :
  (minInterval env) = match PHISHTANK_API_KEY env with
                | Some (String _ _) => 600
                | _ => 6000
                end.
Proof.
  unfold minInterval, config; simpl.
  destruct (PHISHTANK_API_KEY env) as [[|c k]|]; reflexivity.
Qed.

Lemma minInterval_range : 1 <= (minInterval env) <= Js.TIMEOUT_MAX.
Proof.
  rewrite minInterval_tiers. unfold Js.TIMEOUT_MAX.
  destruct (PHISHTANK_API_KEY env) as [[|c k]|]; lia.
Qed.

(** One pass through the throttle keeps its invariant: the new stamp lies
    at least [minInterval] after the previous one. *)
Lemma enforceRateLimit_kept : keeps (throttle_kept (minInterval env)) (enforceRateLimit env).
Proof.
  intros s [Hhead Hspaced].
  pose proof minInterval_range as Hd. fold (minInterval env) in *.
  unfold enforceRateLimit, Date_now, sleep, elapse, bind, gets, modify, ret.
  fold (minInterval env).
  set (l1 := Z.of_N (lag env (ticks s))).
  assert (0 <= l1) by (unfold l1; lia).
  cbn [fst snd clock lastRequestTime advance next_tick ticks].
  destruct (clock s + l1 - lastRequestTime s <? (minInterval env)) eqn:Hwait.
  - cbn. unfold throttle_ok. cbn.
    split; [split; [reflexivity | lia]|].
    destruct (permits s) as [|p ps] eqn:Hp; [exact I|].
    destruct Hhead as [-> Hle]. split; [|exact Hspaced].
    apply Z.ltb_lt in Hwait.
    unfold Js.timer_delay.
    destruct (1 <=? (minInterval env) - (clock s + l1 - lastRequestTime s)) eqn:E1;
      [|apply Z.leb_gt in E1; lia].
    destruct ((minInterval env) - (clock s + l1 - lastRequestTime s) <=? Js.TIMEOUT_MAX) eqn:E2;
      [|apply Z.leb_gt in E2; lia].
    cbn. lia.
  - cbn. unfold throttle_ok. cbn.
    split; [split; [reflexivity | lia]|].
    destruct (permits s) as [|p ps] eqn:Hp; [exact I|].
    destruct Hhead as [-> Hle]. split; [|exact Hspaced].
    apply Z.ltb_ge in Hwait. lia.
Qed.

Lemma serve_throttle_ok t0 calls :
  throttle_ok (minInterval env) (serve env calls (initial t0)).2.
Proof.
  apply (keeps_serve env (throttle_kept (minInterval env))); try apply _.
  - apply enforceRateLimit_kept.
  - split; exact I.
Qed.

Lemma spaced_lookup d l i a b :
  spaced d l -> l !! S i = Some a -> l !! i = Some b -> d <= b - a.
Proof.
  revert l. induction i as [|i IH]; intros [|x [|y r]] Hs Ha Hb;
    simpl in *; try discriminate; destruct Hs as [Hxy Hr].
  - congruence.
  - apply (IH (y :: r)); assumption.
Qed.

End Throttle.

(** C1.  Whatever requests the server handles, in whatever world, any two
    consecutive values recorded in [lastRequestTime] lie at least
    [60000 / requests_per_minute] milliseconds apart, with 10 requests per
    minute when no API key is configured and 100 when one is.  The clock is
    taken not to run backwards and a timer not to fire early. *)
Theorem throttle_spacing (env : Env) (t0 : Z) (calls : list ToolCall) (i : nat) (a b : Z) :
  permits (serve env calls (initial t0)).2 !! S i = Some a ->
  permits (serve env calls (initial t0)).2 !! i = Some b ->
  60000 / (match PHISHTANK_API_KEY env with Some (String _ _) => 100 | _ => 10 end)
  <= b - a.
Proof.
  intros Ha Hb.
  destruct (serve_throttle_ok env t0 calls) as [_ Hs].
  pose proof (spaced_lookup _ _ _ _ _ Hs Ha Hb) as H.
  rewrite minInterval_tiers in H.
  destruct (PHISHTANK_API_KEY env) as [[|c k]|]; exact H.
Qed.

Lemma throttle_spacing_witness :
  60000 / 10 <= (Demo.t0 + 6000) - Demo.t0.
Proof.
  apply (throttle_spacing (Demo.world 0 (Demo.clean "u") ∅ (VArray [])) Demo.t0
           [check_url Demo.a_com; check_url Demo.b_com] 0 Demo.t0 (Demo.t0 + 6000));
    vm_compute; reflexivity.
Defined.

(** C6.  The download never passes through the throttle: it assigns nothing
    to [lastRequestTime] and waits for no timer, and so does each of the five
    tools that read the database, download included. *)
Theorem download_unthrottled (env : Env) (s : State) :
  throttle_untouched s (downloadDatabase env s).2
  /\ (forall args, throttle_untouched s (getRecentPhish env args s).2)
  /\ (forall args, throttle_untouched s (searchPhishByTarget env args s).2)
  /\ (forall args, throttle_untouched s (getPhishDetails env args s).2)
  /\ (forall args, throttle_untouched s (searchPhishByDate env args s).2)
  /\ (forall args, throttle_untouched s (getPhishStats env args s).2).
Proof.
  split; [apply (keeps_downloadDatabase env throttle_untouched)|].
  split; [intros; apply (keeps_getRecentPhish env throttle_untouched)|].
  split; [intros; apply (keeps_searchPhishByTarget env throttle_untouched)|].
  split; [intros; apply (keeps_getPhishDetails env throttle_untouched)|].
  split; [intros; apply (keeps_searchPhishByDate env throttle_untouched)|].
  intros; apply (keeps_getPhishStats env throttle_untouched).
Qed.

(* ================================================================== *)
(** * Properties: the database and the tools that read it *)
(* ================================================================== *)

Lemma bind_returns {A B} (m : M A) (k : A -> M B) s a s1 :
  m s = (Return a, s1) -> bind m k s = k a s1.
Proof. intros H. unfold bind. rewrite H. reflexivity. Qed.

Lemma bind_throws {A B} (m : M A) (k : A -> M B) s e s1 :
  m s = (Throw e, s1) -> bind m k s = (Throw e, s1).
Proof. intros H. unfold bind. rewrite H. reflexivity. Qed.

Lemma downloadDatabase_request (env : Env) :
  {| rq_method := GET;
     rq_url := if has_apiKey env
               then "http://data.phishtank.com/data" +:+ "/"
                    +:+ default "" (apiKey (config env)) +:+ "/" +:+ "online-valid.json"
               else "http://data.phishtank.com/data" +:+ "/" +:+ "online-valid.json";
     rq_form := [];
     rq_headers := default_headers env |} = database_request env.
Proof.
  unfold database_request, has_apiKey, config; simpl.
  destruct (PHISHTANK_API_KEY env) as [[|c k]|]; reflexivity.
Qed.

(** C5.  The download sends one request.  When upstream answers with a
    body, whatever its shape, the download returns a snapshot: its entries
    are the body when the body is a list and the empty list otherwise, and
    [total_entries] is the number of these entries.  The only failure is
    that of the request itself. *)
Theorem downloadDatabase_snapshot (env : Env) (s : State) :
  requests (downloadDatabase env s).2 = database_request env :: requests s
  /\ match upstream env (length (requests s)) (database_request env) with
     | Responded r =>
         (downloadDatabase env s).1
         = Return {| db_meta :=
                       Some {| total_entries :=
                                 Z.of_nat (length (entries_of_body (data r))) |};
                     db_entries := Some (entries_of_body (data r)) |}
     | Rejected st b m =>
         (downloadDatabase env s).1 = Throw (AxiosError st b m)
     end.
Proof.
  unfold downloadDatabase. rewrite downloadDatabase_request.
  unfold http, bind, gets, modify, elapse, ret, throw; simpl.
  destruct (upstream env (length (requests s)) (database_request env)) as [r|st b m];
    simpl; split; reflexivity.
Qed.

Lemma getRecentPhish_entries (env : Env) args s db s1 :
  cachedDatabase env s = (Return db, s1) ->
  rp_entries <$> answer (getRecentPhish env args s)
  = Some (Js.slice0 (Js.sort (newest_first env)
                       (recent_candidates (rp_include_offline args) (entries_of db)))
            (Z.min (Js.or_number (rp_limit args) 100) 1000)).
Proof.
  intros H. unfold answer, getRecentPhish, recent_candidates.
  rewrite (bind_returns _ _ _ _ _ H).
  destruct (default false (rp_include_offline args)); reflexivity.
Qed.

Lemma searchPhishByDate_entries (env : Env) args s db s1 startDate endDate :
  sd_start_date args = Some startDate ->
  sd_end_date args = Some endDate ->
  Js.dateRegex_test startDate = true ->
  Js.dateRegex_test endDate = true ->
  Js.gt (Js.Date_parse (LocalTZA env) startDate)
        (Js.setHours (LocalTZA env) (Js.Date_parse (LocalTZA env) endDate) 23 59 59 999)
  = false ->
  cachedDatabase env s = (Return db, s1) ->
  sd_entries <$> answer (searchPhishByDate env args s)
  = Some (Js.slice0
            (Js.sort (newest_first env)
               (List.filter
                  (in_range env (Js.Date_parse (LocalTZA env) startDate)
                     (Js.setHours (LocalTZA env)
                        (Js.Date_parse (LocalTZA env) endDate) 23 59 59 999))
                  (entries_of db)))
            (Z.min (Js.or_number (sd_limit args) 100) 500)).
Proof.
  intros Hs He Rs Re Hgt H. unfold answer, searchPhishByDate.
  rewrite Hs, He. cbv zeta. cbn [default from_option id].
  assert (Js.truthy_string startDate = true) as ->
      by (destruct startDate; [discriminate Rs | reflexivity]).
  assert (Js.truthy_string endDate = true) as ->
      by (destruct endDate; [discriminate Re | reflexivity]).
  rewrite Rs, Re, Hgt. cbn [negb orb].
  rewrite (bind_returns _ _ _ _ _ H). reflexivity.
Qed.

Lemma searchPhishByTarget_entries (env : Env) args s db s1 :
  Js.trim (Js.or_string (st_target args) "") <> "" ->
  cachedDatabase env s = (Return db, s1) ->
  st_entries <$> answer (searchPhishByTarget env args s)
  = Some (Js.slice0
            (Js.sort (newest_first env)
               (List.filter
                  (target_matches
                     (Js.toLowerCase (Js.trim (Js.or_string (st_target args) "")))
                     (negb (bool_decide (st_verified_only args = Some false))))
                  (entries_of db)))
            (Z.min (Js.or_number (st_limit args) 50) 500)).
Proof.
  intros Hq H. unfold answer, searchPhishByTarget.
  destruct (Js.trim (Js.or_string (st_target args) "")) as [|c q] eqn:E; [done|].
  cbn [Js.toLowerCase Js.truthy_string negb].
  rewrite (bind_returns _ _ _ _ _ H). cbn.
  f_equal. f_equal. f_equal. apply filter_ext. intros entry.
  unfold target_matches. destruct (target entry); reflexivity.
Qed.

(** C10.  A numeric argument given as 0 is treated as if it had been left
    out, in every tool that has one: the handler behaves the same, and so
    uses the default (limit 100 or 50, 7 days, 10 top targets, delay 1000).
    A limit other than 0 that does not exceed the maximum is used as it is,
    also below the documented minimum of 1: the [slice] then ends that many
    entries before the end of the list. *)
Theorem zero_is_absent (env : Env) (s : State) :
  (forall o, getRecentPhish env {| rp_limit := Some 0; rp_include_offline := o |} s
             = getRecentPhish env {| rp_limit := None; rp_include_offline := o |} s)
  /\ (forall a b,
        searchPhishByDate env {| sd_start_date := a; sd_end_date := b; sd_limit := Some 0 |} s
        = searchPhishByDate env {| sd_start_date := a; sd_end_date := b; sd_limit := None |} s)
  /\ (forall q vo,
        searchPhishByTarget env
          {| st_target := q; st_limit := Some 0; st_verified_only := vo |} s
        = searchPhishByTarget env
            {| st_target := q; st_limit := None; st_verified_only := vo |} s)
  /\ (forall k, getPhishStats env {| ps_days := Some 0; ps_top_targets_limit := k |} s
                = getPhishStats env {| ps_days := None; ps_top_targets_limit := k |} s)
  /\ (forall d, getPhishStats env {| ps_days := d; ps_top_targets_limit := Some 0 |} s
                = getPhishStats env {| ps_days := d; ps_top_targets_limit := None |} s)
  /\ (forall us, checkMultipleUrls env {| cm_urls := us; cm_delay := Some 0 |} s
                 = checkMultipleUrls env {| cm_urls := us; cm_delay := None |} s)
  (* the values used in place of 0 *)
  /\ (forall o db s1,
        cachedDatabase env s = (Return db, s1) ->
        rp_entries <$> answer (getRecentPhish env
                                 {| rp_limit := Some 0; rp_include_offline := o |} s)
        = Some (Js.slice0 (Js.sort (newest_first env) (recent_candidates o (entries_of db)))
                  100))
  /\ (forall a b db s1,
        Js.dateRegex_test a = true ->
        Js.dateRegex_test b = true ->
        Js.gt (Js.Date_parse (LocalTZA env) a)
              (Js.setHours (LocalTZA env) (Js.Date_parse (LocalTZA env) b) 23 59 59 999)
        = false ->
        cachedDatabase env s = (Return db, s1) ->
        sd_entries <$> answer (searchPhishByDate env
                                 {| sd_start_date := Some a; sd_end_date := Some b;
                                    sd_limit := Some 0 |} s)
        = Some (Js.slice0
                  (Js.sort (newest_first env)
                     (List.filter
                        (in_range env (Js.Date_parse (LocalTZA env) a)
                           (Js.setHours (LocalTZA env)
                              (Js.Date_parse (LocalTZA env) b) 23 59 59 999))
                        (entries_of db)))
                  100))
  /\ (forall k e s',
        getPhishStats env {| ps_days := Some 0; ps_top_targets_limit := k |} s = (Return e, s') ->
        ps_analysis_period_days e = 7)
  /\ (forall d db s1,
        cachedDatabase env s = (Return db, s1) ->
        top_targets <$> (ps_statistics <$>
                           answer (getPhishStats env
                                     {| ps_days := d; ps_top_targets_limit := Some 0 |} s))
        = Some (List.map (fun '(tg, n) => {| tt_target := tg; tt_count := n |})
                  (Js.slice0
                     (ranked_targets env
                        (Js.minusDays (clock s1 + Z.of_N (lag env (ticks s1)))
                           (Z.min (Z.max (Js.or_number d 7) 1) 30))
                        (entries_of db))
                     10)))
  /\ (forall us e s',
        checkMultipleUrls env {| cm_urls := us; cm_delay := Some 0 |} s = (Return e, s') ->
        b_delay_used e = 1000)
  (* no lower bound on a limit *)
  /\ (forall l o db s1,
        l <> 0 -> l <= 1000 ->
        cachedDatabase env s = (Return db, s1) ->
        rp_entries <$> answer (getRecentPhish env
                                 {| rp_limit := Some l; rp_include_offline := o |} s)
        = Some (Js.slice0 (Js.sort (newest_first env) (recent_candidates o (entries_of db)))
                  l))
  /\ (forall l q vo db s1,
        l <> 0 -> l <= 500 ->
        Js.trim (Js.or_string q "") <> "" ->
        cachedDatabase env s = (Return db, s1) ->
        st_entries <$> answer (searchPhishByTarget env
                                 {| st_target := q; st_limit := Some l;
                                    st_verified_only := vo |} s)
        = Some (Js.slice0
                  (Js.sort (newest_first env)
                     (List.filter
                        (target_matches (Js.toLowerCase (Js.trim (Js.or_string q "")))
                           (negb (bool_decide (vo = Some false))))
                        (entries_of db)))
                  l))
  /\ (forall l a b db s1,
        l <> 0 -> l <= 500 ->
        Js.dateRegex_test a = true ->
        Js.dateRegex_test b = true ->
        Js.gt (Js.Date_parse (LocalTZA env) a)
              (Js.setHours (LocalTZA env) (Js.Date_parse (LocalTZA env) b) 23 59 59 999)
        = false ->
        cachedDatabase env s = (Return db, s1) ->
        sd_entries <$> answer (searchPhishByDate env
                                 {| sd_start_date := Some a; sd_end_date := Some b;
                                    sd_limit := Some l |} s)
        = Some (Js.slice0
                  (Js.sort (newest_first env)
                     (List.filter
                        (in_range env (Js.Date_parse (LocalTZA env) a)
                           (Js.setHours (LocalTZA env)
                              (Js.Date_parse (LocalTZA env) b) 23 59 59 999))
                        (entries_of db)))
                  l)).
Proof.
  repeat match goal with |- _ /\ _ => split end; try (intros; reflexivity).
  - intros o db s1 H. rewrite (getRecentPhish_entries env _ s db s1 H). reflexivity.
  - intros a b db s1 Ra Rb Hgt H.
    rewrite (searchPhishByDate_entries env
               {| sd_start_date := Some a; sd_end_date := Some b; sd_limit := Some 0 |}
               s db s1 a b eq_refl eq_refl Ra Rb Hgt H).
    reflexivity.
  - intros k e s' H. unfold getPhishStats in H. cbn [ps_days Js.or_number Z.eqb] in H.
    unfold bind in H.
    destruct (cachedDatabase env s) as [[db|err] s1]; [|discriminate].
    destruct (Date_now env s1) as [[now|err] s2]; [|discriminate].
    destruct (Date_now env s2) as [[today|err] s3]; [|discriminate].
    injection H as <- _. reflexivity.
  - intros d db s1 H. unfold answer, getPhishStats.
    rewrite (bind_returns _ _ _ _ _ H). reflexivity.
  - intros us e s' H. unfold checkMultipleUrls in H.
    cbn [cm_delay Js.or_number Z.eqb] in H.
    destruct (bool_decide _); [discriminate|].
    destruct (50 <? _); [discriminate|].
    unfold bind in H. destruct (checkEach env _ _ s) as [[items|err] s1]; [|discriminate].
    injection H as <- _. reflexivity.
  - intros l o db s1 Hl Hmax H.
    rewrite (getRecentPhish_entries env _ s db s1 H). cbn [rp_limit rp_include_offline].
    unfold Js.or_number. destruct (Z.eqb_spec l 0); [done|]. rewrite Z.min_l by lia.
    reflexivity.
  - intros l q vo db s1 Hl Hmax Hq H.
    rewrite (searchPhishByTarget_entries env
               {| st_target := q; st_limit := Some l; st_verified_only := vo |}
               s db s1 Hq H).
    cbn [st_limit st_target st_verified_only].
    unfold Js.or_number. destruct (Z.eqb_spec l 0); [done|]. rewrite Z.min_l by lia.
    reflexivity.
  - intros l a b db s1 Hl Hmax Ra Rb Hgt H.
    rewrite (searchPhishByDate_entries env
               {| sd_start_date := Some a; sd_end_date := Some b; sd_limit := Some l |}
               s db s1 a b eq_refl eq_refl Ra Rb Hgt H).
    cbn [sd_limit].
    unfold Js.or_number. destruct (Z.eqb_spec l 0); [done|]. rewrite Z.min_l by lia.
    reflexivity.
Qed.

Lemma zero_is_absent_witness :
  rp_entries <$> answer (getRecentPhish Demo.plain
                           {| rp_limit := Some (-1); rp_include_offline := None |}
                           (initial Demo.t0))
  = Some (Js.slice0 (Js.sort (newest_first Demo.plain)
                       (recent_candidates None (entries_of Demo.snapshot)))
            (-1)).
Proof.
  destruct (zero_is_absent Demo.plain (initial Demo.t0))
    as (_ & _ & _ & _ & _ & _ & _ & _ & _ & _ & _ & H & _).
  apply (H (-1) None Demo.snapshot (cachedDatabase Demo.plain (initial Demo.t0)).2);
    [lia | lia | vm_compute; reflexivity].
Defined.

Example limit_minus_one_drops_the_last :
  Js.slice0 (Js.sort (newest_first Demo.plain)
               (recent_candidates None (entries_of Demo.snapshot)))
    (-1)
  = [Demo.e3; Demo.e2].
Proof. vm_compute. reflexivity. Qed.

(* ================================================================== *)
(** * Properties: the batch *)
(* ================================================================== *)

Global Instance pacing_untouched_preorder : PreOrder pacing_untouched.
Proof.
  split; unfold pacing_untouched; [intros s | intros s1 s2 s3 H1 H2]; congruence.
Qed.

Global Instance pacing_untouched_world : WorldFrame pacing_untouched.
Proof. split; [apply _ | intros; reflexivity ..]. Qed.

Global Instance pacing_untouched_cache key : CacheFrame pacing_untouched key.
Proof. split; intros; reflexivity. Qed.

Global Instance pacing_untouched_timer : TimerFrame pacing_untouched ThrottleWait.
Proof. intros s d. reflexivity. Qed.

Global Instance pacing_untouched_throttle : ThrottleFrame pacing_untouched.
Proof. intros s x. reflexivity. Qed.

Lemma checkUrl_pacing (env : Env) args : keeps pacing_untouched (checkUrl env args).
Proof.
  apply keeps_checkUrl; try apply _.
  apply keeps_enforceRateLimit; apply _.
Qed.

Global Instance clock_forward_preorder : PreOrder clock_forward.
Proof. split; unfold clock_forward; [intros s | intros s1 s2 s3]; lia. Qed.

Global Instance clock_forward_world : WorldFrame clock_forward.
Proof. split; [apply _ | intros; unfold clock_forward; cbn; lia ..]. Qed.

Global Instance clock_forward_cache key : CacheFrame clock_forward key.
Proof. split; intros; unfold clock_forward; cbn; lia. Qed.

Global Instance clock_forward_timer w : TimerFrame clock_forward w.
Proof. intros s d. unfold clock_forward; cbn; lia. Qed.

Global Instance clock_forward_throttle : ThrottleFrame clock_forward.
Proof. intros s x. unfold clock_forward; cbn; lia. Qed.

Lemma checkUrl_clock (env : Env) args : keeps clock_forward (checkUrl env args).
Proof.
  apply keeps_checkUrl; try apply _.
  apply keeps_enforceRateLimit; apply _.
Qed.

Lemma sleep_returns (env : Env) w d s :
  sleep env w d s
  = (Return tt,
     next_tick (advance (Z.of_N (lag env (ticks s)))
                  (advance (Js.timer_delay d) (log_timer w d s)))).
Proof. reflexivity. Qed.

(** The loop of a batch always comes to its end, with one result per url,
    and between two urls it waits for [delay], once. *)
Lemma checkEach_returns (env : Env) delay urls s :
  exists items s',
    checkEach env delay urls s = (Return items, s')
    /\ length items = length urls
    /\ List.filter is_pacing (timers s')
       = replicate (length urls - 1) (PacingWait, delay) ++ List.filter is_pacing (timers s).
Proof.
  revert s. induction urls as [|u rest IH]; intros s.
  - exists [], s. repeat split.
  - cbn [checkEach]. unfold bind, try_catch.
    pose proof (checkUrl_pacing env {| cu_url := Some u; cu_format := None |} s) as Hp.
    destruct (checkUrl env {| cu_url := Some u; cu_format := None |} s) as [[r|err] s1];
      cbn [fst snd] in Hp; unfold ret; destruct rest as [|u' rest'].
    all: try (eexists _, s1; split; [reflexivity|]; split; [reflexivity|]; exact Hp).
    all: rewrite sleep_returns.
    all: match goal with
         | |- context [checkEach _ _ (_ :: _) ?s2] =>
             destruct (IH s2) as (items & s' & Heq & Hlen & Htimers); rewrite Heq
         end.
    all: eexists _, s'; split; [reflexivity|].
    all: split; [cbn [length] in *; congruence|].
    all: rewrite Htimers; cbn [length timers next_tick advance log_timer List.filter
                               is_pacing fst].
    all: rewrite Hp; cbn [length]; rewrite !Nat.sub_succ, !Nat.sub_0_r.
    all: rewrite (cons_middle (PacingWait, delay)), app_assoc, <- replicate_cons_app.
    all: reflexivity.
Qed.

(** The loop of a batch lasts as long as its timers: between two urls the
    clock moves on by what a timer set to [delay] lasts. *)
Lemma checkEach_waits (env : Env) delay urls s items s' :
  checkEach env delay urls s = (Return items, s') ->
  clock s + Z.of_nat (length urls - 1) * Js.timer_delay delay <= clock s'.
Proof.
  pose proof (timer_delay_pos delay) as Hpos.
  revert s items s'. induction urls as [|u rest IH]; intros s items s'.
  - intros [= <- <-]. cbn. lia.
  - cbn [checkEach]. unfold bind, try_catch.
    pose proof (checkUrl_clock env {| cu_url := Some u; cu_format := None |} s) as Hc.
    destruct (checkUrl env {| cu_url := Some u; cu_format := None |} s) as [[r|err] s1];
      cbn [fst snd] in Hc; unfold clock_forward in Hc; unfold ret at 1.
    all: destruct rest as [|u' rest'].
    all: try (unfold ret; cbn [checkEach]; unfold ret; intros [= <- <-]; cbn; lia).
    all: rewrite sleep_returns.
    all: match goal with
         | |- context [checkEach _ _ (_ :: _) ?s2] =>
             destruct (checkEach env delay (u' :: rest') s2) as [[items'|e3] s3] eqn:E3;
               [|discriminate]
         end.
    all: intros [= <- <-]; apply IH in E3.
    all: cbn [clock next_tick advance log_timer length] in *.
    all: rewrite Nat.sub_succ, Nat.sub_0_r in *; nia.
Qed.

(** A timer set to a delay of 500 milliseconds or more lasts that long
    when the delay is one a timer can be set to, and a millisecond when it
    is not. *)
Lemma timer_delay_of_raised (delay : option Z) :
  500 <= raised_delay delay
  /\ Js.timer_delay (raised_delay delay)
     = if raised_delay delay <=? Js.TIMEOUT_MAX then raised_delay delay else 1.
Proof.
  assert (500 <= raised_delay delay) as H.
  { unfold raised_delay. destruct delay as [d|]; [|lia]. destruct (d =? 0); lia. }
  split; [exact H|]. unfold Js.timer_delay.
  replace (1 <=? raised_delay delay) with true by (symmetry; apply Z.leb_le; lia).
  reflexivity.
Qed.

(** C3, as stated, fails: a delay of 20000 is not brought down to 10000.
    The batch reports 20000 as the delay used and waits 20000 between its
    two urls. *)
Lemma delay_above_10000_is_used :
  b_delay_used <$> answer (checkMultipleUrls Demo.plain
                             {| cm_urls := Some ["https://a.com"; "https://b.com"];
                                cm_delay := Some 20000 |}
                             (initial Demo.t0))
  = Some 20000
  /\ List.filter is_pacing
       (timers (checkMultipleUrls Demo.plain
                  {| cm_urls := Some ["https://a.com"; "https://b.com"];
                     cm_delay := Some 20000 |}
                  (initial Demo.t0)).2)
     = [(PacingWait, 20000)]
  /\ clamped_delay (Some 20000) = 10000.
Proof. vm_compute. repeat split; reflexivity. Qed.

(** C3, amended.  For a batch of 1 to 50 urls, the delay between two urls
    is 1000 when the argument is absent or 0 and otherwise the argument,
    raised to 500 when it is less; there is no upper bound.  The batch
    reports this delay and sets a timer to it once between each two urls.
    Such a timer lasts for the delay when the delay is at most 2147483647
    milliseconds, and for one millisecond when it is more; the batch lasts
    at least as long as its timers. *)
Theorem batch_delay (env : Env) (args : CheckMultipleUrlsArgs) (s : State)
        (urls : list string) :
  cm_urls args = Some urls ->
  urls <> [] ->
  (length urls <= 50)%nat ->
  exists e s',
    checkMultipleUrls env args s = (Return e, s')
    /\ b_delay_used e = raised_delay (cm_delay args)
    /\ 500 <= raised_delay (cm_delay args)
    /\ List.filter is_pacing (timers s')
       = replicate (length urls - 1) (PacingWait, raised_delay (cm_delay args))
         ++ List.filter is_pacing (timers s)
    /\ Js.timer_delay (raised_delay (cm_delay args))
       = (if raised_delay (cm_delay args) <=? Js.TIMEOUT_MAX
          then raised_delay (cm_delay args) else 1)
    /\ clock s + Z.of_nat (length urls - 1) * Js.timer_delay (raised_delay (cm_delay args))
       <= clock s'.
Proof.
  intros Hurls Hne Hlen. unfold checkMultipleUrls. rewrite Hurls. cbn [default from_option id].
  rewrite bool_decide_eq_false_2 by exact Hne.
  assert ((50 <? Z.of_nat (length urls)) = false) as -> by (apply Z.ltb_ge; lia).
  assert (Z.max (Js.or_number (cm_delay args) 1000) 500 = raised_delay (cm_delay args)) as ->.
  { unfold raised_delay, Js.or_number. destruct (cm_delay args) as [d|]; [|reflexivity].
    destruct (d =? 0); reflexivity. }
  destruct (checkEach_returns env (raised_delay (cm_delay args)) urls s)
    as (items & s' & Heq & _ & Htimers).
  destruct (timer_delay_of_raised (cm_delay args)) as [Hlow Hlasts].
  unfold bind. rewrite Heq. eexists _, s'. split; [reflexivity|]. split; [reflexivity|].
  split; [exact Hlow|]. split; [exact Htimers|]. split; [exact Hlasts|].
  exact (checkEach_waits env _ urls s items s' Heq).
Qed.

Lemma batch_delay_witness :
  exists e s',
    checkMultipleUrls Demo.plain
      {| cm_urls := Some ["https://a.com"; "https://b.com"]; cm_delay := Some 20000 |}
      (initial Demo.t0) = (Return e, s')
    /\ b_delay_used e = 20000
    /\ 500 <= 20000
    /\ List.filter is_pacing (timers s') = [(PacingWait, 20000)]
    /\ Js.timer_delay 20000 = 20000
    /\ Demo.t0 + 1 * Js.timer_delay 20000 <= clock s'.
Proof.
  apply (batch_delay Demo.plain
           {| cm_urls := Some ["https://a.com"; "https://b.com"]; cm_delay := Some 20000 |}
           (initial Demo.t0) ["https://a.com"; "https://b.com"]);
    [reflexivity | discriminate | simpl; lia].
Defined.

(** A delay of 2147483648 milliseconds is reported as the delay used, and
    the timer set to it lasts one millisecond: the batch of two urls is over
    after the 6000 milliseconds of the throttle. *)
Example delay_beyond_the_timers :
  b_delay_used <$> answer (checkMultipleUrls Demo.plain
                             {| cm_urls := Some ["https://a.com"; "https://b.com"];
                                cm_delay := Some 2147483648 |}
                             (initial Demo.t0))
  = Some 2147483648
  /\ Js.timer_delay 2147483648 = 1
  /\ clock (checkMultipleUrls Demo.plain
              {| cm_urls := Some ["https://a.com"; "https://b.com"];
                 cm_delay := Some 2147483648 |}
              (initial Demo.t0)).2
     = Demo.t0 + 6000.
Proof. vm_compute. repeat split; reflexivity. Qed.

(* ================================================================== *)
(** * Properties: check_url *)
(* ================================================================== *)

(** The throttle returns, and leaves the cache and the network alone. *)
Lemma enforceRateLimit_returns (env : Env) s :
  (enforceRateLimit env s).1 = Return tt
  /\ cache (enforceRateLimit env s).2 = cache s
  /\ requests (enforceRateLimit env s).2 = requests s.
Proof.
  unfold enforceRateLimit, Date_now, sleep, elapse, bind, gets, modify, ret.
  cbn [fst snd clock lastRequestTime advance next_tick].
  destruct (_ <? _); cbn; repeat split.
Qed.

(** What a miss amounts to, when it comes to an answer. *)
Lemma checkUrl_miss_returns (env : Env) u f key s e s' :
  checkUrl_miss env u f key s = (Return e, s') ->
  exists r summary,
    upstream env (length (requests s)) (check_request env u f) = Responded r
    /\ getUrlCheckSummary (data r) = Return summary
    /\ e = {| uc_cached := None;
              uc_result := data r;
              uc_rate_limit_info := extractRateLimitInfo (headers r);
              uc_summary := summary |}
    /\ requests s' = check_request env u f :: requests s
    /\ cache s' = <[key := {| t := clock s' + 300000; v := data r |}]> (cache s).
Proof.
  unfold checkUrl_miss. fold (check_request env u f).
  destruct (enforceRateLimit_returns env s) as (Hret & Hcache & Hreq).
  unfold bind at 1.
  destruct (enforceRateLimit env s) as [[[]|err] sA]; [|discriminate Hret].
  cbn [fst snd] in Hcache, Hreq.
  unfold http, cache_set, Date_now, elapse, eval, bind, gets, modify, ret, throw.
  cbn [fst snd requests log_request next_tick advance clock].
  rewrite Hreq.
  destruct (upstream env (length (requests s)) (check_request env u f)) as [r|st b m];
    [|discriminate].
  destruct (getUrlCheckSummary (data r)) as [summary|err] eqn:Hsum; [|discriminate].
  intros H. injection H as <- <-. exists r, summary.
  cbn. rewrite Hcache, Hreq. repeat split. exact Hsum.
Qed.

(** A look into the cache returns, touches nothing but the entry looked
    for, and finds only what is there. *)
Lemma cache_get_spec (env : Env) key s :
  exists o s0,
    cache_get env key s = (Return o, s0)
    /\ requests s0 = requests s
    /\ throttle_untouched s s0
    /\ match o with
       | Some val => exists rec, cache s !! key = Some rec /\ v rec = val /\ cache s0 = cache s
       | None => cache s0 = cache s \/ cache s0 = delete key (cache s)
       end.
Proof.
  unfold cache_get, Date_now, elapse, bind, gets, modify, ret. cbn [fst snd].
  destruct (cache s !! key) as [rec|] eqn:Hrec.
  - destruct (t rec =? 0).
    + eexists _, _. split; [reflexivity|]. repeat split. exists rec. repeat split.
    + cbn [clock next_tick advance]. destruct (t rec <? _).
      * eexists _, _. split; [reflexivity|]. repeat split. right. reflexivity.
      * eexists _, _. split; [reflexivity|]. repeat split. exists rec. repeat split.
  - eexists _, _. split; [reflexivity|]. repeat split. left. reflexivity.
Qed.

(** An entry that has not expired when it is looked for is found. *)
Lemma cache_get_live (env : Env) key s rec :
  cache s !! key = Some rec ->
  t rec = 0 \/ clock s + Z.of_N (lag env (ticks s)) <= t rec ->
  exists s0,
    cache_get env key s = (Return (Some (v rec)), s0)
    /\ requests s0 = requests s
    /\ throttle_untouched s s0
    /\ cache s0 = cache s.
Proof.
  intros Hrec Hlive.
  unfold cache_get, Date_now, elapse, bind, gets, modify, ret. cbn [fst snd].
  rewrite Hrec. destruct (Z.eqb_spec (t rec) 0) as [E|E].
  - eexists. split; [reflexivity|]. repeat split.
  - cbn [clock next_tick advance].
    destruct Hlive as [?|Hlive]; [contradiction|].
    assert ((t rec <? clock s + Z.of_N (lag env (ticks s))) = false) as ->
        by (apply Z.ltb_ge; lia).
    eexists. split; [reflexivity|]. repeat split.
Qed.

(** One pass through the throttle records its stamp. *)
Lemma enforceRateLimit_records (env : Env) s :
  permits (enforceRateLimit env s).2
  = lastRequestTime (enforceRateLimit env s).2 :: permits s.
Proof.
  unfold enforceRateLimit, Date_now, sleep, elapse, bind, gets, modify, ret.
  cbn [fst snd clock lastRequestTime advance next_tick].
  destruct (_ <? _); reflexivity.
Qed.

(** A look into the cache that finds nothing leaves nothing under the
    key. *)
Lemma cache_get_none (env : Env) key s s0 :
  cache_get env key s = (Return None, s0) -> cache s0 !! key = None.
Proof.
  unfold cache_get, Date_now, elapse, bind, gets, modify, ret. cbn [fst snd].
  destruct (cache s !! key) as [rec|] eqn:Hrec.
  - destruct (t rec =? 0); [discriminate|].
    cbn [clock next_tick advance]. destruct (t rec <? _); [|discriminate].
    intros [= <-]. cbn. apply lookup_delete_eq.
  - intros [= <-]. exact Hrec.
Qed.

(** The two ways in which [checkUrl] comes to an answer: a hit, which is
    the value found under the key of the url, or a miss, which sends one
    request and stores the body of the response under that key for 300
    seconds. *)
Lemma checkUrl_cases (env : Env) args s e s' :
  checkUrl env args s = (Return e, s') ->
  Js.trim (Js.or_string (cu_url args) "") <> ""
  /\ URL_parses env (Js.trim (Js.or_string (cu_url args) "")) = true
  /\ ((exists rec summary,
         cache s !! url_check_key args = Some rec
         /\ truthy (v rec) = true
         /\ getUrlCheckSummary (v rec) = Return summary
         /\ e = {| uc_cached := Some true;
                   uc_result := v rec;
                   uc_rate_limit_info := None;
                   uc_summary := summary |}
         /\ requests s' = requests s
         /\ throttle_untouched s s')
      \/ (exists r summary,
            upstream env (length (requests s))
              (check_request env (Js.trim (Js.or_string (cu_url args) ""))
                 (Js.or_string (cu_format args) "json"))
            = Responded r
            /\ getUrlCheckSummary (data r) = Return summary
            /\ e = {| uc_cached := None;
                      uc_result := data r;
                      uc_rate_limit_info := extractRateLimitInfo (headers r);
                      uc_summary := summary |}
            /\ requests s'
               = check_request env (Js.trim (Js.or_string (cu_url args) ""))
                   (Js.or_string (cu_format args) "json") :: requests s
            /\ cache s' !! url_check_key args
               = Some {| t := clock s' + 300000; v := data r |})).
Proof.
  unfold checkUrl, isValidUrl. fold (url_check_key args).
  set (u := Js.trim (Js.or_string (cu_url args) "")).
  destruct u as [|c u'] eqn:Hu; [discriminate|]. cbn [Js.truthy_string negb].
  destruct (URL_parses env (String c u')) eqn:Hvalid; [|discriminate]. cbn [negb].
  intros H. split; [discriminate|]. split; [reflexivity|].
  destruct (cache_get_spec env (url_check_key args) s) as (o & s0 & Hget & Hreq & Hthr & Ho).
  unfold bind at 1 in H. rewrite Hget in H.
  assert (checkUrl_miss env (String c u') (Js.or_string (cu_format args) "json")
            (url_check_key args) s0 = (Return e, s') ->
          exists r summary,
            upstream env (length (requests s))
              (check_request env (String c u') (Js.or_string (cu_format args) "json"))
            = Responded r
            /\ getUrlCheckSummary (data r) = Return summary
            /\ e = {| uc_cached := None;
                      uc_result := data r;
                      uc_rate_limit_info := extractRateLimitInfo (headers r);
                      uc_summary := summary |}
            /\ requests s'
               = check_request env (String c u') (Js.or_string (cu_format args) "json")
                   :: requests s
            /\ cache s' !! url_check_key args
               = Some {| t := clock s' + 300000; v := data r |}) as Hmiss.
  { intros Hm.
    apply checkUrl_miss_returns in Hm as (r & summary & Hup & Hsum & -> & Hreq' & Hcache).
    exists r, summary. rewrite <- Hreq. repeat split; try assumption.
    rewrite Hcache. apply lookup_insert_eq. }
  destruct o as [hit|].
  - destruct Ho as (rec & Hrec & <- & Hcache).
    destruct (truthy (v rec)) eqn:Htruthy.
    + left. unfold bind, eval in H.
      destruct (getUrlCheckSummary (v rec)) as [summary|err] eqn:Hsum; [|discriminate H].
      injection H as <- <-. exists rec, summary. repeat split; try assumption;
        destruct Hthr as (? & ? & ?); assumption.
    + right. apply Hmiss, H.
  - right. apply Hmiss, H.
Qed.

(** Of a truthy value the summary can be made: it is not [null]. *)
Lemma truthy_has_summary (val : Value) :
  truthy val = true -> exists summary, getUrlCheckSummary val = Return summary.
Proof.
  destruct val as [[m [r|]]|t|l| |b|n|d]; cbn; intros H; try discriminate H; eauto.
Qed.

(** ... and the summary cannot be made of [null] only. *)
Lemma summary_throws (val : Value) (err : Error) :
  getUrlCheckSummary val = Throw err ->
  val = VNull /\ err = TypeError "Cannot read properties of null (reading 'results')".
Proof.
  destruct val as [[m [r|]]|t|l| |b|n|d]; cbn; intros H; try discriminate H.
  injection H as <-. split; reflexivity.
Qed.

(** The two ways in which a miss throws: upstream rejects the request, and
    nothing is stored; or upstream answers with the body [null], which is
    stored before the summary is asked for. *)
Lemma checkUrl_miss_throws (env : Env) u f key s e s' :
  checkUrl_miss env u f key s = (Throw e, s') ->
  requests s' = check_request env u f :: requests s
  /\ permits s' = lastRequestTime s' :: permits s
  /\ ((exists st b msg,
         e = AxiosError st b msg
         /\ upstream env (length (requests s)) (check_request env u f) = Rejected st b msg
         /\ cache s' = cache s)
      \/ (exists r,
            e = TypeError "Cannot read properties of null (reading 'results')"
            /\ upstream env (length (requests s)) (check_request env u f) = Responded r
            /\ data r = VNull
            /\ cache s' = <[key := {| t := clock s' + 300000; v := VNull |}]> (cache s))).
Proof.
  unfold checkUrl_miss. fold (check_request env u f).
  destruct (enforceRateLimit_returns env s) as (Hret & Hcache & Hreq).
  pose proof (enforceRateLimit_records env s) as Hrec.
  unfold bind at 1.
  destruct (enforceRateLimit env s) as [[[]|err] sA]; [|discriminate Hret].
  cbn [fst snd] in Hcache, Hreq, Hrec.
  unfold http, cache_set, Date_now, elapse, eval, bind, gets, modify, ret, throw.
  cbn [fst snd requests log_request next_tick advance clock].
  rewrite Hreq.
  destruct (upstream env (length (requests s)) (check_request env u f)) as [r|st b m] eqn:U.
  - destruct (getUrlCheckSummary (data r)) as [summary|err] eqn:Hsum; [discriminate|].
    apply summary_throws in Hsum as [Hnull ->].
    intros H. injection H as <- <-. cbn. rewrite Hcache, Hreq, Hrec, Hnull.
    split; [reflexivity|]. split; [reflexivity|]. right. exists r. repeat split.
    exact Hnull.
  - intros H. injection H as <- <-. cbn. rewrite Hcache, Hreq, Hrec.
    split; [reflexivity|]. split; [reflexivity|]. left. exists st, b, m. repeat split.
Qed.

(** What [checkUrl] throws: the refusal of its argument, before anything
    is done; the rejection of its request; or the [TypeError] for the body
    [null], which by then is in the cache. *)
Lemma checkUrl_throws (env : Env) args s e s' :
  checkUrl env args s = (Throw e, s') ->
  match e with
  | McpError _ _ => s' = s
  | AxiosError _ _ _ => rejected_upstream env e s'
  | TypeError msg =>
      msg = "Cannot read properties of null (reading 'results')"
      /\ requests s'
         = check_request env (Js.trim (Js.or_string (cu_url args) ""))
             (Js.or_string (cu_format args) "json") :: requests s
      /\ permits s' = lastRequestTime s' :: permits s
      /\ cache s' !! url_check_key args = Some {| t := clock s' + 300000; v := VNull |}
      /\ exists r,
           upstream env (length (requests s))
             (check_request env (Js.trim (Js.or_string (cu_url args) ""))
                (Js.or_string (cu_format args) "json"))
           = Responded r
           /\ data r = VNull
  end.
Proof.
  unfold checkUrl, isValidUrl. fold (url_check_key args).
  destruct (negb (Js.truthy_string _)); [intros [= <- <-]; reflexivity|].
  destruct (negb (URL_parses env _)); [intros [= <- <-]; reflexivity|].
  destruct (cache_get_spec env (url_check_key args) s) as (o & s0 & Hget & Hreq & Hthr & Ho).
  unfold bind at 1. rewrite Hget.
  assert (checkUrl_miss env (Js.trim (Js.or_string (cu_url args) ""))
            (Js.or_string (cu_format args) "json") (url_check_key args) s0
          = (Throw e, s') ->
          match e with
          | McpError _ _ => s' = s
          | AxiosError _ _ _ => rejected_upstream env e s'
          | TypeError msg =>
              msg = "Cannot read properties of null (reading 'results')"
              /\ requests s'
                 = check_request env (Js.trim (Js.or_string (cu_url args) ""))
                     (Js.or_string (cu_format args) "json") :: requests s
              /\ permits s' = lastRequestTime s' :: permits s
              /\ cache s' !! url_check_key args
                 = Some {| t := clock s' + 300000; v := VNull |}
              /\ exists r,
                   upstream env (length (requests s))
                     (check_request env (Js.trim (Js.or_string (cu_url args) ""))
                        (Js.or_string (cu_format args) "json"))
                   = Responded r
                   /\ data r = VNull
          end) as Hmiss.
  { intros H. apply checkUrl_miss_throws in H as (H1 & H2 & H3).
    rewrite Hreq in H1, H3. destruct Hthr as (_ & Hp & _). rewrite Hp in H2.
    destruct H3 as [(st & b & msg & -> & Hup & Hc)|(r & -> & Hup & Hnull & Hc)].
    - cbn. eexists _, _. split; [exact H1 | exact Hup].
    - split; [reflexivity|]. split; [exact H1|]. split; [exact H2|].
      split; [rewrite Hc; apply lookup_insert_eq|]. exists r. split; assumption. }
  destruct o as [hit|]; [|exact Hmiss].
  destruct (truthy hit) eqn:Htruthy; [|exact Hmiss].
  destruct (truthy_has_summary hit Htruthy) as [summary Hsum].
  unfold bind, eval. rewrite Hsum. discriminate.
Qed.

Lemma extractRateLimitInfo_given (hs : gmap string string) :
  header_given hs "x-request-limit-interval" ->
  header_given hs "x-request-limit" ->
  header_given hs "x-request-count" ->
  extractRateLimitInfo hs
  = Some {| interval := header hs "x-request-limit-interval";
            limit := Js.parseInt (header hs "x-request-limit");
            count := Js.parseInt (header hs "x-request-count");
            remaining := Js.sub (Js.parseInt (header hs "x-request-limit"))
                           (Js.parseInt (header hs "x-request-count")) |}.
Proof.
  intros (i & Hi & Hi') (l & Hl & Hl') (c & Hc & Hc').
  unfold extractRateLimitInfo, header. rewrite Hi, Hl, Hc.
  destruct i; [done|]. destruct l; [done|]. destruct c; [done|]. reflexivity.
Qed.

Lemma extractRateLimitInfo_missing (hs : gmap string string) :
  ~ (header_given hs "x-request-limit-interval"
     /\ header_given hs "x-request-limit"
     /\ header_given hs "x-request-count") ->
  extractRateLimitInfo hs = None.
Proof.
  intros Hnot. unfold extractRateLimitInfo.
  destruct (hs !! "x-request-limit-interval") as [i|] eqn:Hi; [|reflexivity].
  destruct (hs !! "x-request-limit") as [l|] eqn:Hl; [|reflexivity].
  destruct (hs !! "x-request-count") as [c|] eqn:Hc; [|reflexivity].
  destruct i as [|ci i]; [reflexivity|].
  destruct l as [|cl l]; [reflexivity|].
  destruct c as [|cc c]; [reflexivity|].
  exfalso. apply Hnot. unfold header_given. rewrite Hi, Hl, Hc.
  repeat split; eexists; (split; [reflexivity | discriminate]).
Qed.

(** C9, as stated, fails: the answer to a miss has no [cached] marker at
    all, rather than one that is false, and the interval of the telemetry
    is the text of the header, not a number read from it. *)
Lemma miss_has_no_cached_marker :
  cache (initial Demo.t0) !! url_check_key Demo.a_com = None
  /\ answer (checkUrl Demo.metered Demo.a_com (initial Demo.t0))
     = Some {| uc_cached := None;
               uc_result := Demo.clean "https://a.com";
               uc_rate_limit_info :=
                 Some {| interval := "300 Seconds";
                         limit := Some 50;
                         count := Some 3;
                         remaining := Some 47 |};
               uc_summary := "URL not found in PhishTank database (likely safe)" |}
  /\ uc_cached <$> answer (checkUrl Demo.metered Demo.a_com (initial Demo.t0))
     <> Some (Some false).
Proof. vm_compute. repeat split. discriminate. Qed.

(** C9, amended.  The answer to a miss carries no [cached] marker.  It
    carries the telemetry when the three rate-limit headers are there and
    not empty: the interval is the text of its header, limit and count are
    the integers [parseInt] reads from theirs, and remaining is limit minus
    count.  When a header is missing or empty, there is no telemetry. *)
Theorem miss_response (env : Env) (args : CheckUrlArgs) (s s' : State)
        (e : UrlCheckEnvelope) :
  checkUrl env args s = (Return e, s') ->
  uc_cached e <> Some true ->
  uc_cached e = None
  /\ exists r,
       upstream env (length (requests s))
         (check_request env (Js.trim (Js.or_string (cu_url args) ""))
            (Js.or_string (cu_format args) "json"))
       = Responded r
       /\ uc_result e = data r
       /\ (header_given (headers r) "x-request-limit-interval"
           /\ header_given (headers r) "x-request-limit"
           /\ header_given (headers r) "x-request-count" ->
           uc_rate_limit_info e
           = Some {| interval := header (headers r) "x-request-limit-interval";
                     limit := Js.parseInt (header (headers r) "x-request-limit");
                     count := Js.parseInt (header (headers r) "x-request-count");
                     remaining :=
                       Js.sub (Js.parseInt (header (headers r) "x-request-limit"))
                         (Js.parseInt (header (headers r) "x-request-count")) |})
       /\ (~ (header_given (headers r) "x-request-limit-interval"
              /\ header_given (headers r) "x-request-limit"
              /\ header_given (headers r) "x-request-count") ->
           uc_rate_limit_info e = None).
Proof.
  intros H Hmiss.
  destruct (checkUrl_cases env args s e s' H) as (_ & _ & [Hhit | Hnet]).
  - destruct Hhit as (rec & summary & _ & _ & _ & -> & _). contradiction Hmiss. reflexivity.
  - destruct Hnet as (r & summary & Hup & _ & -> & _ & _). split; [reflexivity|].
    exists r. split; [exact Hup|]. split; [reflexivity|]. split.
    + intros (H1 & H2 & H3). apply extractRateLimitInfo_given; assumption.
    + apply extractRateLimitInfo_missing.
Qed.

Lemma miss_response_witness :
  uc_cached (default {| uc_cached := Some true; uc_result := VText "";
                        uc_rate_limit_info := None; uc_summary := "" |}
               (answer (checkUrl Demo.metered Demo.a_com (initial Demo.t0))))
  = None.
Proof.
  refine (proj1 (miss_response Demo.metered Demo.a_com (initial Demo.t0)
                   (checkUrl Demo.metered Demo.a_com (initial Demo.t0)).2 _ _ _));
    vm_compute; [reflexivity | discriminate].
Defined.

Global Instance others_untouched_preorder key : PreOrder (others_untouched key).
Proof.
  split; unfold others_untouched; [intros s k Hk | intros s1 s2 s3 H1 H2 k Hk].
  - reflexivity.
  - rewrite H2, H1 by exact Hk. reflexivity.
Qed.

Global Instance others_untouched_world key : WorldFrame (others_untouched key).
Proof. split; [apply _ | intros; intros k Hk; reflexivity ..]. Qed.

Global Instance others_untouched_cache key : CacheFrame (others_untouched key) key.
Proof.
  split; intros; intros k Hk; cbn [cache set_cache].
  - apply lookup_delete_ne. congruence.
  - apply lookup_insert_ne. congruence.
  - apply lookup_alter_ne. congruence.
Qed.

Global Instance others_untouched_timer key w : TimerFrame (others_untouched key) w.
Proof. intros s d k Hk. reflexivity. Qed.

Global Instance others_untouched_throttle key : ThrottleFrame (others_untouched key).
Proof. intros s x k Hk. reflexivity. Qed.

Lemma checkUrl_others (env : Env) args :
  keeps (others_untouched (url_check_key args)) (checkUrl env args).
Proof.
  apply keeps_checkUrl; try apply _.
  apply keeps_enforceRateLimit; apply _.
Qed.

Lemma url_check_key_inj args args' :
  url_check_key args = url_check_key args' ->
  Js.trim (Js.or_string (cu_url args) "") = Js.trim (Js.or_string (cu_url args') "").
Proof. unfold url_check_key. cbn. intros H. injection H as H. exact H. Qed.

(** C4, as stated, fails: the url is trimmed before it is made into a key.
    [https://a.com] with a space after it and [https://a.com] are two
    strings, both accepted, and they share one cache entry: after a check of
    the first, a check of the second is a hit, and no second request goes
    out. *)
Lemma padded_url_shares_entry :
  cu_url Demo.a_com_padded <> cu_url Demo.a_com
  /\ url_check_key Demo.a_com_padded = url_check_key Demo.a_com
  /\ uc_cached <$> answer (checkUrl Demo.plain Demo.a_com_padded (initial Demo.t0))
     = Some None
  /\ uc_cached <$> answer (checkUrl Demo.plain Demo.a_com
                             (checkUrl Demo.plain Demo.a_com_padded (initial Demo.t0)).2)
     = Some (Some true)
  /\ length (requests (checkUrl Demo.plain Demo.a_com
                         (checkUrl Demo.plain Demo.a_com_padded (initial Demo.t0)).2).2)
     = 1%nat.
Proof. vm_compute. repeat split. discriminate. Qed.

(** C4, amended.  The cache key of a check is [url_check:] followed by the
    url argument with the white space at its ends removed, and otherwise as
    it is: case and slashes are kept.  A hit is the value found under this
    key, a miss stores the result under this key, and a check touches no
    other entry of the cache.  Two url arguments whose trimmed forms differ
    have different keys. *)
Theorem url_cache_key (env : Env) (args : CheckUrlArgs) (s s' : State)
        (e : UrlCheckEnvelope) :
  checkUrl env args s = (Return e, s') ->
  url_check_key args = "url_check:" +:+ Js.trim (Js.or_string (cu_url args) "")
  /\ (uc_cached e = Some true ->
      exists rec, cache s !! url_check_key args = Some rec /\ v rec = uc_result e)
  /\ (uc_cached e <> Some true ->
      exists rec, cache s' !! url_check_key args = Some rec /\ v rec = uc_result e)
  /\ (forall k, k <> url_check_key args -> cache s' !! k = cache s !! k)
  /\ (forall args',
        Js.trim (Js.or_string (cu_url args') "") <> Js.trim (Js.or_string (cu_url args) "") ->
        url_check_key args' <> url_check_key args).
Proof.
  intros H. split; [reflexivity|].
  pose proof (checkUrl_others env args s) as Hothers. rewrite H in Hothers.
  destruct (checkUrl_cases env args s e s' H) as (_ & _ & [Hhit | Hnet]).
  - destruct Hhit as (rec & summary & Hrec & _ & _ & -> & _). repeat split.
    + intros _. exists rec. split; [exact Hrec | reflexivity].
    + intros Hc. contradiction Hc. reflexivity.
    + exact Hothers.
    + intros args' Hne Hkey. apply Hne, url_check_key_inj, Hkey.
  - destruct Hnet as (r & summary & _ & _ & -> & _ & Hstored). repeat split.
    + discriminate.
    + intros _. eexists. split; [exact Hstored | reflexivity].
    + exact Hothers.
    + intros args' Hne Hkey. apply Hne, url_check_key_inj, Hkey.
Qed.

Lemma url_cache_key_witness :
  url_check_key {| cu_url := Some "https://A.com/"; cu_format := None |}
  <> url_check_key Demo.a_com.
Proof.
  refine (proj2 (proj2 (proj2 (proj2
            (url_cache_key Demo.plain Demo.a_com (initial Demo.t0)
               (checkUrl Demo.plain Demo.a_com (initial Demo.t0)).2
               (default {| uc_cached := None; uc_result := VText "";
                           uc_rate_limit_info := None; uc_summary := "" |}
                  (answer (checkUrl Demo.plain Demo.a_com (initial Demo.t0))))
               _))))
            {| cu_url := Some "https://A.com/"; cu_format := None |} _);
    vm_compute; [reflexivity | discriminate].
Defined.

Example case_and_slash_are_kept :
  url_check_key {| cu_url := Some "https://A.com"; cu_format := None |}
  <> url_check_key Demo.a_com
  /\ url_check_key {| cu_url := Some "https://a.com/"; cu_format := None |}
     <> url_check_key Demo.a_com.
Proof. split; vm_compute; discriminate. Qed.

(** C2, as stated, fails, in two ways.  First, the answer to a miss
    carries the telemetry of the response and the answer to a hit none, so
    that with the rate-limit headers there the two answers differ in more
    than the marker.  Second, the hit is decided by the truth value of what
    the cache returns, and an empty body, which the cache holds like any
    other, is falsy: both calls then go to the network and through the
    throttle, and the second answer is not marked as cached. *)
Lemma second_answer_differs :
  answer (checkUrl Demo.metered Demo.a_com (initial Demo.t0))
  = Some {| uc_cached := None;
            uc_result := Demo.clean "https://a.com";
            uc_rate_limit_info :=
              Some {| interval := "300 Seconds"; limit := Some 50;
                      count := Some 3; remaining := Some 47 |};
            uc_summary := "URL not found in PhishTank database (likely safe)" |}
  /\ answer (checkUrl Demo.metered Demo.a_com
               (checkUrl Demo.metered Demo.a_com (initial Demo.t0)).2)
     = Some {| uc_cached := Some true;
               uc_result := Demo.clean "https://a.com";
               uc_rate_limit_info := None;
               uc_summary := "URL not found in PhishTank database (likely safe)" |}
  /\ ~ second_call_is_hit Demo.metered Demo.a_com (initial Demo.t0)
  /\ answer (checkUrl Demo.mute Demo.a_com
               (checkUrl Demo.mute Demo.a_com (initial Demo.t0)).2)
     = Some {| uc_cached := None; uc_result := VText "";
               uc_rate_limit_info := None;
               uc_summary := "Invalid response from PhishTank" |}
  /\ length (requests (checkUrl Demo.mute Demo.a_com
                         (checkUrl Demo.mute Demo.a_com (initial Demo.t0)).2).2)
     = 2%nat
  /\ permits (checkUrl Demo.mute Demo.a_com
                (checkUrl Demo.mute Demo.a_com (initial Demo.t0)).2).2
     = [Demo.t0 + 6000; Demo.t0]
  /\ ~ second_call_is_hit Demo.mute Demo.a_com (initial Demo.t0).
Proof.
  split; [vm_compute; reflexivity|].
  split; [vm_compute; reflexivity|].
  split.
  { intros (e1 & s1 & e2 & s2 & H1 & H2 & _ & _ & _ & _ & Hinfo & _).
    assert (answer (checkUrl Demo.metered Demo.a_com (initial Demo.t0)) = Some e1) as A1
        by (rewrite H1; reflexivity).
    assert (s1 = (checkUrl Demo.metered Demo.a_com (initial Demo.t0)).2) as ->
        by (rewrite H1; reflexivity).
    assert (answer (checkUrl Demo.metered Demo.a_com
                      (checkUrl Demo.metered Demo.a_com (initial Demo.t0)).2) = Some e2) as A2
        by (rewrite H2; reflexivity).
    vm_compute in A1, A2. injection A1 as <-. injection A2 as <-.
    discriminate Hinfo. }
  split; [vm_compute; reflexivity|].
  split; [vm_compute; reflexivity|].
  split; [vm_compute; reflexivity|].
  intros (e1 & s1 & e2 & s2 & H1 & H2 & Hlen & _).
  assert (s1 = (checkUrl Demo.mute Demo.a_com (initial Demo.t0)).2) as ->
      by (rewrite H1; reflexivity).
  assert (s2 = (checkUrl Demo.mute Demo.a_com
                  (checkUrl Demo.mute Demo.a_com (initial Demo.t0)).2).2) as ->
      by (rewrite H2; reflexivity).
  vm_compute in Hlen. discriminate Hlen.
Qed.

(** C2, amended.  When a check goes to the network and comes back with a
    body that is truthy (any object or array, any text but the empty one,
    any number but 0, [true]), the same
    check made again before the 300 seconds of the entry are over is a hit:
    it answers, sends no request, so that one request went out in all,
    leaves the throttle alone, and its answer is that of the first call with
    the [cached] marker set and without the telemetry. *)
Theorem check_url_twice (env : Env) (args : CheckUrlArgs) (s s1 : State)
        (e1 : UrlCheckEnvelope) :
  checkUrl env args s = (Return e1, s1) ->
  uc_cached e1 = None ->
  truthy (uc_result e1) = true ->
  (lag env (ticks s1) <= 300000)%N ->
  exists e2 s2,
    checkUrl env args s1 = (Return e2, s2)
    /\ length (requests s2) = S (length (requests s))
    /\ requests s2 = requests s1
    /\ throttle_untouched s1 s2
    /\ e2 = {| uc_cached := Some true;
               uc_result := uc_result e1;
               uc_rate_limit_info := None;
               uc_summary := uc_summary e1 |}.
Proof.
  intros H Hmiss Htruthy Hlag.
  destruct (checkUrl_cases env args s e1 s1 H) as (Hu & Hvalid & [Hhit | Hnet]).
  { destruct Hhit as (rec & summary & _ & _ & _ & -> & _). discriminate Hmiss. }
  destruct Hnet as (r & summary & _ & Hsum & -> & Hreq & Hstored).
  cbn [uc_result uc_summary] in *.
  destruct (cache_get_live env (url_check_key args) s1 _ Hstored)
    as (s2 & Hget & Hreq2 & Hthr & _).
  { right. cbn [t]. lia. }
  exists {| uc_cached := Some true; uc_result := data r;
            uc_rate_limit_info := None; uc_summary := summary |}, s2.
  split.
  - unfold checkUrl, isValidUrl. fold (url_check_key args).
    destruct (Js.trim (Js.or_string (cu_url args) "")) as [|c u'] eqn:Eu; [done|].
    cbn [Js.truthy_string negb]. rewrite Hvalid. cbn [negb].
    unfold bind at 1. rewrite Hget. cbn [v]. rewrite Htruthy.
    unfold bind, eval. rewrite Hsum. reflexivity.
  - rewrite Hreq2, Hreq. repeat split; apply Hthr.
Qed.

Lemma check_url_twice_witness :
  exists e2 s2,
    checkUrl Demo.metered Demo.a_com
      (checkUrl Demo.metered Demo.a_com (initial Demo.t0)).2 = (Return e2, s2)
    /\ length (requests s2) = 1%nat
    /\ requests s2 = requests (checkUrl Demo.metered Demo.a_com (initial Demo.t0)).2
    /\ throttle_untouched (checkUrl Demo.metered Demo.a_com (initial Demo.t0)).2 s2
    /\ e2 = {| uc_cached := Some true;
               uc_result := Demo.clean "https://a.com";
               uc_rate_limit_info := None;
               uc_summary := "URL not found in PhishTank database (likely safe)" |}.
Proof.
  apply (check_url_twice Demo.metered Demo.a_com (initial Demo.t0)
           (checkUrl Demo.metered Demo.a_com (initial Demo.t0)).2
           {| uc_cached := None;
              uc_result := Demo.clean "https://a.com";
              uc_rate_limit_info :=
                Some {| interval := "300 Seconds"; limit := Some 50;
                        count := Some 3; remaining := Some 47 |};
              uc_summary := "URL not found in PhishTank database (likely safe)" |});
    [vm_compute; reflexivity | reflexivity | reflexivity | vm_compute; discriminate].
Defined.

(* ================================================================== *)
(** * Properties: sorting *)
(* ================================================================== *)

Section Sorting.

Context {A : Type} (cmp : A -> A -> option Z).

Lemma sort_insert_Permutation x l : Permutation (Js.sort_insert cmp x l) (x :: l).
Proof.
  induction l as [|y t IH]; simpl; [reflexivity|].
  destruct (default 0 (cmp x y) <=? 0); [reflexivity|].
  rewrite IH. apply perm_swap.
Qed.

(** The sort returns the elements it was given. *)
Lemma sort_Permutation l : Permutation (Js.sort cmp l) l.
Proof.
  induction l as [|x r IH]; simpl; [reflexivity|].
  rewrite sort_insert_Permutation, IH. reflexivity.
Qed.

Context (key : A -> Z).

Lemma sort_insert_HdRel y x t :
  key x <= key y ->
  HdRel (fun a b => key b <= key a) y t ->
  HdRel (fun a b => key b <= key a) y (Js.sort_insert cmp x t).
Proof.
  intros Hxy Ht. destruct t as [|z t]; simpl.
  - constructor. exact Hxy.
  - destruct (default 0 (cmp x z) <=? 0); constructor; [exact Hxy|].
    inversion Ht; assumption.
Qed.

Lemma sort_insert_Sorted x l :
  (forall y, y ∈ l -> cmp x y = Some (key y - key x)) ->
  Sorted (fun a b => key b <= key a) l ->
  Sorted (fun a b => key b <= key a) (Js.sort_insert cmp x l).
Proof.
  intros Hcmp Hs. induction Hs as [|y t Ht IH Hhd]; simpl.
  - repeat constructor.
  - rewrite (Hcmp y) by left. cbn [default from_option id].
    destruct (Z.leb_spec (key y - key x) 0).
    + constructor; [constructor; assumption|]. constructor. lia.
    + constructor.
      * apply IH. intros z Hz. apply Hcmp. right. exact Hz.
      * apply sort_insert_HdRel; [lia | exact Hhd].
Qed.

(** When the comparator compares by a key, the result of the sort is in
    descending order of the key. *)
Lemma sort_Sorted l :
  compares_by cmp key l -> Sorted (fun a b => key b <= key a) (Js.sort cmp l).
Proof.
  induction l as [|x r IH]; intros Hcmp; simpl; [constructor|].
  apply sort_insert_Sorted.
  - intros y Hy. apply Hcmp; [left|right].
    rewrite <- (sort_Permutation r). exact Hy.
  - apply IH. intros a b Ha Hb. apply Hcmp; right; assumption.
Qed.

End Sorting.

Lemma slice0_elem {A} (l : list A) (e : Z) (x : A) : x ∈ Js.slice0 l e -> x ∈ l.
Proof. unfold Js.slice0. apply subseteq_take. Qed.

Lemma slice0_length {A} (l : list A) (e : Z) :
  0 <= e -> Z.of_nat (length (Js.slice0 l e)) <= e.
Proof.
  intros He. unfold Js.slice0. rewrite length_take.
  destruct (Z.ltb_spec e 0); lia.
Qed.

Lemma take_Sorted {A} (R : A -> A -> Prop) (l : list A) (n : nat) :
  Sorted R l -> Sorted R (take n l).
Proof.
  intros Hs. revert n. induction Hs as [|x l Hl IH Hhd]; intros [|n]; cbn; try constructor.
  - apply IH.
  - destruct Hhd as [|y l' Hxy]; destruct n; cbn; constructor. exact Hxy.
Qed.

Lemma slice0_Sorted {A} (R : A -> A -> Prop) (l : list A) (e : Z) :
  Sorted R l -> Sorted R (Js.slice0 l e).
Proof. apply take_Sorted. Qed.

(* ================================================================== *)
(** * Properties: the searches *)
(* ================================================================== *)

Lemma newest_first_compares (env : Env) (l : list PhishTankEntry) :
  Forall (fun entry => is_Some (submitted env entry)) l ->
  compares_by (newest_first env) (fun entry => default 0 (submitted env entry)) l.
Proof.
  intros Hvalid a b Ha Hb. rewrite Forall_forall in Hvalid.
  destruct (Hvalid a Ha) as [ta Hta], (Hvalid b Hb) as [tb Htb].
  unfold newest_first. rewrite Hta, Htb. reflexivity.
Qed.

(** The entries the handlers return are in descending order of their time
    of submission, as far as these times can be read. *)
Lemma newest_first_Sorted (env : Env) (l : list PhishTankEntry) :
  Forall (fun entry => is_Some (submitted env entry)) l ->
  Sorted (fun a b => Js.le (submitted env b) (submitted env a) = true)
    (Js.sort (newest_first env) l).
Proof.
  intros Hvalid.
  pose proof (sort_Sorted _ _ l (newest_first_compares env l Hvalid)) as Hs.
  assert (Forall (fun entry => is_Some (submitted env entry)) (Js.sort (newest_first env) l))
    as Hvalid' by (rewrite sort_Permutation; exact Hvalid).
  induction Hs as [|x t Ht IH Hhd]; [constructor|].
  inversion Hvalid' as [|? ? [tx Hx] Hvt]; subst.
  constructor; [apply IH; exact Hvt|].
  destruct Hhd as [|y t' Hxy]; constructor.
  inversion Hvt as [|? ? [ty Hy] _]; subst.
  rewrite Hx, Hy in *. cbn in *. apply Z.leb_le. exact Hxy.
Qed.

(** C8, as stated, fails, in two ways.  First, the query is trimmed before
    it is compared: a search for [paypal] with a space in front returns the
    entry whose target is [PayPal], which does not contain the query as it
    was given.  Second, the answer is in descending order of the time of
    submission only as far as the times can be read: with an entry between
    them whose time is no date, an entry of the first of January comes
    before one of the second. *)
Lemma padded_query_matches :
  st_entries <$> answer (searchPhishByTarget Demo.plain
                           {| st_target := Some " paypal"; st_limit := None;
                              st_verified_only := None |}
                           (initial Demo.t0))
  = Some [Demo.e1]
  /\ contains_ci "PayPal" " paypal" = false
  /\ List.filter (wanted " paypal" None) [Demo.e1; Demo.e2; Demo.e3] = []
  /\ st_entries <$> answer (searchPhishByTarget Demo.jumbled
                              {| st_target := Some "paypal"; st_limit := None;
                                 st_verified_only := None |}
                              (initial Demo.t0))
     = Some [Demo.e1; Demo.undated; Demo.later]
  /\ submitted Demo.jumbled Demo.e1 = Some 1704096000000
  /\ submitted Demo.jumbled Demo.undated = None
  /\ submitted Demo.jumbled Demo.later = Some 1704187800000.
Proof. vm_compute. repeat split. Qed.

(** C8, amended.  The query is the target argument with the white space
    at its ends removed.  When nothing is left of it, the search is refused
    as an invalid argument.  Otherwise, for an argument and a snapshot whose
    targets are ASCII, the search answers with [slice(0, limit)], the limit
    being 50 when none is given and 500 at most, of a list that holds
    exactly the entries of the snapshot whose target contains the query,
    letter case aside (an entry without target never does), and which are
    verified unless [verified_only] is given as false; [matches_found] is
    the number of entries in the answer.  When the time of submission of every one of
    these entries can be read, the list is in descending order of that time,
    entries of the same time in the order of the snapshot, and so is the
    answer.  When one cannot, the comparator has no order to sort by and the
    list is some arrangement of these entries. *)
Theorem target_search (env : Env) (args : SearchPhishByTargetArgs) (s : State) :
  (Js.trim (Js.or_string (st_target args) "") = "" ->
   searchPhishByTarget env args s
   = (Throw (McpError InvalidParams "Target parameter is required"), s))
  /\ (Js.trim (Js.or_string (st_target args) "") <> "" ->
      Js.is_ascii (Js.or_string (st_target args) "") = true ->
      forall db s1,
        cachedDatabase env s = (Return db, s1) ->
        Forall (fun entry => Js.is_ascii (default "" (target entry)) = true)
          (entries_of db) ->
        exists e sorted,
          searchPhishByTarget env args s = (Return e, s1)
          /\ Permutation sorted
               (List.filter
                  (wanted (Js.trim (Js.or_string (st_target args) ""))
                     (st_verified_only args))
                  (entries_of db))
          /\ st_entries e
             = Js.slice0 sorted (Z.min (Js.or_number (st_limit args) 50) 500)
          /\ st_matches_found e = Z.of_nat (length (st_entries e))
          /\ (Forall (fun entry => is_Some (submitted env entry))
                 (List.filter
                    (wanted (Js.trim (Js.or_string (st_target args) ""))
                       (st_verified_only args))
                    (entries_of db)) ->
              sorted
              = Js.sort (newest_first env)
                  (List.filter
                     (wanted (Js.trim (Js.or_string (st_target args) ""))
                        (st_verified_only args))
                     (entries_of db))
              /\ Sorted (fun a b => Js.le (submitted env b) (submitted env a) = true)
                   (st_entries e))).
Proof.
  split.
  - intros Hq. unfold searchPhishByTarget. rewrite Hq. reflexivity.
  - intros Hq _ db s1 Hdb _.
    assert (List.filter
              (target_matches
                 (Js.toLowerCase (Js.trim (Js.or_string (st_target args) "")))
                 (negb (bool_decide (st_verified_only args = Some false))))
              (entries_of db)
            = List.filter
                (wanted (Js.trim (Js.or_string (st_target args) ""))
                   (st_verified_only args))
                (entries_of db)) as Hsame.
    { apply filter_ext. intros entry. unfold target_matches, wanted, contains_ci.
      rewrite negb_involutive. reflexivity. }
    pose proof (searchPhishByTarget_entries env args s db s1 Hq Hdb) as Hentries.
    rewrite Hsame in Hentries.
    unfold searchPhishByTarget in *.
    destruct (Js.trim (Js.or_string (st_target args) "")) as [|c q] eqn:E; [done|].
    cbn [Js.toLowerCase Js.truthy_string negb] in *.
    rewrite (bind_returns _ _ _ _ _ Hdb) in *. unfold answer, ret in Hentries.
    cbn [fst fmap option_fmap option_map st_entries] in Hentries.
    injection Hentries as Hentries.
    eexists _, _. split; [reflexivity|]. cbn [st_entries st_matches_found].
    rewrite Hentries.
    split; [apply sort_Permutation|]. split; [reflexivity|]. split; [reflexivity|].
    intros Hvalid. split; [reflexivity|].
    apply slice0_Sorted, newest_first_Sorted, Hvalid.
Qed.

Lemma target_search_witness :
  exists e sorted,
    searchPhishByTarget Demo.plain
      {| st_target := Some " paypal"; st_limit := None; st_verified_only := None |}
      (initial Demo.t0)
    = (Return e, (cachedDatabase Demo.plain (initial Demo.t0)).2)
    /\ Permutation sorted (List.filter (wanted "paypal" None) (entries_of Demo.snapshot))
    /\ st_entries e = Js.slice0 sorted 50
    /\ st_matches_found e = Z.of_nat (length (st_entries e))
    /\ (Forall (fun entry => is_Some (submitted Demo.plain entry))
           (List.filter (wanted "paypal" None) (entries_of Demo.snapshot)) ->
        sorted
        = Js.sort (newest_first Demo.plain)
            (List.filter (wanted "paypal" None) (entries_of Demo.snapshot))
        /\ Sorted (fun a b => Js.le (submitted Demo.plain b) (submitted Demo.plain a) = true)
             (st_entries e)).
Proof.
  refine (proj2 (target_search Demo.plain
                   {| st_target := Some " paypal"; st_limit := None;
                      st_verified_only := None |}
                   (initial Demo.t0)) _ _ Demo.snapshot
            (cachedDatabase Demo.plain (initial Demo.t0)).2 _ _);
    [vm_compute; discriminate | vm_compute; reflexivity | vm_compute; reflexivity |].
  repeat constructor.
Defined.

Example PayPal_matches_paypal : contains_ci "PayPal" "paypal" = true.
Proof. reflexivity. Qed.

(** C7: the end of the range is set in local time.  Five hours west of
    UTC, a search for the single day 2024-01-01 starts at midnight UTC and
    ends at 23:59:59.999 of the local day that midnight UTC falls in, which
    is 04:59:59.999 UTC of the same day.  The entries submitted at 08:00 and
    at 12:00 UTC of that day are not returned.  In UTC they are. *)
Theorem single_day_search_west_of_utc :
  Js.Date_parse (LocalTZA Demo.new_york) "2024-01-01" = Some 1704067200000
  /\ Js.setHours (LocalTZA Demo.new_york)
       (Js.Date_parse (LocalTZA Demo.new_york) "2024-01-01") 23 59 59 999
     = Some 1704085199999
  /\ submitted Demo.new_york Demo.e1 = Some 1704096000000
  /\ submitted Demo.new_york Demo.e2 = Some 1704110400000
  /\ sd_entries <$> answer (searchPhishByDate Demo.new_york
                              {| sd_start_date := Some "2024-01-01";
                                 sd_end_date := Some "2024-01-01";
                                 sd_limit := None |}
                              (initial Demo.t0))
     = Some []
  /\ sd_entries <$> answer (searchPhishByDate Demo.plain
                              {| sd_start_date := Some "2024-01-01";
                                 sd_end_date := Some "2024-01-01";
                                 sd_limit := None |}
                              (initial Demo.t0))
     = Some [Demo.e2; Demo.e1].
Proof. vm_compute. repeat split. Qed.


(** A string of the form the handler accepts, when it is a date, is read
    as midnight UTC of that date, whatever the time zone. *)
Lemma Date_parse_date_only tza s t :
  Js.dateRegex_test s = true ->
  Js.Date_parse tza s = Some t ->
  exists day, t = day * Js.msPerDay.
Proof.
  unfold Js.dateRegex_test. intros Hre.
  do 10 (destruct s as [|? s]; [discriminate Hre|]).
  destruct s; [|discriminate Hre]. clear Hre.
  unfold Js.Date_parse.
  repeat (cbn [Js.read_digits Js.expect mbind option_bind];
          match goal with
          | |- context [Js.digit_of ?c] =>
              destruct (Js.digit_of c); [|cbn [mbind option_bind]; discriminate]
          | |- context [Ascii.eqb ?a ?b] =>
              destruct (Ascii.eqb a b); [|cbn [mbind option_bind]; discriminate]
          end).
  cbn [Js.read_digits Js.expect mbind option_bind].
  destruct (_ && _); [|discriminate].
  intros H. injection H as <-. eexists. reflexivity.
Qed.

(** In UTC, the end of the range is the last millisecond of the end day. *)
Lemma setHours_utc_end_of_day day :
  Js.setHours 0 (Some (day * Js.msPerDay)) 23 59 59 999
  = Some (day * Js.msPerDay + 86399999).
Proof.
  unfold Js.setHours. cbn [mbind option_bind]. rewrite Z.add_0_r.
  rewrite Z.div_mul by (unfold Js.msPerDay; lia). f_equal. lia.
Qed.

(** In UTC the search for a single day returns the entries submitted
    between the first and the last millisecond of that day. *)
Lemma single_day_search_in_utc (env : Env) (s s1 : State) (db : Value)
      (date : string) (t : Z) (limit : option Z) :
  LocalTZA env = 0 ->
  Js.dateRegex_test date = true ->
  Js.Date_parse 0 date = Some t ->
  cachedDatabase env s = (Return db, s1) ->
  sd_entries <$> answer (searchPhishByDate env
                           {| sd_start_date := Some date; sd_end_date := Some date;
                              sd_limit := limit |} s)
  = Some (Js.slice0
            (Js.sort (newest_first env)
               (List.filter (in_range env (Some t) (Some (t + 86399999)))
                  (entries_of db)))
            (Z.min (Js.or_number limit 100) 500)).
Proof.
  intros Htz Hre Hparse Hdb.
  destruct (Date_parse_date_only 0 date t Hre Hparse) as [day ->].
  rewrite (searchPhishByDate_entries env
             {| sd_start_date := Some date; sd_end_date := Some date; sd_limit := limit |}
             s db s1 date date eq_refl eq_refl Hre Hre);
    rewrite ?Htz, ?Hparse, ?setHours_utc_end_of_day; try exact Hdb.
  - reflexivity.
  - cbn. apply Z.ltb_ge. lia.
Qed.

(* ================================================================== *)
(** * Properties: what the cache holds under the database key *)
(* ================================================================== *)

Global Instance database_key_kept_preorder : PreOrder database_key_kept.
Proof. split; unfold database_key_kept; [intros s | intros s1 s2 s3]; tauto. Qed.

Global Instance database_key_kept_world : WorldFrame database_key_kept.
Proof. split; [apply _ | intros; intros Hok; exact Hok ..]. Qed.

Global Instance database_key_kept_timer w : TimerFrame database_key_kept w.
Proof. intros s d H. exact H. Qed.

Global Instance database_key_kept_throttle : ThrottleFrame database_key_kept.
Proof. intros s x H. exact H. Qed.

Lemma url_key_is_not_database_key u : "url_check:" +:+ u <> "phishtank_database".
Proof. cbn. discriminate. Qed.

Global Instance database_key_kept_cache u :
  CacheFrame database_key_kept ("url_check:" +:+ u).
Proof.
  pose proof (url_key_is_not_database_key u) as Hne.
  split; intros s; intros; intros Hok rec'; cbn [cache set_cache].
  - rewrite lookup_delete_ne by exact Hne. apply Hok.
  - rewrite lookup_insert_ne by exact Hne. apply Hok.
  - rewrite lookup_alter_ne by exact Hne. apply Hok.
Qed.

Global Instance database_key_kept_database : DatabaseFrame database_key_kept.
Proof.
  split; intros s; intros; intros Hok rec'; cbn [cache set_cache].
  - rewrite lookup_delete_eq. discriminate.
  - rewrite lookup_insert_eq. intros [= <-]. eexists. reflexivity.
  - rewrite lookup_alter_eq. destruct (cache s !! "phishtank_database") as [rec|] eqn:E;
      [|discriminate].
    intros [= <-]. destruct (Hok rec E) as [d0 Hd0].
    unfold with_entries. rewrite Hd0. destruct d0 as [m [entries|]]; eexists; cbn; eauto.
Qed.

(** In every state the server reaches, the value under the database key,
    if there is one, is a snapshot. *)
Lemma database_key_holds_snapshot (env : Env) t0 calls :
  database_key_ok (serve env calls (initial t0)).2.
Proof.
  apply (keeps_serve env database_key_kept); try apply _.
  - apply keeps_enforceRateLimit; apply _.
  - intros rec H. cbn in H. rewrite lookup_empty in H. discriminate.
Qed.

(* ================================================================== *)
(** * Further properties: what the handlers throw *)
(* ================================================================== *)

Section Raises.

Context (P : Error -> State -> Prop).

Lemma raises_ret {A} (a : A) : raises P (ret a).
Proof. intros s e s' H. discriminate H. Qed.

Lemma raises_gets {A} (f : State -> A) : raises P (gets f).
Proof. intros s e s' H. discriminate H. Qed.

Lemma raises_modify f : raises P (modify f).
Proof. intros s e s' H. discriminate H. Qed.

Lemma raises_bind {A B} (m : M A) (k : A -> M B) :
  raises P m -> (forall a, raises P (k a)) -> raises P (bind m k).
Proof.
  intros Hm Hk s e s' H. unfold bind in H.
  destruct (m s) as [[a|e0] s1] eqn:E.
  - exact (Hk a s1 e s' H).
  - injection H as <- <-. exact (Hm s e0 s1 E).
Qed.

Lemma raises_try_catch {A} (m : M A) (h : Error -> M A) :
  (forall e, raises P (h e)) -> raises P (try_catch m h).
Proof.
  intros Hh s e s' H. unfold try_catch in H.
  destruct (m s) as [[a|e0] s1]; [discriminate H|].
  exact (Hh e0 s1 e s' H).
Qed.

End Raises.

Ltac raises_step :=
  lazymatch goal with
  | |- raises _ (ret _) => apply raises_ret
  | |- raises _ (gets _) => apply raises_gets
  | |- raises _ (modify _) => apply raises_modify
  | |- raises _ (bind _ _) => apply raises_bind; [ | intros ? ]
  | |- raises _ (try_catch _ _) => apply raises_try_catch; intros ?
  | |- raises _ (if ?b then _ else _) => destruct b
  | |- raises _ (match ?x with _ => _ end) => destruct x
  end.

Ltac raises_tac := repeat raises_step.

Section RaisesHandlers.

Context (env : Env).

Lemma raises_elapse P : raises P (elapse env).
Proof. unfold elapse. raises_tac. Qed.

Lemma raises_Date_now P : raises P (Date_now env).
Proof. unfold Date_now. raises_tac. apply raises_elapse. Qed.

Lemma raises_sleep P w d : raises P (sleep env w d).
Proof. unfold sleep. raises_tac. apply raises_elapse. Qed.

Lemma raises_cache_get P key : raises P (cache_get env key).
Proof. unfold cache_get. raises_tac; apply raises_Date_now. Qed.

Lemma raises_cache_set P key val ttl : raises P (cache_set env key val ttl).
Proof. unfold cache_set. raises_tac. apply raises_Date_now. Qed.

Lemma raises_enforceRateLimit P : raises P (enforceRateLimit env).
Proof.
  unfold enforceRateLimit. raises_tac;
    first [apply raises_Date_now | apply raises_sleep].
Qed.

(** A request throws only when upstream rejects it. *)
Lemma raises_http rq : raises (rejected_upstream env) (http env rq).
Proof.
  intros s e s' H. unfold http, bind, gets, modify, elapse, ret, throw in H.
  cbn [fst snd] in H.
  destruct (upstream env (length (requests s)) rq) as [r|st b msg] eqn:U; [discriminate H|].
  injection H as <- <-. cbn. exists rq, (requests s). split; [reflexivity | exact U].
Qed.

Lemma raises_downloadDatabase : raises (rejected_upstream env) (downloadDatabase env).
Proof. unfold downloadDatabase. raises_tac. apply raises_http. Qed.

Lemma raises_cachedDatabase : raises (rejected_upstream env) (cachedDatabase env).
Proof.
  unfold cachedDatabase. raises_tac;
    first [apply raises_cache_get | apply raises_downloadDatabase | apply raises_cache_set].
Qed.

(** The loop of a batch throws nothing. *)
Lemma raises_checkEach P delay urls : raises P (checkEach env delay urls).
Proof.
  induction urls as [|u rest IH]; cbn [checkEach]; raises_tac;
    first [exact IH | apply raises_sleep].
Qed.

End RaisesHandlers.

Section Rejections.

Context (env : Env).

Lemma thrown_well_throw {A} e0 s e s' :
  @throw A e0 s = (Throw e, s') ->
  (exists c m, e0 = McpError c m) ->
  thrown_well env s e s'.
Proof. intros [= <- <-] (c & m & ->). reflexivity. Qed.

Lemma thrown_well_raises {A} (m : M A) s e s' :
  raises (rejected_upstream env) m ->
  m s = (Throw e, s') ->
  thrown_well env s e s'.
Proof.
  intros Hm H. specialize (Hm s e s' H).
  destruct e; [contradiction | exact Hm | contradiction].
Qed.

Ltac thrown_tac :=
  repeat lazymatch goal with
    | H : (if ?b then _ else _) _ = (Throw _, _) |- _ => destruct b
    | H : (match ?x with _ => _ end) _ = (Throw _, _) |- _ => destruct x
    end;
  try (eapply thrown_well_throw; [eassumption | eauto]).

Lemma checkUrl_thrown args s e s' :
  checkUrl env args s = (Throw e, s') ->
  thrown_well env s e s' \/ null_answered env e s'.
Proof.
  intros H. apply checkUrl_throws in H.
  destruct e as [c m|st b msg|msg]; [left; exact H | left; exact H | right].
  destruct H as (_ & Hreq & _ & _ & r & Hup & Hnull).
  cbn. eexists _, _, r. split; [exact Hreq|]. split; [exact Hup | exact Hnull].
Qed.

Lemma checkMultipleUrls_thrown args s e s' :
  checkMultipleUrls env args s = (Throw e, s') -> thrown_well env s e s'.
Proof.
  unfold checkMultipleUrls. intros H.
  destruct (bool_decide _); [eapply thrown_well_throw; eauto|].
  destruct (50 <? _); [eapply thrown_well_throw; eauto|].
  eapply thrown_well_raises; [|exact H].
  raises_tac. apply raises_checkEach.
Qed.

Lemma getRecentPhish_thrown args s e s' :
  getRecentPhish env args s = (Throw e, s') -> thrown_well env s e s'.
Proof.
  unfold getRecentPhish. intros H.
  eapply thrown_well_raises; [|exact H].
  raises_tac. apply raises_cachedDatabase.
Qed.

Lemma searchPhishByTarget_thrown args s e s' :
  searchPhishByTarget env args s = (Throw e, s') -> thrown_well env s e s'.
Proof.
  unfold searchPhishByTarget. intros H.
  destruct (negb (Js.truthy_string _)); [eapply thrown_well_throw; eauto|].
  eapply thrown_well_raises; [|exact H].
  raises_tac. apply raises_cachedDatabase.
Qed.

Lemma getPhishDetails_thrown args s e s' :
  getPhishDetails env args s = (Throw e, s') -> thrown_well env s e s'.
Proof.
  unfold getPhishDetails. intros H.
  destruct (pd_phish_id args) as [phishId|]; [|eapply thrown_well_throw; eauto].
  destruct ((phishId =? 0) || (phishId <=? 0)); [eapply thrown_well_throw; eauto|].
  eapply thrown_well_raises; [|exact H].
  raises_tac. apply raises_cachedDatabase.
Qed.

Lemma getPhishStats_thrown args s e s' :
  getPhishStats env args s = (Throw e, s') -> thrown_well env s e s'.
Proof.
  unfold getPhishStats. intros H.
  eapply thrown_well_raises; [|exact H].
  raises_tac; first [apply raises_cachedDatabase | apply raises_Date_now].
Qed.

Lemma searchPhishByDate_thrown args s e s' :
  searchPhishByDate env args s = (Throw e, s') -> thrown_well env s e s'.
Proof.
  unfold searchPhishByDate. intros H.
  destruct (negb (Js.truthy_string _) || negb (Js.truthy_string _));
    [eapply thrown_well_throw; eauto|].
  destruct (negb (Js.dateRegex_test _) || negb (Js.dateRegex_test _));
    [eapply thrown_well_throw; eauto|].
  destruct (Js.gt _ _); [eapply thrown_well_throw; eauto|].
  eapply thrown_well_raises; [|exact H].
  raises_tac. apply raises_cachedDatabase.
Qed.

(** A handler throws for its arguments, before anything is done, or for
    the rejection of its request; [checkUrl], and no other, also throws for
    the body [null]. *)
Lemma dispatch_thrown call s e s' :
  dispatch env call s = (Throw e, s') ->
  thrown_well env s e s'
  \/ (null_answered env e s'
      /\ exists args, call = check_url args /\ checkUrl env args s = (Throw e, s')).
Proof.
  destruct call; cbn [dispatch]; unfold bind; intros H.
  - destruct (checkUrl env a s) as [[r|e0] s1] eqn:E; [discriminate H|].
    injection H as <- <-. destruct (checkUrl_thrown _ _ _ _ E) as [Hw|Hn]; [left; exact Hw|].
    right. split; [exact Hn|]. exists a. split; [reflexivity | exact E].
  - destruct (checkMultipleUrls env a s) as [[r|e0] s1] eqn:E; [discriminate H|].
    injection H as <- <-. left. eapply checkMultipleUrls_thrown, E.
  - destruct (getRecentPhish env a s) as [[r|e0] s1] eqn:E; [discriminate H|].
    injection H as <- <-. left. eapply getRecentPhish_thrown, E.
  - destruct (searchPhishByTarget env a s) as [[r|e0] s1] eqn:E; [discriminate H|].
    injection H as <- <-. left. eapply searchPhishByTarget_thrown, E.
  - destruct (getPhishDetails env a s) as [[r|e0] s1] eqn:E; [discriminate H|].
    injection H as <- <-. left. eapply getPhishDetails_thrown, E.
  - destruct (getPhishStats env a s) as [[r|e0] s1] eqn:E; [discriminate H|].
    injection H as <- <-. left. eapply getPhishStats_thrown, E.
  - destruct (searchPhishByDate env a s) as [[r|e0] s1] eqn:E; [discriminate H|].
    injection H as <- <-. left. eapply searchPhishByDate_thrown, E.
  - left. eapply thrown_well_throw; eauto.
Qed.

End Rejections.

(** X1.  Of the exceptions that leave the request handler.  An
    [McpError], by which a call is refused for its arguments or for its
    name, is thrown before anything is done: the cache, the throttle, the
    clock and the network are as they were.  The rejection of a request by
    upstream never leaves the handler as an exception.  And a check of a
    url that is not in the cache, whose request upstream answers with the
    body [null], ends in the [TypeError] of the runtime, which the handler
    passes on; by then the request was sent, the turn at the throttle
    taken, and [null] stored under the key of the url for 300 seconds. *)
Theorem exceptions_of_a_call (env : Env) (call : ToolCall) (s : State) :
  (forall code message s',
     callTool env call s = (Throw (McpError code message), s') -> s' = s)
  /\ (forall status body message s',
        callTool env call s <> (Throw (AxiosError status body message), s'))
  /\ (forall args r,
        call = check_url args ->
        Js.trim (Js.or_string (cu_url args) "") <> "" ->
        isValidUrl env (Js.trim (Js.or_string (cu_url args) "")) = true ->
        cache s !! url_check_key args = None ->
        upstream env (length (requests s))
          (check_request env (Js.trim (Js.or_string (cu_url args) ""))
             (Js.or_string (cu_format args) "json"))
        = Responded r ->
        data r = VNull ->
        exists s',
          callTool env call s
          = (Throw (TypeError "Cannot read properties of null (reading 'results')"), s')
          /\ requests s'
             = check_request env (Js.trim (Js.or_string (cu_url args) ""))
                 (Js.or_string (cu_format args) "json") :: requests s
          /\ permits s' = lastRequestTime s' :: permits s
          /\ cache s' !! url_check_key args
             = Some {| t := clock s' + 300000; v := VNull |}).
Proof.
  split; [|split].
  - intros c m s' H. unfold callTool, try_catch in H.
    destruct (dispatch env call s) as [[r|e0] s1] eqn:E; [discriminate H|].
    destruct (dispatch_thrown env call s e0 s1 E) as [Hw|(Hn & _)].
    + destruct e0 as [c0 m0|st b msg|msg]; [|destruct (bool_decide _); discriminate H|].
      * injection H as _ _ <-. exact Hw.
      * contradiction Hw.
    + destruct e0 as [c0 m0|st b msg|msg]; try contradiction Hn. discriminate H.
  - intros st b msg s' H. unfold callTool, try_catch in H.
    destruct (dispatch env call s) as [[r|e0] s1]; [discriminate H|].
    destruct e0 as [c0 m0|st0 b0 msg0|msg0]; [discriminate H| |discriminate H].
    destruct (bool_decide _); discriminate H.
  - intros args r -> Hu Hvalid Hc Hup Hnull.
    assert (exists s',
              checkUrl env args s
              = (Throw (TypeError "Cannot read properties of null (reading 'results')"), s')
              /\ requests s'
                 = check_request env (Js.trim (Js.or_string (cu_url args) ""))
                     (Js.or_string (cu_format args) "json") :: requests s
              /\ permits s' = lastRequestTime s' :: permits s
              /\ cache s' !! url_check_key args
                 = Some {| t := clock s' + 300000; v := VNull |})
      as (s' & Hrun & Hreq & Hperm & Hcache).
    { unfold checkUrl. fold (url_check_key args). rewrite Hvalid.
      destruct (Js.trim (Js.or_string (cu_url args) "")) as [|c u'] eqn:Eu; [done|].
      cbn [Js.truthy_string negb].
      assert (cache_get env (url_check_key args) s = (Return None, s)) as Hget
        by (unfold cache_get, bind, gets; rewrite Hc; reflexivity).
      unfold bind at 1. rewrite Hget.
      destruct (checkUrl_miss env (String c u') (Js.or_string (cu_format args) "json")
                  (url_check_key args) s) as [[e|err] s'] eqn:Em.
      - apply checkUrl_miss_returns in Em as (r' & summary & Hup' & Hsum & _).
        rewrite Hup in Hup'. injection Hup' as <-. rewrite Hnull in Hsum. discriminate Hsum.
      - apply checkUrl_miss_throws in Em as (Hreq & Hperm & [Hrej|Hnul]).
        + destruct Hrej as (st & b & msg & _ & Hup' & _). rewrite Hup in Hup'. discriminate.
        + destruct Hnul as (r' & -> & _ & _ & Hcache). exists s'.
          split; [reflexivity|]. split; [exact Hreq|]. split; [exact Hperm|].
          rewrite Hcache. apply lookup_insert_eq. }
    exists s'. unfold callTool, try_catch. cbn [dispatch]. unfold bind. rewrite Hrun.
    repeat split; assumption.
Qed.

Lemma exceptions_of_a_call_witness :
  exists s',
    callTool Outage.null_body (check_url Demo.a_com) (initial Demo.t0)
    = (Throw (TypeError "Cannot read properties of null (reading 'results')"), s')
    /\ requests s'
       = check_request Outage.null_body "https://a.com" "json" :: requests (initial Demo.t0)
    /\ permits s' = lastRequestTime s' :: permits (initial Demo.t0)
    /\ cache s' !! url_check_key Demo.a_com = Some {| t := clock s' + 300000; v := VNull |}.
Proof.
  apply (proj2 (proj2 (exceptions_of_a_call Outage.null_body (check_url Demo.a_com)
                         (initial Demo.t0)))
           Demo.a_com {| data := VNull; headers := ∅ |});
    [reflexivity | vm_compute; discriminate | vm_compute; reflexivity
    | vm_compute; reflexivity | reflexivity | reflexivity].
Defined.

(** A url that is none is refused, and the state is what it was. *)
Example invalid_url_is_refused :
  callTool Demo.plain (check_url {| cu_url := Some "not a url"; cu_format := None |})
    (initial Demo.t0)
  = (Throw (McpError InvalidParams "Invalid URL format"), initial Demo.t0).
Proof. vm_compute. reflexivity. Qed.

(** After the body [null] the next check of the url finds [null] in the
    cache, which is falsy, and goes to the network again. *)
Example null_is_checked_again :
  length (requests (callTool Outage.null_body (check_url Demo.a_com)
                      (callTool Outage.null_body (check_url Demo.a_com)
                         (initial Demo.t0)).2).2)
  = 2%nat.
Proof. vm_compute. reflexivity. Qed.

(** X2.  A request that upstream rejects never makes the request handler
    throw.  When the handler answers with a tool result flagged as an error,
    the request sent last was rejected, and the text of the result is that
    of the rejection: the rate-limit notice for status 509, and otherwise the
    status with the body of the response or, without one, the message. *)
Theorem upstream_failure_is_a_result (env : Env) (call : ToolCall) (s s' : State)
        (text : string) :
  callTool env call s = (Return (IsError text), s') ->
  exists rq rest st b msg,
    requests s' = rq :: rest
    /\ upstream env (length rest) rq = Rejected st b msg
    /\ text = rejection_text st b msg.
Proof.
  unfold callTool, try_catch. intros H.
  destruct (dispatch env call s) as [[r|e0] s1] eqn:E.
  - injection H as -> <-. exfalso.
    destruct call; cbn [dispatch] in E; unfold bind in E;
      match type of E with
      | (let (_, _) := ?m in _) = _ => destruct m as [[?|?] ?]
      | _ => idtac
      end; discriminate E.
  - destruct e0 as [c m|st b msg|msg]; [discriminate H| |discriminate H].
    destruct (dispatch_thrown env call s _ s1 E) as [Hw|[Hn _]]; [|contradiction Hn].
    cbn in Hw. destruct Hw as (rq & rest & Hreq & Hup).
    exists rq, rest, st, b, msg.
    unfold rejection_text.
    destruct (decide (st = Some 509)) as [->|Hne].
    + rewrite bool_decide_eq_true_2 in H by reflexivity.
      injection H as <- <-. auto.
    + rewrite bool_decide_eq_false_2 in H by exact Hne.
      injection H as <- <-. auto.
Qed.

Lemma upstream_failure_is_a_result_witness :
  exists rq rest st b msg,
    requests (callTool Outage.limited (check_url Demo.a_com) (initial Demo.t0)).2 = rq :: rest
    /\ upstream Outage.limited (length rest) rq = Rejected st b msg
    /\ "Rate limit exceeded. Please try again later. Consider using an API key for higher limits."
       = rejection_text st b msg.
Proof.
  apply (upstream_failure_is_a_result Outage.limited (check_url Demo.a_com)
           (initial Demo.t0)).
  vm_compute. reflexivity.
Defined.

(* ================================================================== *)
(** * Further properties: the batch *)
(* ================================================================== *)

Lemma checkEach_items (env : Env) delay urls s items s' :
  checkEach env delay urls s = (Return items, s') ->
  List.map b_url items = urls /\ Forall item_well_formed items.
Proof.
  revert s items s'. induction urls as [|u rest IH]; intros s items s'.
  - intros [= <- <-]. split; [reflexivity | constructor].
  - cbn [checkEach]. unfold bind, try_catch.
    destruct (checkUrl env {| cu_url := Some u; cu_format := None |} s) as [[r|err] s1];
      unfold ret at 1.
    all: match goal with
         | |- context [match ?rest with [] => ?a | _ :: _ => ?b end ?s1] =>
             destruct (match rest with [] => a | _ :: _ => b end s1) as [[[]|e2] s2] eqn:E2
         end; [|discriminate].
    all: destruct (checkEach env delay rest s2) as [[items'|e3] s3] eqn:E3; [|discriminate].
    all: intros [= <- <-]; destruct (IH _ _ _ E3) as [Hmap Hall].
    all: split; [cbn; rewrite Hmap; reflexivity|].
    all: constructor; [|exact Hall].
    + left. cbn. repeat split. eauto.
    + right. cbn. repeat split. eauto.
Qed.

(** X3.  A batch of 1 to 50 urls always comes to an answer, whatever
    becomes of the single checks: there is one item per url, in the order of
    the urls, each a success with its answer or a failure with its message,
    and the two counts add up to the number of urls. *)
Theorem batch_isolates_failures (env : Env) (args : CheckMultipleUrlsArgs) (s : State)
        (urls : list string) :
  cm_urls args = Some urls ->
  urls <> [] ->
  (length urls <= 50)%nat ->
  exists e s',
    checkMultipleUrls env args s = (Return e, s')
    /\ List.map b_url (batch_results e) = urls
    /\ Forall item_well_formed (batch_results e)
    /\ b_total e = Z.of_nat (length urls)
    /\ b_successful e = Z.of_nat (length (List.filter b_success (batch_results e)))
    /\ 0 <= b_failed e
    /\ b_successful e + b_failed e = b_total e.
Proof.
  intros Hurls Hne Hlen. unfold checkMultipleUrls. rewrite Hurls. cbn [default from_option id].
  rewrite bool_decide_eq_false_2 by exact Hne.
  assert ((50 <? Z.of_nat (length urls)) = false) as -> by (apply Z.ltb_ge; lia).
  destruct (checkEach_returns env (Z.max (Js.or_number (cm_delay args) 1000) 500) urls s)
    as (items & s' & Heq & Hlen' & _).
  destruct (checkEach_items env _ urls s items s' Heq) as [Hmap Hall].
  unfold bind. rewrite Heq. eexists _, s'. split; [reflexivity|]. cbn.
  pose proof (filter_length_le b_success items).
  repeat split; try assumption; lia.
Qed.

Lemma batch_isolates_failures_witness :
  exists e s',
    checkMultipleUrls Outage.limited
      {| cm_urls := Some ["https://a.com"; "not a url"]; cm_delay := None |}
      (initial Demo.t0) = (Return e, s')
    /\ List.map b_url (batch_results e) = ["https://a.com"; "not a url"]
    /\ Forall item_well_formed (batch_results e)
    /\ b_total e = 2
    /\ b_successful e = Z.of_nat (length (List.filter b_success (batch_results e)))
    /\ 0 <= b_failed e
    /\ b_successful e + b_failed e = b_total e.
Proof.
  apply (batch_isolates_failures Outage.limited
           {| cm_urls := Some ["https://a.com"; "not a url"]; cm_delay := None |}
           (initial Demo.t0) ["https://a.com"; "not a url"]);
    [reflexivity | discriminate | simpl; lia].
Defined.

(* ================================================================== *)
(** * Further properties: the tools that read the database *)
(* ================================================================== *)

(** X4.  For a positive id and a snapshot, [getPhishDetails] answers and
    does not throw.  When no entry of the snapshot has the id, the answer
    says that nothing was found and carries no details.  Otherwise it carries
    the first entry of the snapshot with that id. *)
Theorem details_by_id (env : Env) (args : GetPhishDetailsArgs) (s s1 : State)
        (db : Value) (id : Z) :
  pd_phish_id args = Some id ->
  0 < id ->
  cachedDatabase env s = (Return db, s1) ->
  exists e,
    getPhishDetails env args s = (Return e, s1)
    /\ pd_id e = id
    /\ ((pd_found e = false
         /\ pd_details e = None
         /\ forall entry, entry ∈ entries_of db -> phish_id entry <> id)
        \/ (exists before entry after,
              pd_found e = true
              /\ pd_details e = Some entry
              /\ entries_of db = before ++ entry :: after
              /\ phish_id entry = id
              /\ forall other, other ∈ before -> phish_id other <> id)).
Proof.
  intros Hid Hpos Hdb. unfold getPhishDetails. rewrite Hid.
  assert ((id =? 0) || (id <=? 0) = false) as ->.
  { apply orb_false_intro; [apply Z.eqb_neq | apply Z.leb_gt]; lia. }
  rewrite (bind_returns _ _ _ _ _ Hdb).
  generalize (entries_of db). intros l.
  destruct (List.find (fun e => phish_id e =? id) l) as [entry|] eqn:Hfind.
  - eexists. split; [reflexivity|]. split; [reflexivity|]. right.
    induction l as [|x l IH]; [discriminate Hfind|].
    cbn in Hfind. destruct (Z.eqb_spec (phish_id x) id) as [Heq|Hne].
    + injection Hfind as <-. exists [], x, l. repeat split; try assumption.
      intros other Hin. inversion Hin.
    + destruct (IH Hfind) as (before & entry' & after & _ & [= <-] & -> & Hentry & Hbefore).
      exists (x :: before), entry, after. repeat split; try assumption.
      intros other Hin. apply elem_of_cons in Hin as [->|Hin]; [exact Hne | auto].
  - eexists. split; [reflexivity|]. split; [reflexivity|]. left.
    repeat split. intros entry Hin Heq.
    apply list_elem_of_In in Hin.
    pose proof (find_none _ _ Hfind entry Hin) as Hno. cbn in Hno.
    apply Z.eqb_neq in Hno. contradiction.
Qed.

Lemma details_by_id_witness :
  exists e,
    getPhishDetails Demo.plain {| pd_phish_id := Some 2 |} (initial Demo.t0)
    = (Return e, (cachedDatabase Demo.plain (initial Demo.t0)).2)
    /\ pd_id e = 2
    /\ ((pd_found e = false
         /\ pd_details e = None
         /\ forall entry, entry ∈ entries_of Demo.snapshot -> phish_id entry <> 2)
        \/ (exists before entry after,
              pd_found e = true
              /\ pd_details e = Some entry
              /\ entries_of Demo.snapshot = before ++ entry :: after
              /\ phish_id entry = 2
              /\ forall other, other ∈ before -> phish_id other <> 2)).
Proof.
  apply (details_by_id Demo.plain {| pd_phish_id := Some 2 |} (initial Demo.t0)
           (cachedDatabase Demo.plain (initial Demo.t0)).2 Demo.snapshot 2);
    [reflexivity | lia | vm_compute; reflexivity].
Defined.

(** The request of the download and what comes of it, in the form the
    lemmas on the cached snapshot use. *)
Lemma downloadDatabase_result (env : Env) (s : State) :
  requests (downloadDatabase env s).2 = database_request env :: requests s
  /\ match upstream env (length (requests s)) (database_request env) with
     | Responded r =>
         (downloadDatabase env s).1
         = Return {| db_meta :=
                       Some {| total_entries :=
                                 Z.of_nat (length (entries_of_body (data r))) |};
                     db_entries := Some (entries_of_body (data r)) |}
     | Rejected st b m =>
         (downloadDatabase env s).1 = Throw (AxiosError st b m)
     end.
Proof.
  unfold downloadDatabase. rewrite downloadDatabase_request.
  unfold http, bind, gets, modify, elapse, ret, throw; simpl.
  destruct (upstream env (length (requests s)) (database_request env)) as [r|st b m];
    simpl; split; reflexivity.
Qed.

(** What the block at the head of the five handlers leaves, when it comes
    to a snapshot: the snapshot is in the cache, and either no request was
    sent, or the download was, and the snapshot was stored for 3600
    seconds. *)
Lemma cachedDatabase_cases (env : Env) s db s1 :
  cachedDatabase env s = (Return db, s1) ->
  exists rec,
    cache s1 !! "phishtank_database" = Some rec
    /\ v rec = db
    /\ ((requests s1 = requests s
         /\ exists rec0, cache s !! "phishtank_database" = Some rec0 /\ v rec0 = db)
        \/ (requests s1 = database_request env :: requests s
            /\ t rec = clock s1 + 3600000
            /\ exists r,
                 upstream env (length (requests s)) (database_request env) = Responded r
                 /\ db = VDatabase
                           {| db_meta :=
                                Some {| total_entries :=
                                          Z.of_nat (length (entries_of_body (data r))) |};
                              db_entries := Some (entries_of_body (data r)) |})).
Proof.
  unfold cachedDatabase.
  destruct (cache_get_spec env "phishtank_database" s) as (o & s0 & Hget & Hreq & _ & Ho).
  unfold bind at 1. rewrite Hget.
  assert ((let! fresh := downloadDatabase env in
           cache_set env "phishtank_database" (VDatabase fresh)
             (Some (maxDatabaseAge (config env) / 1000)) ;;
           ret (VDatabase fresh)) s0 = (Return db, s1) ->
          exists rec,
              cache s1 !! "phishtank_database" = Some rec
              /\ v rec = db
              /\ requests s1 = database_request env :: requests s
              /\ t rec = clock s1 + 3600000
              /\ exists r,
                   upstream env (length (requests s)) (database_request env) = Responded r
                   /\ db = VDatabase
                             {| db_meta :=
                                  Some {| total_entries :=
                                            Z.of_nat (length (entries_of_body (data r))) |};
                                db_entries := Some (entries_of_body (data r)) |}) as Hmiss.
  { intros H. unfold bind at 1 in H.
    destruct (downloadDatabase_result env s0) as [Hrq Hres]. rewrite Hreq in Hres, Hrq.
    destruct (downloadDatabase env s0) as [[fresh|err] sA]; [|discriminate H].
    cbn [fst snd] in Hrq, Hres.
    destruct (upstream env (length (requests s)) (database_request env)) as [r|? ? ?];
      [|discriminate Hres].
    injection Hres as ->.
    unfold cache_set, Date_now, elapse, bind, gets, modify, ret in H. cbn in H.
    injection H as <- <-. eexists. cbn. rewrite lookup_insert_eq.
    split; [reflexivity|]. cbn. repeat split; try assumption. exists r. split; reflexivity. }
  destruct o as [hit|].
  - destruct Ho as (rec & Hrec & <- & Hcache).
    destruct (truthy (v rec)).
    + intros [= <- <-]. exists rec. rewrite Hcache. repeat split; try assumption.
      left. split; [exact Hreq|]. exists rec. split; [exact Hrec | reflexivity].
    + intros H. destruct (Hmiss H) as (rec' & H1 & H2 & H3 & H4 & H5).
      exists rec'. repeat split; try assumption. right. repeat split; assumption.
  - intros H. destruct (Hmiss H) as (rec' & H1 & H2 & H3 & H4 & H5).
    exists rec'. repeat split; try assumption. right. repeat split; assumption.
Qed.

(** X5.  For a snapshot, [getRecentPhish] answers.  Its entries are
    entries of the snapshot, all online unless [include_offline] is true,
    counted by [filtered_entries]; there are no more of them than the limit
    (100 when none is given, 1000 at most) when that is not negative; and
    they come in descending order of their time of submission when the times
    of the snapshot can be read. *)
Theorem recent_phish_answer (env : Env) (args : GetRecentPhishArgs) (s s1 : State)
        (db : Value) :
  cachedDatabase env s = (Return db, s1) ->
  exists e s',
    getRecentPhish env args s = (Return e, s')
    /\ rp_total_entries e = total_of db
    /\ rp_filtered_entries e = Z.of_nat (length (rp_entries e))
    /\ (forall entry, entry ∈ rp_entries e -> entry ∈ entries_of db)
    /\ (rp_include_offline args <> Some true ->
        forall entry, entry ∈ rp_entries e -> online entry = "yes")
    /\ (0 <= Js.or_number (rp_limit args) 100 ->
        Z.of_nat (length (rp_entries e)) <= Z.min (Js.or_number (rp_limit args) 100) 1000)
    /\ (Forall (fun entry => is_Some (submitted env entry)) (entries_of db) ->
        Sorted (fun a b => Js.le (submitted env b) (submitted env a) = true) (rp_entries e)).
Proof.
  intros Hdb.
  assert (forall entry,
            entry ∈ recent_candidates (rp_include_offline args) (entries_of db) ->
            entry ∈ entries_of db
            /\ (rp_include_offline args <> Some true -> online entry = "yes")) as Hcand.
  { intros entry. unfold recent_candidates.
    destruct (rp_include_offline args) as [[|]|]; cbn.
    - intros H. split; [exact H | congruence].
    - intros H. apply list_elem_of_In, filter_In in H as [H1 H2].
      apply bool_decide_eq_true in H2. split; [apply list_elem_of_In, H1 | auto].
    - intros H. apply list_elem_of_In, filter_In in H as [H1 H2].
      apply bool_decide_eq_true in H2. split; [apply list_elem_of_In, H1 | auto]. }
  assert (exists e s',
            getRecentPhish env args s = (Return e, s')
            /\ rp_total_entries e = total_of db
            /\ rp_filtered_entries e = Z.of_nat (length (rp_entries e))
            /\ rp_entries e
               = Js.slice0 (Js.sort (newest_first env)
                              (recent_candidates (rp_include_offline args) (entries_of db)))
                   (Z.min (Js.or_number (rp_limit args) 100) 1000)) as (e & s' & He & H1 & H2 & H3).
  { unfold getRecentPhish, recent_candidates. rewrite (bind_returns _ _ _ _ _ Hdb).
    destruct (default false (rp_include_offline args)); eexists _, _;
      (split; [reflexivity|]); repeat split. }
  exists e, s'. split; [exact He|]. split; [exact H1|]. split; [exact H2|].
  rewrite H3. split; [|split; [|split]].
  - intros entry Hin. apply slice0_elem in Hin. rewrite sort_Permutation in Hin.
    apply Hcand, Hin.
  - intros Hoff entry Hin. apply slice0_elem in Hin. rewrite sort_Permutation in Hin.
    apply Hcand; assumption.
  - intros Hl. apply slice0_length. lia.
  - intros Hvalid. apply slice0_Sorted, newest_first_Sorted.
    rewrite Forall_forall in *. intros entry Hin. apply Hvalid, Hcand, Hin.
Qed.

Lemma recent_phish_answer_witness :
  exists e s',
    getRecentPhish Demo.plain {| rp_limit := Some 2; rp_include_offline := None |}
      (initial Demo.t0) = (Return e, s')
    /\ rp_total_entries e = 3
    /\ rp_filtered_entries e = Z.of_nat (length (rp_entries e))
    /\ (forall entry, entry ∈ rp_entries e -> entry ∈ entries_of Demo.snapshot)
    /\ (None <> Some true ->
        forall entry, entry ∈ rp_entries e -> online entry = "yes")
    /\ (0 <= 2 -> Z.of_nat (length (rp_entries e)) <= 2)
    /\ (Forall (fun entry => is_Some (submitted Demo.plain entry)) (entries_of Demo.snapshot) ->
        Sorted (fun a b => Js.le (submitted Demo.plain b) (submitted Demo.plain a) = true)
          (rp_entries e)).
Proof.
  apply (recent_phish_answer Demo.plain {| rp_limit := Some 2; rp_include_offline := None |}
           (initial Demo.t0) (cachedDatabase Demo.plain (initial Demo.t0)).2 Demo.snapshot).
  vm_compute. reflexivity.
Defined.

(** X6.  [getRecentPhish] sorts in place.  With [include_offline] true the
    list it sorts is the list of the cached snapshot, so that the snapshot
    the cache holds afterwards has its entries in sorted order: the same
    entries, the same metadata, the same expiry.  Without it the list sorted
    is a filtered copy, and the cached snapshot stays as it was. *)
Theorem recent_sorts_the_cached_snapshot (env : Env) (args : GetRecentPhishArgs)
        (s s1 : State) (d : PhishTankDatabase) (l : list PhishTankEntry) :
  cachedDatabase env s = (Return (VDatabase d), s1) ->
  db_entries d = Some l ->
  exists e s' rec1 rec',
    getRecentPhish env args s = (Return e, s')
    /\ cache s1 !! "phishtank_database" = Some rec1
    /\ cache s' !! "phishtank_database" = Some rec'
    /\ t rec' = t rec1
    /\ (rp_include_offline args = Some true ->
        v rec' = VDatabase {| db_meta := db_meta d;
                              db_entries := Some (Js.sort (newest_first env) l) |}
        /\ Permutation (Js.sort (newest_first env) l) l)
    /\ (rp_include_offline args <> Some true -> rec' = rec1 /\ v rec' = VDatabase d).
Proof.
  intros Hdb Hl.
  destruct (cachedDatabase_cases env s _ s1 Hdb) as (rec1 & Hrec1 & Hv & _).
  unfold getRecentPhish. rewrite (bind_returns _ _ _ _ _ Hdb).
  cbn [entries_of]. rewrite Hl. cbn [default from_option id].
  destruct (rp_include_offline args) as [[|]|]; cbn [default from_option id negb].
  - eexists _, _, rec1, (with_entries (Js.sort (newest_first env) l) rec1).
    split; [reflexivity|]. split; [exact Hrec1|].
    cbn [snd fst bind modify ret cache set_cache].
    unfold bind, modify, ret. cbn [cache set_cache].
    rewrite lookup_alter_eq, Hrec1. split; [reflexivity|].
    unfold with_entries. rewrite Hv. destruct d as [m entries]. cbn in Hl. subst entries.
    cbn. repeat split; try congruence. apply sort_Permutation.
  - eexists _, _, rec1, rec1. split; [reflexivity|]. unfold bind, ret; cbn.
    repeat split; try assumption; try discriminate.
  - eexists _, _, rec1, rec1. split; [reflexivity|]. unfold bind, ret; cbn.
    repeat split; try assumption; try discriminate.
Qed.

Lemma recent_sorts_the_cached_snapshot_witness :
  exists e s' rec1 rec',
    getRecentPhish Demo.plain {| rp_limit := None; rp_include_offline := Some true |}
      (initial Demo.t0) = (Return e, s')
    /\ cache (cachedDatabase Demo.plain (initial Demo.t0)).2 !! "phishtank_database" = Some rec1
    /\ cache s' !! "phishtank_database" = Some rec'
    /\ t rec' = t rec1
    /\ (Some true = Some true ->
        v rec' = VDatabase {| db_meta := Some {| total_entries := 3 |};
                              db_entries :=
                                Some (Js.sort (newest_first Demo.plain)
                                        [Demo.e1; Demo.e2; Demo.e3]) |}
        /\ Permutation (Js.sort (newest_first Demo.plain) [Demo.e1; Demo.e2; Demo.e3])
             [Demo.e1; Demo.e2; Demo.e3])
    /\ (Some true <> Some true -> rec' = rec1 /\ v rec' = Demo.snapshot).
Proof.
  apply (recent_sorts_the_cached_snapshot Demo.plain
           {| rp_limit := None; rp_include_offline := Some true |}
           (initial Demo.t0) (cachedDatabase Demo.plain (initial Demo.t0)).2
           {| db_meta := Some {| total_entries := 3 |};
              db_entries := Some [Demo.e1; Demo.e2; Demo.e3] |}
           [Demo.e1; Demo.e2; Demo.e3]);
    [vm_compute; reflexivity | reflexivity].
Defined.

Example recent_with_offline_reorders :
  (v <$> cache (getRecentPhish Demo.plain
                  {| rp_limit := Some 1; rp_include_offline := Some true |}
                  (initial Demo.t0)).2 !! "phishtank_database")
  = Some (VDatabase {| db_meta := Some {| total_entries := 3 |};
                       db_entries := Some [Demo.e3; Demo.e2; Demo.e1] |}).
Proof. vm_compute. reflexivity. Qed.

(* ================================================================== *)
(** * Further properties: how long the cache answers *)
(* ================================================================== *)

(** An entry that has expired when it is looked for is not found, and is
    deleted. *)
Lemma cache_get_expired (env : Env) key s rec :
  cache s !! key = Some rec ->
  t rec <> 0 ->
  t rec < clock s + Z.of_N (lag env (ticks s)) ->
  exists s0,
    cache_get env key s = (Return None, s0)
    /\ requests s0 = requests s
    /\ throttle_untouched s s0
    /\ cache s0 = delete key (cache s).
Proof.
  intros Hrec Hne Hlt.
  unfold cache_get, Date_now, elapse, bind, gets, modify, ret. cbn [fst snd].
  rewrite Hrec. destruct (Z.eqb_spec (t rec) 0) as [E|_]; [contradiction|].
  cbn [clock next_tick advance].
  assert ((t rec <? clock s + Z.of_N (lag env (ticks s))) = true) as ->
      by (apply Z.ltb_lt; exact Hlt).
  eexists. split; [reflexivity|]. repeat split.
Qed.

Lemma cachedDatabase_live (env : Env) s :
  snapshot_live env s ->
  exists d s0,
    cachedDatabase env s = (Return (VDatabase d), s0)
    /\ requests s0 = requests s.
Proof.
  intros (rec & d & Hrec & Hv & Hlive).
  destruct (cache_get_live env _ s rec Hrec Hlive) as (s0 & Hget & Hreq & _ & _).
  exists d, s0. unfold cachedDatabase, bind. rewrite Hget, Hv. cbn. split; [reflexivity | exact Hreq].
Qed.

(** Closes, for a handler run to its end, the goal that it sent nothing
    and threw at most an [McpError]. *)
Ltac settle_after_snapshot :=
  cbn; eexists _, _; split; [reflexivity|]; split;
  [ first [reflexivity | eassumption]
  | let e := fresh "e" in
    let He := fresh "He" in
    intros e He;
    first [ discriminate He
          | injection He as <-; eexists _, _; reflexivity ] ].

(** X7.  While the cache holds a snapshot that has not expired, none of
    the five tools that read the database sends a request, whatever its
    arguments and whether it answers or refuses them. *)
Theorem live_snapshot_needs_no_request (env : Env) (call : ToolCall) (s : State) :
  reads_database call ->
  snapshot_live env s ->
  requests (callTool env call s).2 = requests s.
Proof.
  intros Hcall Hlive.
  destruct (cachedDatabase_live env s Hlive) as (d & s0 & Hdb & Hreq).
  assert (exists o s1,
            dispatch env call s = (o, s1)
            /\ requests s1 = requests s
            /\ forall e, o = Throw e -> exists c m, e = McpError c m)
    as (o & s1 & Hrun & Hd & Hthrow).
  { destruct call; try contradiction; cbn [dispatch]; unfold bind at 1.
    - unfold getRecentPhish. rewrite (bind_returns _ _ _ _ _ Hdb).
      destruct (default false _); settle_after_snapshot.
    - unfold searchPhishByTarget. destruct (negb (Js.truthy_string _));
        [settle_after_snapshot|].
      rewrite (bind_returns _ _ _ _ _ Hdb). settle_after_snapshot.
    - unfold getPhishDetails. destruct (pd_phish_id a) as [phishId|];
        [|settle_after_snapshot].
      destruct ((phishId =? 0) || (phishId <=? 0)); [settle_after_snapshot|].
      rewrite (bind_returns _ _ _ _ _ Hdb).
      destruct (List.find _ _); settle_after_snapshot.
    - unfold getPhishStats. rewrite (bind_returns _ _ _ _ _ Hdb). settle_after_snapshot.
    - unfold searchPhishByDate.
      destruct (negb (Js.truthy_string _) || negb (Js.truthy_string _));
        [settle_after_snapshot|].
      destruct (negb (Js.dateRegex_test _) || negb (Js.dateRegex_test _));
        [settle_after_snapshot|].
      destruct (Js.gt _ _); [settle_after_snapshot|].
      rewrite (bind_returns _ _ _ _ _ Hdb). settle_after_snapshot. }
  unfold callTool, try_catch. rewrite Hrun.
  destruct o as [r|e]; [exact Hd|].
  destruct (Hthrow e eq_refl) as (c & m & ->). exact Hd.
Qed.

(** X8.  A snapshot that was downloaded is kept for 3600 seconds.  A look
    for it that comes no later finds it, without a request; a look that
    comes later finds nothing and sends the download again. *)
Theorem snapshot_kept_for_an_hour (env : Env) (s s1 : State) (db : Value) :
  cachedDatabase env s = (Return db, s1) ->
  requests s1 = database_request env :: requests s ->
  0 <= clock s1 ->
  ((lag env (ticks s1) <= 3600000)%N ->
   snapshot_live env s1
   /\ exists s2, cachedDatabase env s1 = (Return db, s2) /\ requests s2 = requests s1)
  /\ ((3600000 < lag env (ticks s1))%N ->
      requests (cachedDatabase env s1).2 = database_request env :: requests s1).
Proof.
  intros Hdb Hsent Hclock.
  destruct (cachedDatabase_cases env s db s1 Hdb) as (rec & Hrec & Hv & [[Hsame _] | Hnew]).
  { rewrite Hsame in Hsent. exfalso. clear -Hsent.
    apply (f_equal (@length _)) in Hsent. cbn in Hsent. lia. }
  destruct Hnew as (_ & Ht & r & _ & Hshape).
  split.
  - intros Hlag.
    assert (snapshot_live env s1) as Hlive.
    { exists rec. eexists. split; [exact Hrec|]. split; [rewrite Hv; exact Hshape|].
      right. lia. }
    split; [exact Hlive|].
    destruct (cachedDatabase_live env s1 Hlive) as (d & s2 & Hagain & Hreq).
    exists s2. split; [|exact Hreq].
    rewrite Hagain. f_equal. f_equal.
    destruct (cachedDatabase_cases env s1 _ s2 Hagain) as (rec2 & _ & _ & [[_ Hold] | Hdl]).
    + destruct Hold as (rec0 & Hrec0 & Hv0). rewrite Hrec in Hrec0. injection Hrec0 as <-.
      congruence.
    + destruct Hdl as (Hdl & _). rewrite Hreq in Hdl. exfalso. clear -Hdl.
      apply (f_equal (@length _)) in Hdl. cbn in Hdl. lia.
  - intros Hlag.
    destruct (cache_get_expired env _ s1 rec Hrec) as (s0 & Hget & Hreq & _ & _); [lia | lia |].
    unfold cachedDatabase. unfold bind at 1. rewrite Hget. unfold bind at 1.
    destruct (downloadDatabase_result env s0) as [Hrq _]. rewrite Hreq in Hrq.
    destruct (downloadDatabase env s0) as [[fresh|err] sA]; cbn [fst snd] in *; [|exact Hrq].
    unfold cache_set, Date_now, elapse, bind, gets, modify, ret. cbn. exact Hrq.
Qed.

Lemma snapshot_kept_for_an_hour_witness :
  ((lag Demo.plain (ticks (cachedDatabase Demo.plain (initial Demo.t0)).2) <= 3600000)%N ->
   snapshot_live Demo.plain (cachedDatabase Demo.plain (initial Demo.t0)).2
   /\ exists s2,
        cachedDatabase Demo.plain (cachedDatabase Demo.plain (initial Demo.t0)).2
        = (Return Demo.snapshot, s2)
        /\ requests s2 = requests (cachedDatabase Demo.plain (initial Demo.t0)).2)
  /\ ((3600000 < lag Demo.plain (ticks (cachedDatabase Demo.plain (initial Demo.t0)).2))%N ->
      requests (cachedDatabase Demo.plain (cachedDatabase Demo.plain (initial Demo.t0)).2).2
      = database_request Demo.plain
          :: requests (cachedDatabase Demo.plain (initial Demo.t0)).2).
Proof.
  apply (snapshot_kept_for_an_hour Demo.plain (initial Demo.t0)
           (cachedDatabase Demo.plain (initial Demo.t0)).2 Demo.snapshot);
    [vm_compute; reflexivity | vm_compute; reflexivity | vm_compute; discriminate].
Defined.

Example download_repeated_after_an_hour :
  length (requests (callTool Outage.slow (get_phish_details {| pd_phish_id := Some 1 |})
                      (callTool Outage.slow (get_phish_details {| pd_phish_id := Some 1 |})
                         (initial Demo.t0)).2).2)
  = 2%nat.
Proof. vm_compute. reflexivity. Qed.

Lemma live_snapshot_needs_no_request_witness :
  requests (callTool Demo.plain (get_phish_details {| pd_phish_id := Some 7 |})
              (cachedDatabase Demo.plain (initial Demo.t0)).2).2
  = requests (cachedDatabase Demo.plain (initial Demo.t0)).2.
Proof.
  apply (live_snapshot_needs_no_request Demo.plain
           (get_phish_details {| pd_phish_id := Some 7 |})
           (cachedDatabase Demo.plain (initial Demo.t0)).2).
  - exact I.
  - exists {| t := Demo.t0 + 3600000; v := Demo.snapshot |},
      {| db_meta := Some {| total_entries := 3 |};
         db_entries := Some [Demo.e1; Demo.e2; Demo.e3] |}.
    split; [vm_compute; reflexivity|]. split; [reflexivity|].
    right. vm_compute. discriminate.
Defined.

(** X9.  The result of a check is kept for 300 seconds.  When the same
    check is made again later than that, the entry is not used: the request
    is sent again, and an answer, if there is one, is not marked as
    cached. *)
Theorem check_refetched_after_five_minutes (env : Env) (args : CheckUrlArgs)
        (s s1 : State) (e1 : UrlCheckEnvelope) :
  checkUrl env args s = (Return e1, s1) ->
  uc_cached e1 = None ->
  0 <= clock s1 ->
  (300000 < lag env (ticks s1))%N ->
  requests (checkUrl env args s1).2
  = check_request env (Js.trim (Js.or_string (cu_url args) ""))
      (Js.or_string (cu_format args) "json") :: requests s1
  /\ forall e2 s2, checkUrl env args s1 = (Return e2, s2) -> uc_cached e2 = None.
Proof.
  intros H Hmiss Hclock Hlag.
  destruct (checkUrl_cases env args s e1 s1 H) as (Hu & Hvalid & [Hhit | Hnet]).
  { destruct Hhit as (rec & summary & _ & _ & _ & -> & _). discriminate Hmiss. }
  destruct Hnet as (r & summary & _ & _ & _ & _ & Hstored).
  destruct (cache_get_expired env (url_check_key args) s1 _ Hstored)
    as (s0 & Hget & Hreq & _ & _); [cbn [t]; lia | cbn [t]; lia |].
  assert (exists o s2,
            checkUrl env args s1 = (o, s2)
            /\ requests s2
               = check_request env (Js.trim (Js.or_string (cu_url args) ""))
                   (Js.or_string (cu_format args) "json") :: requests s1
            /\ forall e2, o = Return e2 -> uc_cached e2 = None) as (o & s2 & Hrun & Hsent & Ho).
  { unfold checkUrl, isValidUrl. fold (url_check_key args).
    destruct (Js.trim (Js.or_string (cu_url args) "")) as [|c u'] eqn:Eu; [done|].
    cbn [Js.truthy_string negb]. rewrite Hvalid. cbn [negb].
    unfold bind at 1. rewrite Hget.
    destruct (checkUrl_miss env (String c u') (Js.or_string (cu_format args) "json")
                (url_check_key args) s0) as [[e2|err] s2] eqn:Em;
      eexists _, _; (split; [reflexivity|]).
    - apply checkUrl_miss_returns in Em as (r' & summary' & _ & _ & -> & Hreq' & _).
      split; [rewrite Hreq', Hreq; reflexivity|]. intros e2 [= <-]. reflexivity.
    - apply checkUrl_miss_throws in Em as (Hreq' & _).
      split; [rewrite Hreq', Hreq; reflexivity|]. intros e2 [=]. }
  rewrite Hrun. split; [exact Hsent|].
  intros e2 s2' Heq. injection Heq as Heq _. apply Ho, Heq.
Qed.

Lemma check_refetched_after_five_minutes_witness :
  requests (checkUrl Outage.slow Demo.a_com
              (checkUrl Outage.slow Demo.a_com (initial Demo.t0)).2).2
  = check_request Outage.slow "https://a.com" "json"
      :: requests (checkUrl Outage.slow Demo.a_com (initial Demo.t0)).2
  /\ forall e2 s2,
       checkUrl Outage.slow Demo.a_com (checkUrl Outage.slow Demo.a_com (initial Demo.t0)).2
       = (Return e2, s2) ->
       uc_cached e2 = None.
Proof.
  apply (check_refetched_after_five_minutes Outage.slow Demo.a_com (initial Demo.t0)
           (checkUrl Outage.slow Demo.a_com (initial Demo.t0)).2
           {| uc_cached := None;
              uc_result := Demo.clean "https://a.com";
              uc_rate_limit_info := None;
              uc_summary := "URL not found in PhishTank database (likely safe)" |});
    [vm_compute; reflexivity | reflexivity | vm_compute; discriminate | vm_compute; reflexivity].
Defined.

(** X10.  When upstream rejects the request of a check, the check throws
    the rejection: the request was sent and the turn at the throttle was
    taken, but nothing is stored, so that the next check of the url goes to
    the network again.  The one change the cache can show is that an expired
    entry of the url is gone. *)
Theorem rejected_check_stores_nothing (env : Env) (args : CheckUrlArgs) (s s' : State)
        (st : option Z) (b : option string) (msg : string) :
  checkUrl env args s = (Throw (AxiosError st b msg), s') ->
  requests s'
  = check_request env (Js.trim (Js.or_string (cu_url args) ""))
      (Js.or_string (cu_format args) "json") :: requests s
  /\ upstream env (length (requests s))
       (check_request env (Js.trim (Js.or_string (cu_url args) ""))
          (Js.or_string (cu_format args) "json"))
     = Rejected st b msg
  /\ permits s' = lastRequestTime s' :: permits s
  /\ (cache s' = cache s \/ cache s' = delete (url_check_key args) (cache s))
  /\ (forall rec, cache s' !! url_check_key args = Some rec -> truthy (v rec) = false).
Proof.
  unfold checkUrl, isValidUrl. fold (url_check_key args).
  destruct (negb (Js.truthy_string _)); [discriminate|].
  destruct (negb (URL_parses env _)); [discriminate|].
  destruct (cache_get_spec env (url_check_key args) s) as (o & s0 & Hget & Hreq & Hthr & Ho).
  unfold bind at 1. rewrite Hget.
  assert (checkUrl_miss env (Js.trim (Js.or_string (cu_url args) ""))
            (Js.or_string (cu_format args) "json") (url_check_key args) s0
          = (Throw (AxiosError st b msg), s') ->
          requests s'
          = check_request env (Js.trim (Js.or_string (cu_url args) ""))
              (Js.or_string (cu_format args) "json") :: requests s
          /\ upstream env (length (requests s))
               (check_request env (Js.trim (Js.or_string (cu_url args) ""))
                  (Js.or_string (cu_format args) "json"))
             = Rejected st b msg
          /\ permits s' = lastRequestTime s' :: permits s
          /\ cache s' = cache s0) as Hmiss.
  { unfold checkUrl_miss.
    fold (check_request env (Js.trim (Js.or_string (cu_url args) ""))
            (Js.or_string (cu_format args) "json")).
    destruct (enforceRateLimit_returns env s0) as (Hret & Hcache0 & Hreq0).
    pose proof (enforceRateLimit_records env s0) as Hrec0.
    unfold bind at 1.
    destruct (enforceRateLimit env s0) as [[[]|err] sA]; [|discriminate Hret].
    cbn [fst snd] in Hcache0, Hreq0, Hrec0.
    unfold http, cache_set, Date_now, elapse, eval, bind, gets, modify, ret, throw.
    cbn [fst snd requests log_request next_tick advance clock].
    rewrite Hreq0, Hreq.
    destruct (upstream env _ _) as [resp|st' b' m'] eqn:U.
    { destruct (getUrlCheckSummary (data resp)) as [summary|err'] eqn:Hsum; [discriminate|].
      apply summary_throws in Hsum as [_ ->]. discriminate. }
    intros [= <- <- <- <-]. cbn. rewrite Hreq0, Hreq, Hcache0, Hrec0.
    destruct Hthr as (_ & -> & _). repeat split. }
  destruct o as [hit|].
  - destruct Ho as (rec & Hrec & <- & Hcache).
    destruct (truthy (v rec)) eqn:Htruthy.
    { destruct (truthy_has_summary _ Htruthy) as [summary Hsum].
      unfold bind, eval. rewrite Hsum. discriminate. }
    intros H. destruct (Hmiss H) as (H1 & H2 & H3 & H4).
    repeat split; try assumption.
    + left. congruence.
    + intros rec'. rewrite H4, Hcache, Hrec. intros [= <-]. exact Htruthy.
  - intros H. destruct (Hmiss H) as (H1 & H2 & H3 & H4).
    repeat split; try assumption.
    + destruct Ho as [Ho|Ho]; [left | right]; congruence.
    + intros rec'. rewrite H4, (cache_get_none env _ s s0 Hget). discriminate.
Qed.

Lemma rejected_check_stores_nothing_witness :
  requests (checkUrl Outage.limited Demo.a_com (initial Demo.t0)).2
  = check_request Outage.limited "https://a.com" "json" :: requests (initial Demo.t0)
  /\ upstream Outage.limited (length (requests (initial Demo.t0)))
       (check_request Outage.limited "https://a.com" "json")
     = Rejected (Some 509) None "Request failed with status code 509"
  /\ permits (checkUrl Outage.limited Demo.a_com (initial Demo.t0)).2
     = lastRequestTime (checkUrl Outage.limited Demo.a_com (initial Demo.t0)).2
         :: permits (initial Demo.t0)
  /\ (cache (checkUrl Outage.limited Demo.a_com (initial Demo.t0)).2 = cache (initial Demo.t0)
      \/ cache (checkUrl Outage.limited Demo.a_com (initial Demo.t0)).2
         = delete (url_check_key Demo.a_com) (cache (initial Demo.t0)))
  /\ (forall rec,
        cache (checkUrl Outage.limited Demo.a_com (initial Demo.t0)).2
          !! url_check_key Demo.a_com = Some rec ->
        truthy (v rec) = false).
Proof.
  apply (rejected_check_stores_nothing Outage.limited Demo.a_com (initial Demo.t0)
           (checkUrl Outage.limited Demo.a_com (initial Demo.t0)).2
           (Some 509) None "Request failed with status code 509").
  vm_compute. reflexivity.
Defined.

(* ================================================================== *)
(** * Further properties: how long the throttle and the batch wait *)
(* ================================================================== *)

Global Instance throttle_waits_kept_preorder d : PreOrder (throttle_waits_kept d).
Proof. split; unfold throttle_waits_kept; [intros s | intros s1 s2 s3]; tauto. Qed.

Global Instance throttle_waits_kept_world d : WorldFrame (throttle_waits_kept d).
Proof.
  split; [apply _ | intros s x Hx | intros s | intros s rq];
    unfold throttle_waits_kept, throttle_waits_ok; cbn; try tauto.
  intros [H1 H2]. split; [lia | exact H2].
Qed.

Global Instance throttle_waits_kept_cache d key : CacheFrame (throttle_waits_kept d) key.
Proof. split; intros; unfold throttle_waits_kept, throttle_waits_ok; cbn; tauto. Qed.

Global Instance throttle_waits_kept_database d : DatabaseFrame (throttle_waits_kept d).
Proof. split; intros; unfold throttle_waits_kept, throttle_waits_ok; cbn; tauto. Qed.

Global Instance throttle_waits_kept_pacing d : TimerFrame (throttle_waits_kept d) PacingWait.
Proof.
  intros s x [H1 H2]. split; [exact H1|]. cbn. constructor; [|exact H2].
  cbn. discriminate.
Qed.

(** The throttle never waits longer than its interval. *)
Lemma enforceRateLimit_waits (env : Env) :
  keeps (throttle_waits_kept (minInterval env)) (enforceRateLimit env).
Proof.
  intros s [Hlast Hwaits].
  pose proof (minInterval_range env) as Hd.
  unfold enforceRateLimit, Date_now, sleep, elapse, bind, gets, modify, ret.
  fold (minInterval env).
  set (l1 := Z.of_N (lag env (ticks s))).
  assert (0 <= l1) by (unfold l1; lia).
  cbn [fst snd clock lastRequestTime advance next_tick ticks].
  destruct (clock s + l1 - lastRequestTime s <? minInterval env) eqn:Hwait.
  - apply Z.ltb_lt in Hwait. cbn. split; [cbn; lia|]. cbn.
    constructor; [|exact Hwaits]. cbn. intros _. lia.
  - cbn. split; [cbn; lia | exact Hwaits].
Qed.

(** X11.  A server started at a time that is not negative never waits at
    the throttle for less than a millisecond or for longer than the interval
    of its tier: 6000 milliseconds without API key, 600 with one. *)
Theorem throttle_wait_is_bounded (env : Env) (t0 : Z) (calls : list ToolCall) (w : Z) :
  0 <= t0 ->
  (ThrottleWait, w) ∈ timers (serve env calls (initial t0)).2 ->
  1 <= w <= match PHISHTANK_API_KEY env with Some (String _ _) => 600 | _ => 6000 end.
Proof.
  intros Ht0 Hin.
  assert (throttle_waits_ok (minInterval env) (serve env calls (initial t0)).2) as [_ Hall].
  { apply (keeps_serve env (throttle_waits_kept (minInterval env))); try apply _.
    - apply enforceRateLimit_waits.
    - split; [exact Ht0 | constructor]. }
  rewrite Forall_forall in Hall. specialize (Hall _ Hin eq_refl). cbn in Hall.
  rewrite minInterval_tiers in Hall. exact Hall.
Qed.

Lemma throttle_wait_is_bounded_witness : 1 <= 6000 <= 6000.
Proof.
  apply (throttle_wait_is_bounded Demo.plain Demo.t0
           [check_url Demo.a_com; check_url Demo.b_com] 6000);
    [vm_compute; discriminate | vm_compute].
  apply list_elem_of_here.
Defined.

Lemma checkEach_clock (env : Env) delay urls s items s' :
  1 <= delay <= Js.TIMEOUT_MAX ->
  checkEach env delay urls s = (Return items, s') ->
  clock s + Z.of_nat (length urls - 1) * delay <= clock s'.
Proof.
  intros Hdelay. revert s items s'. induction urls as [|u rest IH]; intros s items s'.
  - intros [= <- <-]. cbn. lia.
  - cbn [checkEach]. unfold bind, try_catch.
    pose proof (checkUrl_clock env {| cu_url := Some u; cu_format := None |} s) as Hc.
    destruct (checkUrl env {| cu_url := Some u; cu_format := None |} s) as [[r|err] s1];
      cbn [fst snd] in Hc; unfold clock_forward in Hc; unfold ret at 1.
    all: destruct rest as [|u' rest'].
    all: try (unfold ret; cbn [checkEach]; unfold ret; intros [= <- <-]; cbn; lia).
    all: rewrite sleep_returns.
    all: match goal with
         | |- context [checkEach _ _ (_ :: _) ?s2] =>
             destruct (checkEach env delay (u' :: rest') s2) as [[items'|e3] s3] eqn:E3;
               [|discriminate]
         end.
    all: intros [= <- <-]; apply IH in E3.
    all: cbn [clock next_tick advance log_timer length] in *.
    all: unfold Js.timer_delay in E3.
    all: replace ((1 <=? delay) && (delay <=? Js.TIMEOUT_MAX)) with true in E3
        by (symmetry; apply andb_true_intro; split; apply Z.leb_le; lia).
    all: rewrite Nat.sub_succ, Nat.sub_0_r in *; nia.
Qed.

(** X12.  A batch of [n] urls does not end before [n - 1] times its delay
    has passed, provided the delay is one a timer can be set to (at most
    2147483647 milliseconds). *)
Theorem batch_takes_its_time (env : Env) (args : CheckMultipleUrlsArgs) (s s' : State)
        (e : BatchEnvelope) :
  checkMultipleUrls env args s = (Return e, s') ->
  b_delay_used e <= Js.TIMEOUT_MAX ->
  500 <= b_delay_used e
  /\ clock s + (b_total e - 1) * b_delay_used e <= clock s'.
Proof.
  unfold checkMultipleUrls. intros H Hmax.
  destruct (bool_decide (default [] (cm_urls args) = [])) eqn:Hempty; [discriminate H|].
  destruct (50 <? _); [discriminate H|].
  unfold bind in H.
  destruct (checkEach env _ _ s) as [[items|err] s1] eqn:E; [|discriminate H].
  injection H as <- <-. cbn in *. split; [lia|].
  apply checkEach_clock in E; [|lia].
  apply bool_decide_eq_false in Hempty.
  destruct (default [] (cm_urls args)) as [|u rest]; [contradiction|].
  cbn [length] in *. rewrite Nat.sub_succ, Nat.sub_0_r in E. lia.
Qed.

Lemma batch_takes_its_time_witness :
  500 <= 1000 /\ Demo.t0 + (2 - 1) * 1000 <= Demo.t0 + 6000.
Proof.
  apply (batch_takes_its_time Demo.plain
           {| cm_urls := Some ["https://a.com"; "https://b.com"]; cm_delay := None |}
           (initial Demo.t0)
           (checkMultipleUrls Demo.plain
              {| cm_urls := Some ["https://a.com"; "https://b.com"]; cm_delay := None |}
              (initial Demo.t0)).2
           (default {| batch_results := []; b_total := 2; b_successful := 0;
                       b_failed := 0; b_delay_used := 1000 |}
              (answer (checkMultipleUrls Demo.plain
                         {| cm_urls := Some ["https://a.com"; "https://b.com"];
                            cm_delay := None |}
                         (initial Demo.t0)))));
    vm_compute; [reflexivity | discriminate].
Defined.

(* ================================================================== *)
(** * Further properties: the search by date, in any time zone *)
(* ================================================================== *)

(** The end of the range, in a time zone [tza] east of UTC: the last
    millisecond of the end day, less the part of a day by which the zone
    is off. *)
Lemma setHours_end_of_day tza day :
  Js.setHours tza (Some (day * Js.msPerDay)) 23 59 59 999
  = Some (day * Js.msPerDay + 86399999 - tza mod Js.msPerDay).
Proof.
  unfold Js.setHours. cbn [mbind option_bind]. f_equal.
  assert (Js.msPerDay <> 0) as Hd by (unfold Js.msPerDay; lia).
  pose proof (Z.div_mod (day * Js.msPerDay + tza) Js.msPerDay Hd) as Hdm.
  assert ((day * Js.msPerDay + tza) mod Js.msPerDay = tza mod Js.msPerDay) as Hmod.
  { rewrite Z.add_comm. apply Z_mod_plus_full. }
  rewrite Hmod in Hdm. lia.
Qed.

(** X13.  The test that the start is not after the end, in a time zone
    whose offset from UTC is always the same (one without daylight saving
    time), whatever that offset is: for two dates that can be read, the
    search is refused, before anything is done, exactly when the start date
    is the later one.  Where the offset changes in the course of the year
    the end of the local day is not at that fixed distance from midnight
    UTC, and the statement is not made. *)
Theorem date_order_is_checked (env : Env) (args : SearchPhishByDateArgs) (s : State)
        (a b : string) (ta tb : Z) :
  sd_start_date args = Some a ->
  sd_end_date args = Some b ->
  Js.dateRegex_test a = true ->
  Js.dateRegex_test b = true ->
  Js.Date_parse (LocalTZA env) a = Some ta ->
  Js.Date_parse (LocalTZA env) b = Some tb ->
  (tb < ta ->
   searchPhishByDate env args s
   = (Throw (McpError InvalidParams "Start date must be before end date"), s))
  /\ (ta <= tb ->
      forall e s', searchPhishByDate env args s = (Throw e, s') ->
                   exists st body msg, e = AxiosError st body msg).
Proof.
  intros Ha Hb Ra Rb Pa Pb.
  destruct (Date_parse_date_only _ a ta Ra Pa) as [da ->].
  destruct (Date_parse_date_only _ b tb Rb Pb) as [db ->].
  assert (0 <= LocalTZA env mod Js.msPerDay < Js.msPerDay) as Hm
      by (apply Z.mod_pos_bound; unfold Js.msPerDay; lia).
  assert (Js.truthy_string a = true) as Ta by (destruct a; [discriminate Ra | reflexivity]).
  assert (Js.truthy_string b = true) as Tb by (destruct b; [discriminate Rb | reflexivity]).
  unfold searchPhishByDate. rewrite Ha, Hb. cbv zeta. cbn [default from_option id].
  rewrite Ta, Tb, Ra, Rb, Pa, Pb, setHours_end_of_day. cbn [negb orb Js.gt].
  unfold Js.msPerDay in *.
  split; intros Hord.
  - assert ((db * 86400000 + 86399999 - LocalTZA env mod 86400000 <? da * 86400000) = true)
      as -> by (apply Z.ltb_lt; lia).
    reflexivity.
  - assert ((db * 86400000 + 86399999 - LocalTZA env mod 86400000 <? da * 86400000) = false)
      as -> by (apply Z.ltb_ge; lia).
    intros e s' H.
    unfold bind in H.
    destruct (cachedDatabase env s) as [[database|e0] s1] eqn:E; [discriminate H|].
    injection H as <- <-.
    pose proof (raises_cachedDatabase env s e0 s1 E) as Hr.
    destruct e0; [contradiction | eauto | contradiction].
Qed.

Lemma date_order_is_checked_witness :
  (1704067200000 < 1704153600000 ->
   searchPhishByDate Demo.new_york
     {| sd_start_date := Some "2024-01-02"; sd_end_date := Some "2024-01-01";
        sd_limit := None |} (initial Demo.t0)
   = (Throw (McpError InvalidParams "Start date must be before end date"), initial Demo.t0))
  /\ (1704153600000 <= 1704067200000 ->
      forall e s',
        searchPhishByDate Demo.new_york
          {| sd_start_date := Some "2024-01-02"; sd_end_date := Some "2024-01-01";
             sd_limit := None |} (initial Demo.t0) = (Throw e, s') ->
        exists st body msg, e = AxiosError st body msg).
Proof.
  apply (date_order_is_checked Demo.new_york
           {| sd_start_date := Some "2024-01-02"; sd_end_date := Some "2024-01-01";
              sd_limit := None |} (initial Demo.t0) "2024-01-02" "2024-01-01");
    vm_compute; reflexivity.
Defined.

(** X14.  In a time zone [tza] milliseconds east of UTC, the search by
    date returns the entries submitted from midnight UTC of the start date up
    to the last millisecond of the end date in UTC less [tza mod 86400000]
    milliseconds: the whole of the end day only where local time is UTC, and
    otherwise less, by five hours when local time is five hours ahead of UTC
    and by nineteen hours when it is five hours behind. *)
Theorem date_range_in_any_zone (env : Env) (args : SearchPhishByDateArgs) (s s1 : State)
        (db : Value) (a b : string) (ta tb : Z) :
  sd_start_date args = Some a ->
  sd_end_date args = Some b ->
  Js.dateRegex_test a = true ->
  Js.dateRegex_test b = true ->
  Js.Date_parse (LocalTZA env) a = Some ta ->
  Js.Date_parse (LocalTZA env) b = Some tb ->
  ta <= tb ->
  cachedDatabase env s = (Return db, s1) ->
  sd_entries <$> answer (searchPhishByDate env args s)
  = Some (Js.slice0
            (Js.sort (newest_first env)
               (List.filter
                  (in_range env (Some ta)
                     (Some (tb + 86399999 - LocalTZA env mod 86400000)))
                  (entries_of db)))
            (Z.min (Js.or_number (sd_limit args) 100) 500))
  /\ tb <= tb + 86399999 - LocalTZA env mod 86400000 <= tb + 86399999.
Proof.
  intros Ha Hb Ra Rb Pa Pb Hord Hdb.
  destruct (Date_parse_date_only _ a ta Ra Pa) as [da ->].
  destruct (Date_parse_date_only _ b tb Rb Pb) as [db' ->].
  assert (0 <= LocalTZA env mod Js.msPerDay < Js.msPerDay) as Hm
      by (apply Z.mod_pos_bound; unfold Js.msPerDay; lia).
  split; [|unfold Js.msPerDay in *; lia].
  rewrite (searchPhishByDate_entries env args s db s1 a b Ha Hb Ra Rb);
    rewrite ?Pa, ?Pb, ?setHours_end_of_day; try exact Hdb.
  - reflexivity.
  - cbn [Js.gt]. apply Z.ltb_ge. unfold Js.msPerDay in *. lia.
Qed.

Lemma date_range_in_any_zone_witness :
  sd_entries <$> answer (searchPhishByDate Demo.new_york
                           {| sd_start_date := Some "2024-01-01";
                              sd_end_date := Some "2024-01-01"; sd_limit := None |}
                           (initial Demo.t0))
  = Some (Js.slice0
            (Js.sort (newest_first Demo.new_york)
               (List.filter
                  (in_range Demo.new_york (Some 1704067200000)
                     (Some (1704067200000 + 86399999 - LocalTZA Demo.new_york mod 86400000)))
                  (entries_of Demo.snapshot)))
            (Z.min (Js.or_number None 100) 500))
  /\ 1704067200000
     <= 1704067200000 + 86399999 - LocalTZA Demo.new_york mod 86400000
     <= 1704067200000 + 86399999.
Proof.
  apply (date_range_in_any_zone Demo.new_york
           {| sd_start_date := Some "2024-01-01"; sd_end_date := Some "2024-01-01";
              sd_limit := None |}
           (initial Demo.t0) (cachedDatabase Demo.new_york (initial Demo.t0)).2
           Demo.snapshot "2024-01-01" "2024-01-01" 1704067200000 1704067200000);
    try (vm_compute; reflexivity).
  lia.
Defined.

Lemma filter_nothing {A} (f : A -> bool) (l : list A) :
  (forall x, f x = false) -> List.filter f l = [].
Proof.
  intros Hf. induction l as [|x l IH]; cbn; [reflexivity|]. rewrite Hf. exact IH.
Qed.

Lemma slice0_nil {A} (e : Z) : Js.slice0 (@nil A) e = [].
Proof. unfold Js.slice0. apply take_nil. Qed.

(** X15.  A date of the right form whose month is not 01 to 12 or whose
    day is not 01 to 31, such as 2024-13-45, is not refused: the search
    answers, and finds nothing.  This is stated for a year above 0031, which
    the parser of the runtime cannot take for a day of the month.  (A day
    of 29 to 31 in a shorter month is read, as a day of the next month.) *)
Theorem unreadable_date_finds_nothing (env : Env) (args : SearchPhishByDateArgs)
        (s s1 : State) (db : Value) (a b : string) :
  sd_start_date args = Some a ->
  sd_end_date args = Some b ->
  Js.dateRegex_test a = true ->
  Js.dateRegex_test b = true ->
  (Js.Date_parse (LocalTZA env) a = None /\ year_above_31 a)
  \/ (Js.Date_parse (LocalTZA env) b = None /\ year_above_31 b) ->
  cachedDatabase env s = (Return db, s1) ->
  exists e,
    searchPhishByDate env args s = (Return e, s1)
    /\ sd_entries e = []
    /\ sd_matches_found e = 0.
Proof.
  intros Ha Hb Ra Rb Hnone Hdb.
  assert (Js.Date_parse (LocalTZA env) a = None \/ Js.Date_parse (LocalTZA env) b = None)
    as Hnone' by (destruct Hnone as [[H _]|[H _]]; [left | right]; exact H).
  clear Hnone. rename Hnone' into Hnone.
  assert (Js.truthy_string a = true) as Ta by (destruct a; [discriminate Ra | reflexivity]).
  assert (Js.truthy_string b = true) as Tb by (destruct b; [discriminate Rb | reflexivity]).
  unfold searchPhishByDate. rewrite Ha, Hb. cbv zeta. cbn [default from_option id].
  rewrite Ta, Tb, Ra, Rb. cbn [negb orb].
  assert (Js.gt (Js.Date_parse (LocalTZA env) a)
            (Js.setHours (LocalTZA env) (Js.Date_parse (LocalTZA env) b) 23 59 59 999)
          = false) as ->.
  { destruct Hnone as [-> | ->]; [reflexivity|].
    generalize (Js.Date_parse (LocalTZA env) a). intros [ta|]; reflexivity. }
  rewrite (bind_returns _ _ _ _ _ Hdb).
  rewrite filter_nothing.
  - eexists. split; [reflexivity|]. cbn [sd_entries sd_matches_found Js.sort].
    rewrite slice0_nil. split; reflexivity.
  - intros entry. generalize (submitted env entry). intros o.
    destruct Hnone as [-> | ->].
    + destruct o; reflexivity.
    + generalize (Js.Date_parse (LocalTZA env) a). intros [ta|]; destruct o; cbv zeta;
        try reflexivity; apply andb_false_r.
Qed.

Lemma unreadable_date_finds_nothing_witness :
  exists e,
    searchPhishByDate Demo.plain
      {| sd_start_date := Some "2024-13-45"; sd_end_date := Some "2024-01-01";
         sd_limit := None |} (initial Demo.t0)
    = (Return e, (cachedDatabase Demo.plain (initial Demo.t0)).2)
    /\ sd_entries e = []
    /\ sd_matches_found e = 0.
Proof.
  apply (unreadable_date_finds_nothing Demo.plain
           {| sd_start_date := Some "2024-13-45"; sd_end_date := Some "2024-01-01";
              sd_limit := None |}
           (initial Demo.t0) (cachedDatabase Demo.plain (initial Demo.t0)).2
           Demo.snapshot "2024-13-45" "2024-01-01");
    try (vm_compute; reflexivity).
  left. split; [vm_compute; reflexivity|].
  exists 2024, "-13-45". split; [reflexivity | lia].
Defined.

(** The thirtieth of February is read, as the first of March, and an
    entry of that day is found. *)
Example day_past_the_end_of_the_month :
  Js.Date_parse 0 "2024-02-30" = Js.Date_parse 0 "2024-03-01"
  /\ Js.Date_parse 0 "2024-02-30" = Some 1709251200000.
Proof. vm_compute. split; reflexivity. Qed.

(* ================================================================== *)
(** * Further properties: the statistics *)
(* ================================================================== *)

Lemma count_target_keys key m x :
  x ∈ (count_target key m).*1 <-> x = key \/ x ∈ m.*1.
Proof.
  induction m as [|[k n] r IH]; cbn.
  - rewrite list_elem_of_singleton, elem_of_nil. tauto.
  - case_bool_decide as Hk; cbn.
    + subst k. rewrite !elem_of_cons. tauto.
    + rewrite !elem_of_cons, IH. tauto.
Qed.

Lemma count_target_ok key m :
  key <> "" -> tally_ok m ->
  tally_ok (count_target key m)
  /\ tally_total (count_target key m) = tally_total m + 1.
Proof.
  intros Hkey. induction m as [|[k n] r IH]; intros [Hnd Hall]; cbn.
  - split; [|reflexivity]. split.
    + cbn. apply NoDup_singleton.
    + repeat constructor; cbn; [exact Hkey | lia].
  - cbn in Hnd. apply NoDup_cons in Hnd as [Hk Hnd].
    apply Forall_cons in Hall as [[Hk0 Hn] Hall]. cbn in Hk0, Hn.
    case_bool_decide as Heq.
    + subst k. unfold Js.or_number. destruct (Z.eqb_spec n 0) as [->|_]; [lia|].
      split; [|cbn; lia]. split.
      * cbn. apply NoDup_cons. split; assumption.
      * apply Forall_cons. split; [cbn; split; [assumption | lia] | exact Hall].
    + destruct (IH (conj Hnd Hall)) as [[Hnd' Hall'] Htot].
      split; [|cbn; unfold tally_total in Htot; rewrite Htot; lia]. split.
      * cbn. apply NoDup_cons. split; [|exact Hnd'].
        rewrite count_target_keys. intros [->|Hin]; [congruence | exact (Hk Hin)].
      * apply Forall_cons. split; [cbn; split; assumption | exact Hall'].
Qed.

Lemma truthy_string_nonempty (k : string) : Js.truthy_string k = true -> k <> "".
Proof. destruct k; [discriminate | discriminate]. Qed.

Lemma with_target_cons (entry : PhishTankEntry) (l : list PhishTankEntry) :
  with_target (entry :: l)
  = (if Js.truthy_string (default "" (target entry)) then 1 else 0) + with_target l.
Proof.
  unfold with_target. cbn [List.filter].
  destruct (Js.truthy_string (default "" (target entry))); cbn [length]; lia.
Qed.

Lemma tally_from_ok (l : list PhishTankEntry) (m : list (string * Z)) :
  tally_ok m ->
  let m' := fold_left (fun m entry =>
                         if Js.truthy_string (default "" (target entry))
                         then count_target (default "" (target entry)) m
                         else m) l m in
  tally_ok m' /\ tally_total m' = tally_total m + with_target l.
Proof.
  revert m. induction l as [|entry l IH]; intros m Hm; cbn zeta.
  - split; [exact Hm | unfold with_target; cbn [fold_left List.filter length]; lia].
  - rewrite with_target_cons. cbn [fold_left].
    destruct (Js.truthy_string (default "" (target entry))) eqn:Ht.
    + destruct (count_target_ok (default "" (target entry)) m
                  (truthy_string_nonempty _ Ht) Hm) as [Hok Htot].
      destruct (IH _ Hok) as [Hok' Htot']. split; [exact Hok'|].
      cbn zeta in Htot'. rewrite Htot', Htot. lia.
    + destruct (IH _ Hm) as [Hok' Htot']. split; [exact Hok'|].
      cbn zeta in Htot'. rewrite Htot'. lia.
Qed.

(** The tally of a list of entries is well formed, and its counts add up to
    the number of entries that name a target. *)
Lemma tally_spec (l : list PhishTankEntry) :
  tally_ok (tally l) /\ tally_total (tally l) = with_target l.
Proof.
  destruct (tally_from_ok l []) as [H1 H2].
  - split; [constructor | constructor].
  - split; [exact H1 | exact H2].
Qed.

Lemma tally_total_Permutation m m' : Permutation m m' -> tally_total m = tally_total m'.
Proof.
  induction 1 as [|x l l' _ IH|x y l|l l' l'' _ IH1 _ IH2]; cbn;
    unfold tally_total in *; cbn; lia.
Qed.

Lemma tally_total_nonneg m :
  Forall (fun kn : string * Z => 1 <= kn.2) m -> 0 <= tally_total m.
Proof.
  induction 1 as [|x l Hx Hl IH]; unfold tally_total in *; cbn [fold_right]; lia.
Qed.

Lemma tally_total_take n m :
  Forall (fun kn : string * Z => 1 <= kn.2) m -> tally_total (take n m) <= tally_total m.
Proof.
  intros H. revert n. induction H as [|x l Hx Hl IH]; intros n.
  - rewrite take_nil. reflexivity.
  - destruct n as [|n]; cbn [take].
    + apply (tally_total_nonneg (x :: l)). constructor; assumption.
    + specialize (IH n). unfold tally_total in *. cbn [fold_right]. lia.
Qed.

Lemma with_target_le (l : list PhishTankEntry) : with_target l <= Z.of_nat (length l).
Proof. unfold with_target. pose proof (filter_length_le (fun entry => Js.truthy_string (default "" (target entry))) l). lia. Qed.

Lemma Sorted_map {A B} (f : A -> B) (R1 : A -> A -> Prop) (R2 : B -> B -> Prop)
      (l : list A) :
  (forall x y, R1 x y -> R2 (f x) (f y)) -> Sorted R1 l -> Sorted R2 (List.map f l).
Proof.
  intros Hf. induction 1 as [|x l Hl IH Hhd]; cbn; constructor; [exact IH|].
  destruct Hhd; cbn; constructor. apply Hf. assumption.
Qed.

(** What [getPhishStats] reports of a tally: the targets with the highest
    counts, each once, in descending order of their counts. *)
Lemma ranked_tally (m : list (string * Z)) (limit : Z) :
  tally_ok m ->
  let tops := List.map (fun '(tg, n) => {| tt_target := tg; tt_count := n |})
                (Js.slice0 (Js.sort (fun a b => Some (snd b - snd a)) m) limit) in
  NoDup (List.map tt_target tops)
  /\ Forall (fun tt => tt_target tt <> "" /\ 1 <= tt_count tt) tops
  /\ top_total tops <= tally_total m
  /\ Sorted (fun a b => tt_count b <= tt_count a) tops
  /\ (forall tt, tt ∈ tops -> (tt_target tt, tt_count tt) ∈ m)
  /\ (0 <= limit -> Z.of_nat (length tops) <= limit).
Proof.
  intros [Hnd Hall]. cbn zeta.
  set (cmp := fun a b : string * Z => Some (b.2 - a.2)).
  set (f := fun '(tg, n) => {| tt_target := tg; tt_count := n |}).
  pose proof (sort_Permutation cmp m) as Hperm.
  assert (Sorted (fun a b : string * Z => b.2 <= a.2) (Js.sort cmp m)) as Hsorted.
  { apply (sort_Sorted cmp snd). intros a b _ _. reflexivity. }
  assert (Forall (fun kn : string * Z => kn.1 <> "" /\ 1 <= kn.2) (Js.sort cmp m)) as Hall'.
  { rewrite Hperm. exact Hall. }
  assert (NoDup ((Js.sort cmp m).*1)) as Hnd'.
  { rewrite Hperm. exact Hnd. }
  pose proof (slice0_length (Js.sort cmp m) limit) as Hlen.
  unfold Js.slice0 in *. cbn zeta in *.
  set (k := Z.to_nat _) in *.
  split; [|split; [|split; [|split; [|split]]]].
  - rewrite map_map. rewrite (map_ext _ fst) by (intros [? ?]; reflexivity).
    change (NoDup ((take k (Js.sort cmp m)).*1)). rewrite fmap_take.
    eapply sublist_NoDup; [exact Hnd' | apply sublist_take].
  - apply Forall_map. eapply Forall_impl; [apply Forall_take, Hall'|].
    intros [tg n] H. exact H.
  - rewrite <- (tally_total_Permutation _ _ Hperm).
    etransitivity; [|apply (tally_total_take k)].
    + clear. induction (take k (Js.sort cmp m)) as [|[tg n] r IH]; cbn; [lia|].
      unfold top_total, tally_total in *. cbn. lia.
    + eapply Forall_impl; [exact Hall'|]. intros ? [_ H]. exact H.
  - apply (Sorted_map f (fun a b : string * Z => b.2 <= a.2)).
    + intros [? ?] [? ?] H. exact H.
    + apply take_Sorted, Hsorted.
  - intros tt Hin. apply list_elem_of_In, in_map_iff in Hin as ([tg n] & <- & Hin).
    cbn. apply list_elem_of_In in Hin. apply subseteq_take in Hin.
    rewrite Hperm in Hin. exact Hin.
  - intros Hl. rewrite length_map. apply Hlen, Hl.
Qed.


Lemma count_target_elem key m k n :
  tally_ok m -> (k, n) ∈ count_target key m ->
  (k <> key /\ (k, n) ∈ m)
  \/ (k = key /\ (((key ∉ m.*1) /\ n = 1) \/ exists n0, (key, n0) ∈ m /\ n = n0 + 1)).
Proof.
  induction m as [|[k0 n0] r IH]; intros [Hnd Hall]; cbn.
  - rewrite list_elem_of_singleton. intros [= -> ->]. right. split; [reflexivity|].
    left. split; [apply not_elem_of_nil | reflexivity].
  - cbn in Hnd. apply NoDup_cons in Hnd as [Hk Hnd].
    apply Forall_cons in Hall as [[Hk0 Hn] Hall]. cbn in Hk0, Hn.
    case_bool_decide as Heq.
    + subst k0. unfold Js.or_number. destruct (Z.eqb_spec n0 0) as [->|_]; [lia|].
      rewrite elem_of_cons. intros [[= -> ->]|Hin].
      * right. split; [reflexivity|]. right. exists n0. split; [left | reflexivity].
      * left. split; [|right; exact Hin].
        intros ->. apply Hk. apply (list_elem_of_fmap_2 fst) in Hin. exact Hin.
    + rewrite elem_of_cons. intros [[= -> ->]|Hin].
      * left. split; [exact Heq | left].
      * destruct (IH (conj Hnd Hall) Hin) as [[H1 H2]|[-> [[H1 ->]|(n1 & H1 & ->)]]].
        -- left. split; [exact H1 | right; exact H2].
        -- right. split; [reflexivity|]. left. split; [|reflexivity].
           cbn. rewrite elem_of_cons. intros [<-|H]; [congruence | exact (H1 H)].
        -- right. split; [reflexivity|]. right. exists n1. split; [right; exact H1 | reflexivity].
Qed.

Lemma named_snoc k l entry :
  named k (l ++ [entry]) = named k l + (if bool_decide (target entry = Some k) then 1 else 0).
Proof.
  unfold named. rewrite List.filter_app, length_app. cbn [List.filter].
  destruct (bool_decide (target entry = Some k)); cbn [length]; lia.
Qed.

Lemma counts_step done m entry :
  counts_of done m ->
  counts_of (done ++ [entry])
    (if Js.truthy_string (default "" (target entry))
     then count_target (default "" (target entry)) m
     else m).
Proof.
  intros (Hok & Hin & Hout).
  destruct (Js.truthy_string (default "" (target entry))) eqn:Ht.
  - pose proof (truthy_string_nonempty _ Ht) as Hkey.
    assert (target entry = Some (default "" (target entry))) as Htg.
    { destruct (target entry); [reflexivity | contradiction Hkey; reflexivity]. }
    set (key := default "" (target entry)) in *.
    split; [apply count_target_ok; assumption|]. split.
    + intros k n Hkn. rewrite named_snoc.
      destruct (count_target_elem key m k n Hok Hkn)
        as [[H1 H2]|[-> [[H1 ->]|(n1 & H1 & ->)]]].
      * rewrite bool_decide_eq_false_2 by congruence. rewrite (Hin k n H2). lia.
      * rewrite bool_decide_eq_true_2 by exact Htg. rewrite (Hout key Hkey H1). lia.
      * rewrite bool_decide_eq_true_2 by exact Htg. rewrite (Hin key n1 H1). lia.
    + intros k Hk Hnot. rewrite count_target_keys in Hnot. rewrite named_snoc.
      rewrite bool_decide_eq_false_2 by (intros H; apply Hnot; left; congruence).
      rewrite Hout; [lia | exact Hk | tauto].
  - assert (forall k, k <> "" -> target entry <> Some k) as Hno.
    { intros k Hk H. rewrite H in Ht. cbn in Ht. destruct k; [congruence | discriminate]. }
    split; [exact Hok|]. split.
    + intros k n Hkn. rewrite named_snoc.
      rewrite bool_decide_eq_false_2.
      * rewrite (Hin k n Hkn). lia.
      * apply Hno. destruct Hok as [_ Hall]. rewrite Forall_forall in Hall.
        apply (Hall (k, n) Hkn).
    + intros k Hk Hnot. rewrite named_snoc.
      rewrite bool_decide_eq_false_2 by (apply Hno, Hk).
      rewrite Hout; [lia | exact Hk | exact Hnot].
Qed.

Lemma counts_fold l done m :
  counts_of done m ->
  counts_of (done ++ l)
    (fold_left (fun m entry =>
                  if Js.truthy_string (default "" (target entry))
                  then count_target (default "" (target entry)) m
                  else m) l m).
Proof.
  revert done m. induction l as [|entry l IH]; intros done m Hm; cbn [fold_left].
  - rewrite app_nil_r. exact Hm.
  - rewrite (cons_middle entry done l), app_assoc. apply IH, counts_step, Hm.
Qed.

(** The tally counts, for every target, the entries that name it. *)
Lemma tally_counts l : counts_of l (tally l).
Proof.
  apply (counts_fold l [] []). split; [split; constructor|]. split.
  - intros k n H. apply elem_of_nil in H. contradiction.
  - intros k _ _. reflexivity.
Qed.

Lemma Sorted_take_drop {A} (key : A -> Z) (l : list A) (n : nat) x y :
  Sorted (fun a b => key b <= key a) l ->
  x ∈ take n l -> y ∈ drop n l -> key y <= key x.
Proof.
  intros Hs. apply Sorted_StronglySorted in Hs; [|intros a b c; lia].
  revert n. induction Hs as [|a l Hl IH Ha]; intros n.
  - rewrite take_nil. intros H. apply elem_of_nil in H. contradiction.
  - destruct n as [|n]; cbn [take drop].
    + intros H. apply elem_of_nil in H. contradiction.
    + rewrite elem_of_cons. intros [->|Hx] Hy.
      * rewrite Forall_forall in Ha. apply Ha, (subseteq_drop n l), Hy.
      * apply (IH n); assumption.
Qed.

(** A target left out of the report has no more entries than any target
    reported. *)
Lemma ranked_rest (m : list (string * Z)) (limit : Z) (kn kn' : string * Z) :
  let top := Js.slice0 (Js.sort (fun a b => Some (snd b - snd a)) m) limit in
  kn ∈ m -> kn ∉ top -> kn' ∈ top -> kn.2 <= kn'.2.
Proof.
  cbn zeta. set (cmp := fun a b : string * Z => Some (b.2 - a.2)).
  unfold Js.slice0. cbn zeta. set (k := Z.to_nat _).
  intros Hin Hnot Hin'.
  apply (Sorted_take_drop snd (Js.sort cmp m) k).
  - apply (sort_Sorted cmp snd). intros a b _ _. reflexivity.
  - exact Hin'.
  - rewrite <- (sort_Permutation cmp m), <- (take_drop k (Js.sort cmp m)) in Hin.
    apply elem_of_app in Hin as [H|H]; [contradiction | exact H].
Qed.

(** X16.  For a snapshot, [getPhishStats] answers.  The number of days
    is between 1 and 30, and the cutoff is the time of the call with its
    local date set back by that number of days: that many times 24 hours
    earlier in a time zone whose offset from UTC is always the same, which
    is the case proved here.  [total_phish] counts the entries of the
    snapshot submitted at or after the cutoff, those dated after the call
    among them: the range has no upper end.  The verified and the online ones are counted among these.
    Every target reported is named by one of these entries and comes with
    the number of them that name it; the targets are reported once each, in
    descending order of their counts, no more of them than the limit (10
    when none is given, 50 at most) when that is not negative; and a target
    that is left out has no more entries than any target reported. *)
Theorem stats_answer (env : Env) (args : GetPhishStatsArgs) (s s1 : State) (db : Value) :
  cachedDatabase env s = (Return db, s1) ->
  exists e s',
    getPhishStats env args s = (Return e, s')
    /\ 1 <= ps_analysis_period_days e <= 30
    /\ let recent := submitted_since env (clock s1 + Z.of_N (lag env (ticks s1)))
                       (ps_analysis_period_days e) db in
       let stats := ps_statistics e in
       total_phish stats = Z.of_nat (length recent)
       /\ recent_submissions stats = total_phish stats
       /\ 0 <= total_verified stats <= total_phish stats
       /\ 0 <= total_online stats <= total_phish stats
       /\ (forall tt, tt ∈ top_targets stats ->
           tt_target tt <> ""
           /\ 1 <= tt_count tt
           /\ tt_count tt = named (tt_target tt) recent)
       /\ NoDup (List.map tt_target (top_targets stats))
       /\ Sorted (fun a b => tt_count b <= tt_count a) (top_targets stats)
       /\ top_total (top_targets stats) <= total_phish stats
       /\ (0 <= Js.or_number (ps_top_targets_limit args) 10 ->
           Z.of_nat (length (top_targets stats))
           <= Z.min (Js.or_number (ps_top_targets_limit args) 10) 50)
       /\ (forall k tt,
             k <> "" -> k ∉ List.map tt_target (top_targets stats) ->
             tt ∈ top_targets stats ->
             named k recent <= tt_count tt).
Proof.
  intros Hdb. unfold getPhishStats. rewrite (bind_returns _ _ _ _ _ Hdb).
  unfold Date_now, elapse, bind, modify, gets, ret. cbn [fst snd].
  eexists _, _. split; [reflexivity|].
  cbn [ps_analysis_period_days ps_statistics total_phish total_verified total_online
       top_targets recent_submissions].
  cbn [clock advance next_tick].
  set (days := Z.min (Z.max (Js.or_number (ps_days args) 7) 1) 30).
  set (limit := Z.min (Js.or_number (ps_top_targets_limit args) 10) 50).
  split; [lia|]. cbn zeta.
  change (List.filter _ (entries_of db))
    with (submitted_since env (clock s1 + Z.of_N (lag env (ticks s1))) days db).
  set (recent := submitted_since env (clock s1 + Z.of_N (lag env (ticks s1))) days db).
  change (fold_left _ recent []) with (tally recent).
  destruct (tally_counts recent) as (Hok & Hin & Hout).
  destruct (tally_spec recent) as [_ Htot].
  destruct (ranked_tally (tally recent) limit Hok) as (R1 & R2 & R3 & R4 & R5 & R6).
  cbn zeta in R1, R2, R3, R4, R5, R6.
  pose proof (with_target_le recent) as Hle.
  pose proof (filter_length_le (fun e => bool_decide (verified e = "yes")) recent) as Hv.
  pose proof (filter_length_le (fun e => bool_decide (online e = "yes")) recent) as Ho.
  split; [reflexivity|]. split; [reflexivity|]. split; [lia|]. split; [lia|].
  split; [|split; [exact R1|split; [exact R4|split; [lia|split; [|]]]]].
  - intros tt Htt. rewrite Forall_forall in R2. destruct (R2 tt Htt) as [H1 H2].
    split; [exact H1|]. split; [exact H2|]. apply Hin, R5, Htt.
  - intros Hl. apply R6. lia.
  - intros k tt Hk Hnot Htt.
    destruct (decide (k ∈ (tally recent).*1)) as [Hkey|Hkey];
      [|rewrite (Hout k Hk Hkey); rewrite Forall_forall in R2;
        destruct (R2 tt Htt); lia].
    apply list_elem_of_fmap in Hkey as ([k' n] & -> & Hkn). cbn [fst] in *.
    rewrite <- (Hin k' n Hkn).
    apply list_elem_of_In, in_map_iff in Htt as ([tg c] & <- & Htop).
    apply list_elem_of_In in Htop. cbn [tt_count].
    apply (ranked_rest (tally recent) limit (k', n) (tg, c)); [exact Hkn | | exact Htop].
    intros Hin'. apply Hnot. apply list_elem_of_In, in_map_iff.
    exists {| tt_target := k'; tt_count := n |}. split; [reflexivity|].
    apply in_map_iff. exists (k', n). split; [reflexivity | apply list_elem_of_In, Hin'].
Qed.

Lemma stats_answer_witness :
  exists e s',
    getPhishStats Demo.plain {| ps_days := Some 30; ps_top_targets_limit := Some 1 |}
      (initial (Demo.t0 + 172800000)) = (Return e, s')
    /\ 1 <= ps_analysis_period_days e <= 30
    /\ let recent := submitted_since Demo.plain (Demo.t0 + 172800000) (ps_analysis_period_days e) Demo.snapshot in
       let stats := ps_statistics e in
       total_phish stats = Z.of_nat (length recent)
       /\ recent_submissions stats = total_phish stats
       /\ 0 <= total_verified stats <= total_phish stats
       /\ 0 <= total_online stats <= total_phish stats
       /\ (forall tt, tt ∈ top_targets stats ->
           tt_target tt <> ""
           /\ 1 <= tt_count tt
           /\ tt_count tt = named (tt_target tt) recent)
       /\ NoDup (List.map tt_target (top_targets stats))
       /\ Sorted (fun a b => tt_count b <= tt_count a) (top_targets stats)
       /\ top_total (top_targets stats) <= total_phish stats
       /\ (0 <= 1 -> Z.of_nat (length (top_targets stats)) <= 1)
       /\ (forall k tt,
             k <> "" -> k ∉ List.map tt_target (top_targets stats) ->
             tt ∈ top_targets stats ->
             named k recent <= tt_count tt).
Proof.
  apply (stats_answer Demo.plain {| ps_days := Some 30; ps_top_targets_limit := Some 1 |}
           (initial (Demo.t0 + 172800000)) (cachedDatabase Demo.plain (initial (Demo.t0 + 172800000))).2 Demo.snapshot).
  vm_compute. reflexivity.
Defined.

(** In that world a call on the third of January reports one target of
    the two that the entries of the first and the second have, with the one
    entry that names it. *)
Example stats_of_the_demo :
  (getPhishStats Demo.plain {| ps_days := Some 30; ps_top_targets_limit := Some 1 |}
     (initial (Demo.t0 + 172800000))).1
  = Return
      {| ps_statistics :=
           {| total_phish := 3; total_verified := 3; total_online := 3;
              top_targets := [{| tt_target := "PayPal"; tt_count := 1 |}];
              recent_submissions := 3;
              date_range_from := "2023-12-04"; date_range_to := "2024-01-03" |};
         ps_analysis_period_days := 30;
         ps_summary := "Analyzed 3 phishing submissions over 30 days. "
                       +:+ "3 verified, 3 currently online." |}.
Proof. vm_compute. reflexivity. Qed.

(** A call at midnight of the first of January counts the same three
    entries, all of them dated after it. *)
Example entries_dated_after_the_call_are_counted :
  clock (initial Demo.t0) = 1704067200000
  /\ submitted Demo.plain Demo.e1 = Some 1704096000000
  /\ total_phish <$> (ps_statistics <$> answer (getPhishStats Demo.plain
                                                 {| ps_days := Some 1;
                                                    ps_top_targets_limit := None |}
                                                 (initial Demo.t0)))
     = Some 3.
Proof. vm_compute. repeat split; reflexivity. Qed.

(* ================================================================== *)
(** * Further properties: the requests of a session *)
(* ================================================================== *)

Section Sent.

Context (env : Env) (P : HttpRequest -> Prop).

Global Instance sent_preorder : PreOrder (sent P).
Proof.
  split.
  - intros s. exists []. split; [reflexivity | constructor].
  - intros s1 s2 s3 (n1 & H1 & F1) (n2 & H2 & F2). exists (n2 ++ n1).
    rewrite H2, H1, app_assoc. split; [reflexivity | apply Forall_app; split; assumption].
Qed.

Lemma sent_quiet s s' : requests s' = requests s -> sent P s s'.
Proof. intros H. exists []. split; [exact H | constructor]. Qed.

(** The steps that send nothing. *)
Ltac sent_nothing := intros ?; apply sent_quiet; reflexivity.

Lemma sent_elapse : keeps (sent P) (elapse env).
Proof. sent_nothing. Qed.

Lemma sent_Date_now : keeps (sent P) (Date_now env).
Proof. sent_nothing. Qed.

Lemma sent_sleep w d : keeps (sent P) (sleep env w d).
Proof. sent_nothing. Qed.

Lemma sent_cache_get key : keeps (sent P) (cache_get env key).
Proof. unfold cache_get. keeps_tac; sent_nothing. Qed.

Lemma sent_cache_set key val ttl : keeps (sent P) (cache_set env key val ttl).
Proof. sent_nothing. Qed.

Lemma sent_enforceRateLimit : keeps (sent P) (enforceRateLimit env).
Proof. unfold enforceRateLimit. keeps_tac; sent_nothing. Qed.

Lemma sent_http rq : P rq -> keeps (sent P) (http env rq).
Proof.
  intros Hrq. unfold http. keeps_tac; [|apply sent_elapse].
  apply keeps_modify; keeps_side. intros s. exists [rq].
  split; [reflexivity | repeat constructor; exact Hrq].
Qed.

Lemma sent_downloadDatabase : P (database_request env) -> keeps (sent P) (downloadDatabase env).
Proof.
  intros Hrq. unfold downloadDatabase. rewrite downloadDatabase_request.
  keeps_tac. apply sent_http, Hrq.
Qed.

Lemma sent_cachedDatabase : P (database_request env) -> keeps (sent P) (cachedDatabase env).
Proof.
  intros Hrq. unfold cachedDatabase.
  keeps_tac;
    first [ apply sent_cache_get | apply sent_cache_set | apply sent_downloadDatabase, Hrq ].
Qed.

Lemma sent_checkUrl_miss u f key :
  P (check_request env u f) -> keeps (sent P) (checkUrl_miss env u f key).
Proof.
  intros Hrq. unfold checkUrl_miss. fold (check_request env u f).
  keeps_tac;
    first [ apply sent_enforceRateLimit | apply sent_cache_set | apply sent_http, Hrq ].
Qed.

End Sent.

Section Session.

Context (env : Env).

Lemma sent_checkUrl args : keeps (sent (to_phishtank env)) (checkUrl env args).
Proof.
  unfold checkUrl.
  destruct (Js.truthy_string (Js.trim (Js.or_string (cu_url args) ""))) eqn:Hu;
    cbn [negb]; [|apply keeps_throw; apply _].
  destruct (isValidUrl env (Js.trim (Js.or_string (cu_url args) ""))) eqn:Hv;
    cbn [negb]; [|apply keeps_throw; apply _].
  assert (to_phishtank env
            (check_request env (Js.trim (Js.or_string (cu_url args) ""))
               (Js.or_string (cu_format args) "json"))) as Hrq.
  { right. eexists _, _. split; [reflexivity|]. split; [|exact Hv].
    apply truthy_string_nonempty, Hu. }
  keeps_tac; first [ apply sent_cache_get | apply sent_checkUrl_miss, Hrq ].
Qed.

Lemma sent_checkEach delay urls : keeps (sent (to_phishtank env)) (checkEach env delay urls).
Proof.
  induction urls as [|u rest IH]; cbn [checkEach]; keeps_tac;
    first [ apply sent_checkUrl | apply sent_sleep | apply IH ].
Qed.

Lemma sent_dispatch call : keeps (sent (to_phishtank env)) (dispatch env call).
Proof.
  assert (to_phishtank env (database_request env)) as Hdb by (left; reflexivity).
  destruct call; cbn [dispatch].
  - keeps_tac. apply sent_checkUrl.
  - unfold checkMultipleUrls. keeps_tac. apply sent_checkEach.
  - unfold getRecentPhish. keeps_tac; [apply sent_cachedDatabase, Hdb|].
    intros s. apply sent_quiet. reflexivity.
  - unfold searchPhishByTarget. keeps_tac. apply sent_cachedDatabase, Hdb.
  - unfold getPhishDetails. keeps_tac. apply sent_cachedDatabase, Hdb.
  - unfold getPhishStats. keeps_tac; first [apply sent_cachedDatabase, Hdb | apply sent_Date_now].
  - unfold searchPhishByDate. keeps_tac. apply sent_cachedDatabase, Hdb.
  - keeps_tac.
Qed.

Lemma sent_serve calls : keeps (sent (to_phishtank env)) (serve env calls).
Proof.
  induction calls as [|c rest IH]; cbn [serve]; keeps_tac; [|apply IH].
  unfold callTool. keeps_tac. apply sent_dispatch.
Qed.

End Session.

Lemma to_phishtank_as_configured (env : Env) (rq : HttpRequest) :
  to_phishtank env rq ->
  ("User-Agent", Js.or_string (PHISHTANK_USER_AGENT env) "phishtank-mcp-server/1.0.0")
    ∈ rq_headers rq
  /\ key_as_configured env rq.
Proof.
  intros [->|(raw & f & -> & _ & _)].
  - split; [left|]. intros key H. cbn in H. apply elem_of_nil in H. contradiction.
  - split; [left|]. intros key H. cbn [rq_form check_request app] in H.
    unfold has_apiKey, config in H. cbn [apiKey] in H.
    rewrite !elem_of_cons in H. destruct H as [H|[H|H]]; [discriminate H | discriminate H|].
    destruct (PHISHTANK_API_KEY env) as [k|]; cbn in H; [|apply elem_of_nil in H; contradiction].
    destruct k as [|c k]; cbn in H; [apply elem_of_nil in H; contradiction|].
    apply list_elem_of_singleton in H. injection H as ->. split; [reflexivity | discriminate].
Qed.

(** X17.  Whatever calls a session is made of, and whatever upstream
    answers, the requests the server sends are of two kinds: the download of
    the database, and the check of a URL that is trimmed, not empty and well
    formed.  Each of them carries the configured user agent, or the default
    one; and an API key is sent only when one is configured, and is that
    one. *)
Theorem session_requests (env : Env) (calls : list ToolCall) (s : State) :
  exists new,
    requests (serve env calls s).2 = new ++ requests s
    /\ Forall (fun rq =>
                 to_phishtank env rq
                 /\ ("User-Agent",
                     Js.or_string (PHISHTANK_USER_AGENT env) "phishtank-mcp-server/1.0.0")
                      ∈ rq_headers rq
                 /\ key_as_configured env rq) new.
Proof.
  destruct (sent_serve env calls s) as (new & Hnew & Hall). exists new.
  split; [exact Hnew|]. eapply Forall_impl; [exact Hall|].
  intros rq Hrq. split; [exact Hrq | apply to_phishtank_as_configured, Hrq].
Qed.

(** A session of three calls in the demo world sends two requests: the
    second check of the same URL is answered from the cache. *)
Example session_of_three_calls :
  requests (serve Demo.plain
              [check_url Demo.a_com;
               get_recent_phish {| rp_limit := None; rp_include_offline := None |};
               check_url Demo.a_com_padded]
              (initial Demo.t0)).2
  = [database_request Demo.plain; check_request Demo.plain "https://a.com" "json"].
Proof. vm_compute. reflexivity. Qed.
